(** * cx861xx_flash: the flash programming engine of the Conexant USB boot
    flash utility, embedded from [cx861xx_flash.c].

    The embedding follows version 1.1, which drives Intel and AMD parts
    from a catalog of chips; version 1.0 is its Intel-only predecessor and
    has the same memory access and the same Intel command sequences.

    The program talks to the boot loader of the board through
    [libusb_bulk_transfer] on one bulk endpoint.  The board is a parameter
    of the development: an arbitrary state type with one function for a
    transfer on the OUT endpoint and one for a transfer on the IN endpoint.
    Every function of the C file that touches the device is a computation
    in a small monad that threads the board's state, collects the log of
    what was done, and can stop without a result when a loop of the C code
    has not finished within the iteration bound or when the C code leaves
    defined behaviour. *)

From Stdlib Require Import String ZArith List Bool Lia Arith Sorted.
Import ListNotations.
Local Open Scope Z_scope.

Set Implicit Arguments.

(** ** Machine integers *)

Definition u8  (x : Z) : Z := x mod 256.
Definition u16 (x : Z) : Z := x mod 65536.
Definition u32 (x : Z) : Z := x mod 4294967296.

(** The bytes of a [u16] object in memory (little endian host, see README)
    and the [u16] read back from two bytes. *)
Definition bytes_of_u16 (w : Z) : list Z := [u8 w; u8 (Z.shiftr (u16 w) 8)].
Definition u16_of_bytes (lo hi : Z) : Z := Z.lor (u8 lo) (Z.shiftl (u8 hi) 8).

(** ** Protocol constants and the command packet *)

Definition CX861XX_IO_BASE : Z := 0x00600000.
Definition CX861XX_FLASH_ENABLE : Z := CX861XX_IO_BASE + 4.

(* enum cx_fw_cmd *)
Definition FW_CMD_ERR : Z := 0.
Definition FW_GET_VER : Z := 1.
Definition FW_READ_MEM : Z := 2.
Definition FW_WRITE_MEM : Z := 3.
Definition FW_RMW_MEM : Z := 4.
Definition FW_CHECKSUM_MEM : Z := 5.
Definition FW_GOTO_MEM : Z := 6.

(* enum cx_mem_access *)
Definition MA_BYTE : Z := 0.
Definition MA_WORD : Z := 1.
Definition MA_DWORD : Z := 2.

(** sizeof(packet.data) *)
Definition DATA_SIZE : Z := 56.

(* struct cx_fw_packet: 64 bytes, packed *)
Record cx_fw_packet : Type := mkPacket {
  cmd : Z;
  byte_count : Z;       (* max. 56 *)
  access_type : Z;
  ack_request : Z;
  address : Z;
  data : list Z         (* u8 data[56] *)
}.

(** [packet.data] after [memset (&packet, 0, ...)] and
    [memcpy (packet.data, buf, n)]. *)
Definition payload (buf : list Z) (n : Z) : list Z :=
  firstn (Z.to_nat n) buf ++ repeat 0 (Z.to_nat (DATA_SIZE - n)).

(** ** The log *)

(** An argument of printf. *)
Inductive arg : Type :=
| Int (z : Z)
| Str (s : string).

Inductive event : Type :=
| BulkOut (p : cx_fw_packet) (ret : Z)
    (* libusb_bulk_transfer on CX_EP_CMD: the packet sent, the return code *)
| BulkIn (ret : Z) (p : cx_fw_packet)
    (* libusb_bulk_transfer on CX_EP_CMD | LIBUSB_ENDPOINT_IN: the return
       code and the contents of [packet] after the call *)
| Got16 (addr value : Z)
    (* cx_flash_read (dev, addr) handed [value] back to its caller *)
| Stdout (fmt : string) (args : list arg)
    (* printf: the format string as written in the source, its arguments *)
| Stderr (fmt : string) (args : list arg)
    (* fprintf (stderr, ...) *)
| Fwrite (bytes : list Z) (n : Z).
    (* fwrite (buf, 1, n, f): [n] bytes of buf go to FILE; [bytes] is what
       was stored to buf from its start on, the rest of buf is as malloc
       left it *)

(** Why a computation has no result. *)
Inductive stop : Type :=
| Spinning    (* a loop of the C code is still running after the bound *)
| Undefined.  (* the C code reads or writes outside an object *)

Inductive outcome (A : Type) : Type :=
| Ret (a : A)
| Stop (why : stop).
Arguments Stop {A} why.

(** ** Views of a log *)

(** The packets handed to the OUT endpoint, in order. *)
Fixpoint sent (t : list event) : list cx_fw_packet :=
  match t with
  | [] => []
  | BulkOut p _ :: t' => p :: sent t'
  | _ :: t' => sent t'
  end.

(** The register level: every memory-write packet sent and every value
    [cx_flash_read] returned, in order. *)
Inductive op : Type :=
| Wr (p : cx_fw_packet)
| Rd (addr value : Z).

Fixpoint ops (t : list event) : list op :=
  match t with
  | [] => []
  | BulkOut p _ :: t' =>
    if cmd p =? FW_WRITE_MEM then Wr p :: ops t' else ops t'
  | Got16 a v :: t' => Rd a v :: ops t'
  | _ :: t' => ops t'
  end.

(** The memory-write packets alone. *)
Definition wr_of (l : list op) : list cx_fw_packet :=
  flat_map (fun o => match o with Wr p => [p] | Rd _ _ => [] end) l.

Definition writes (t : list event) : list cx_fw_packet := wr_of (ops t).

(** The format strings given to printf, in order. *)
Fixpoint stdout (t : list event) : list string :=
  match t with
  | [] => []
  | Stdout fmt _ :: t' => fmt :: stdout t'
  | _ :: t' => stdout t'
  end.

(** Transfers on the IN endpoint and read requests: what a computation
    that never reads leaves out. *)
Fixpoint reads (t : list event) : list event :=
  match t with
  | [] => []
  | BulkIn r p :: t' => BulkIn r p :: reads t'
  | Got16 a v :: t' => Got16 a v :: reads t'
  | BulkOut p r :: t' =>
    if cmd p =? FW_WRITE_MEM then reads t' else BulkOut p r :: reads t'
  | _ :: t' => reads t'
  end.

(** The responses keep step with the requests: each successful transfer
    on the IN endpoint carries at least one byte and no more than is
    still due for the last read request.  [track due t] follows the bytes
    due through the log [t]; it is [None] when a response is out of
    step. *)
Fixpoint track (due : Z) (t : list event) : option Z :=
  match t with
  | [] => Some due
  | BulkOut p r :: t' =>
    track (if (r <? 0) || negb (cmd p =? FW_READ_MEM) then 0
           else byte_count p) t'
  | BulkIn r p :: t' =>
    if r <? 0 then track due t'
    else if (0 <? u8 (byte_count p)) && (u8 (byte_count p) <=? due)
         then track (due - u8 (byte_count p)) t'
         else None
  | _ :: t' => track due t'
  end.

Definition in_step (t : list event) : bool :=
  match track 0 t with
  | Some _ => true
  | None => false
  end.

(** ** The chunks of a transfer, as the design states them *)

(** Address and byte count of a packet. *)
Definition span (p : cx_fw_packet) : Z * Z := (address p, byte_count p).

(** Chunk [k] of a transfer of [count] bytes at [addr]: it starts 56 * k
    bytes in and carries 56 bytes, or what is left. *)
Definition chunk (addr count : Z) (k : nat) : Z * Z :=
  (u32 (addr + DATA_SIZE * Z.of_nat k),
   Z.min DATA_SIZE (count - DATA_SIZE * Z.of_nat k)).

Definition chunks (count : Z) : nat :=
  Z.to_nat ((count + (DATA_SIZE - 1)) / DATA_SIZE).

Definition tiling (addr count : Z) : list (Z * Z) :=
  map (chunk addr count) (seq 0 (chunks count)).

(** ** A scripted board, for running the code

    The return codes of the transfers on the OUT endpoint and the
    responses on the IN endpoint are taken from two lists; when a list is
    used up, a transfer on the OUT endpoint succeeds and one on the IN
    endpoint times out (LIBUSB_ERROR_TIMEOUT). *)

Record script : Type := mkScript {
  out_codes : list Z;
  responses : list (Z * cx_fw_packet)
}.

Definition LIBUSB_ERROR_TIMEOUT : Z := -7.

Definition script_out (p : cx_fw_packet) (s : script) : Z * script :=
  match out_codes s with
  | [] => (0, s)
  | r :: rest => (r, mkScript rest (responses s))
  end.

Definition script_in (s : script) : Z * cx_fw_packet * script :=
  match responses s with
  | [] => (LIBUSB_ERROR_TIMEOUT, mkPacket 0 0 0 0 0 (payload [] 0), s)
  | (r, p) :: rest => (r, p, mkScript (out_codes s) rest)
  end.

(** The response of the boot loader to a 16-bit read that finds [w]. *)
Definition answer16 (w : Z) : Z * cx_fw_packet :=
  (0, mkPacket FW_READ_MEM 2 MA_WORD 0 0 (payload (bytes_of_u16 w) 2)).

(** A response that carries the [n] bytes [bytes]. *)
Definition answer (n : Z) (bytes : list Z) : Z * cx_fw_packet :=
  (0, mkPacket FW_READ_MEM n MA_BYTE 0 0 (payload bytes n)).

(** The first two blocks of an image for the Intel part: each starts with
    one word and goes on as erased flash. *)
Definition two_blocks_image : list Z :=
  [0x34; 0x12] ++ repeat 0xff (Z.to_nat 8190)
  ++ [0x78; 0x56] ++ repeat 0xff (Z.to_nat 8190).

Section Board.

(** The board behind the endpoint. *)
Variable usb : Type.
Variable bulk_out : cx_fw_packet -> usb -> Z * usb.
Variable bulk_in : usb -> Z * cx_fw_packet * usb.

(** The value found in an uninitialised [u16] local of the host, taken to
    be the same at every call. *)
Variable junk : Z.

(** Bound on the iterations of each loop that may run for ever. *)
Variable fuel : nat.

Record run (A : Type) : Type := mkRun {
  trace : list event;
  final : usb;
  out : outcome A
}.

Definition M (A : Type) : Type := usb -> run A.

Definition ret {A} (a : A) : M A := fun d => mkRun [] d (Ret a).

Definition halt {A} (why : stop) : M A := fun d => mkRun [] d (Stop why).

Definition bind {A B} (m : M A) (f : A -> M B) : M B :=
  fun d =>
    let r := m d in
    match out r with
    | Ret a => let r' := f a (final r) in
               mkRun (trace r ++ trace r') (final r') (out r')
    | Stop why => mkRun (trace r) (final r) (Stop why)
    end.

Definition emit (e : event) : M unit := fun d => mkRun [e] d (Ret tt).

(** A log put in front of a run. *)
Definition after {A} (t : list event) (r : run A) : run A :=
  mkRun (t ++ trace r) (final r) (out r).

Notation "x <- m ;; k" := (bind m (fun x => k))
  (at level 100, m at next level, right associativity).
Notation "m ;; k" := (bind m (fun _ => k))
  (at level 100, right associativity).

Definition printf (fmt : string) (args : list arg) : M unit :=
  emit (Stdout fmt args).
Definition eprintf (fmt : string) (args : list arg) : M unit :=
  emit (Stderr fmt args).

Definition when (b : bool) (m : M unit) : M unit := if b then m else ret tt.

(** ** Transport: one call of libusb_bulk_transfer *)

Definition usb_send (p : cx_fw_packet) : M Z :=
  fun d => let '(r, d') := bulk_out p d in mkRun [BulkOut p r] d' (Ret r).

Definition usb_recv : M (Z * cx_fw_packet) :=
  fun d => let '(r, p, d') := bulk_in d in mkRun [BulkIn r p] d' (Ret (r, p)).

(** ** Memory access *)

(** The inner loop of [cx_read_mem]: responses are read until the byte
    count of the request is used up.  The result is the return code when a
    transfer failed, and the updated [addr], [count] and bytes copied to
    [buf].  Every caller passes a buffer of exactly [count] bytes, so a
    response that carries more than the remaining [count] overruns it, and
    one that carries more than 56 is copied from beyond [packet.data]. *)
Fixpoint cx_read_mem_recv (n : nat) (packet_byte_count addr count : Z)
    (buf : list Z) : M (option Z * Z * Z * list Z) :=
  if packet_byte_count >? 0 then
    match n with
    | O => halt Spinning
    | S n' =>
      rp <- usb_recv ;;
      let '(r, packet) := rp in
      if r <? 0 then
        eprintf "Error reading data: %d\n" [Int r] ;;
        ret (Some r, addr, count, buf)
      else
        let b := u8 (byte_count packet) in
        if (b >? DATA_SIZE) || (b >? count) then halt Undefined
        else
          cx_read_mem_recv n' (u8 (packet_byte_count - b)) (u32 (addr + b))
            (count - b) (buf ++ firstn (Z.to_nat b) (data packet))
    end
  else ret (None, addr, count, buf).

Fixpoint cx_read_mem_loop (n : nat) (addr count : Z) (buf : list Z)
    (access : Z) : M (Z * list Z) :=
  if count >? 0 then
    match n with
    | O => halt Spinning
    | S n' =>
      let bc := if count >? DATA_SIZE then DATA_SIZE else count in
      let packet := mkPacket FW_READ_MEM bc access 1 addr (payload [] 0) in
      r <- usb_send packet ;;
      if r <? 0 then
        eprintf "Error sending USB request: %d\n" [Int r] ;;
        ret (r, buf)
      else
        st <- cx_read_mem_recv fuel bc addr count buf ;;
        let '(err, addr', count', buf') := st in
        match err with
        | Some e => ret (e, buf')
        | None =>
          (* print dot each 1 KB *)
          when ((count' >=? 1024) && (count' mod 1024 =? 0)) (printf "." []) ;;
          cx_read_mem_loop n' addr' count' buf' access
        end
    end
  else ret (0, buf).

(** [cx_read_mem (dev, addr, count, buf, access_type)]: the return code and
    the bytes stored to [buf], in order. *)
Definition cx_read_mem (addr count access : Z) : M (Z * list Z) :=
  cx_read_mem_loop fuel addr count [] access.

(** The loop of [cx_write_mem].  Each round sends at least one byte, so
    [count] rounds are enough: the bound is never reached (see
    [cx_write_mem_loop_total]).  [buf] holds the bytes the pointer of the
    C code points to; where it holds fewer than the chunk, memcpy reads
    beyond it. *)
Fixpoint cx_write_mem_loop (n : nat) (addr count : Z) (buf : list Z)
    (access : Z) : M Z :=
  if count >? 0 then
    match n with
    | O => halt Spinning
    | S n' =>
      let bc := if count >? DATA_SIZE then DATA_SIZE else count in
      if Z.of_nat (length buf) <? bc then halt Undefined
      else
        let packet := mkPacket FW_WRITE_MEM bc access 0 addr (payload buf bc) in
        r <- usb_send packet ;;
        if r <? 0 then
          eprintf "Error sending USB request: %d\n" [Int r] ;;
          ret r
        else
          cx_write_mem_loop n' (u32 (addr + bc)) (count - bc)
            (skipn (Z.to_nat bc) buf) access
    end
  else ret 0.

Definition cx_write_mem (addr count : Z) (buf : list Z) (access : Z) : M Z :=
  cx_write_mem_loop (Z.to_nat count) addr count buf access.

(** ** Flash access *)

Definition FLASH_CMD_ID : Z := 0x90.   (* Read Identifier *)
Definition FLASH_CMD_CFI : Z := 0x98.  (* CFI Query *)

Section Flash.

(** The global [flash_base], set once by [main] before any flash access. *)
Variable flash_base : Z.

(** [data] is an uninitialised local; [cx_read_mem] stores the bytes it
    receives over it, and its return code is not looked at. *)
Definition cx_flash_read (addr : Z) : M Z :=
  rb <- cx_read_mem (u32 (flash_base + addr)) 2 MA_WORD ;;
  let lo := nth 0 (snd rb) (u8 junk) in
  let hi := nth 1 (snd rb) (u8 (Z.shiftr (u16 junk) 8)) in
  let data := u16_of_bytes lo hi in
  emit (Got16 addr data) ;;
  ret data.

Definition cx_flash_write (addr data : Z) : M unit :=
  cx_write_mem (u32 (flash_base + addr)) 2 (bytes_of_u16 data) MA_WORD ;;
  ret tt.

(** Flash access is strictly 16-bit and the flash address lines are
    shifted by one, so all addresses are shifted left by 1. *)
Definition cx_flash_cmd (cmd : Z) : M unit :=
  cx_flash_write 0xaaa 0xaa ;;  (* 0x555 *)
  cx_flash_write 0x554 0x55 ;;  (* 0x2aa *)
  cx_flash_write 0xaaa cmd.     (* 0x555 *)

(** [status & mask] as a C condition. *)
Definition flag (status mask : Z) : bool := negb (Z.land status mask =? 0).

(** *** Intel flash *)

Definition INTEL_CMD_READ : Z := 0xff.          (* Read Array *)
Definition INTEL_CMD_READSTATUS : Z := 0x70.    (* Read Status Register *)
Definition INTEL_CMD_CLEARSTATUS : Z := 0x50.   (* Clear Status Register *)
Definition INTEL_CMD_PROGRAM : Z := 0x40.       (* Program *)
Definition INTEL_CMD_ERASE : Z := 0x20.         (* Block Erase *)
Definition INTEL_CMD_ERASECONFIRM : Z := 0xd0.  (* Block Erase Confirm *)
Definition INTEL_CMD_LOCKMODE : Z := 0x60.      (* Lock mode *)
Definition INTEL_CMD_LOCK : Z := 0x01.          (* Lock Block *)
Definition INTEL_CMD_UNLOCK : Z := 0xd0.        (* Unlock Block *)

Definition INTEL_ST_READY : Z := Z.shiftl 1 7.
Definition INTEL_ST_ERASESUSPEND : Z := Z.shiftl 1 6.
Definition INTEL_ST_ERASEERROR : Z := Z.shiftl 1 5.
Definition INTEL_ST_PROGRAMERROR : Z := Z.shiftl 1 4.
Definition INTEL_ST_VPPERROR : Z := Z.shiftl 1 3.
Definition INTEL_ST_PROGRAMSUSPEND : Z := Z.shiftl 1 2.
Definition INTEL_ST_LOCKED : Z := Z.shiftl 1 1.

Definition INTEL_ST_ERROR_MASK : Z := 0x5a.  (* erase, program, vpp, lock status *)

Definition intel_decode_status (status : Z) : M unit :=
  printf "Status decode: " [] ;;
  when (flag status INTEL_ST_READY) (printf "READY " []) ;;
  when (flag status INTEL_ST_ERASESUSPEND) (printf "ERASE_SUSPEND " []) ;;
  when (flag status INTEL_ST_ERASEERROR) (printf "ERASE_ERROR " []) ;;
  when (flag status INTEL_ST_PROGRAMERROR) (printf "PROGRAM_ERROR " []) ;;
  when (flag status INTEL_ST_VPPERROR) (printf "VPP_ERROR " []) ;;
  when (flag status INTEL_ST_PROGRAMSUSPEND) (printf "PROGRAM_SUSPEND " []) ;;
  when (flag status INTEL_ST_LOCKED) (printf "LOCKED " []) ;;
  printf "\n" [].

(** The do-while loop of [intel_erase_block]; [i] counts the rounds for
    the progress dots. *)
Fixpoint intel_erase_poll (n : nat) (i : Z) : M Z :=
  match n with
  | O => halt Spinning
  | S n' =>
    status <- cx_flash_read 0 ;;
    when (i mod 4 =? 0) (printf "." []) ;;
    if flag status INTEL_ST_READY then ret status
    else intel_erase_poll n' (u32 (i + 1))
  end.

Definition intel_erase_block (addr : Z) : M bool :=
  printf "Erasing block     0x%06x: " [Int addr] ;;
  cx_flash_write 0 INTEL_CMD_CLEARSTATUS ;;
  cx_flash_write 0 INTEL_CMD_READSTATUS ;;
  cx_flash_write addr INTEL_CMD_ERASE ;;
  cx_flash_write addr INTEL_CMD_ERASECONFIRM ;;
  status <- intel_erase_poll fuel 0 ;;
  cx_flash_write 0 INTEL_CMD_READ ;;
  if flag status INTEL_ST_ERROR_MASK then
    printf "Error!\n" [] ;;
    intel_decode_status status ;;
    ret false
  else
    printf "\n" [] ;;
    ret true.

(** Merge PROGRAM command and data into one write. *)
Definition intel_optimized_program_word (addr data : Z) : M unit :=
  cx_write_mem (u32 (flash_base + addr - 2)) 4
    (bytes_of_u16 INTEL_CMD_PROGRAM ++ bytes_of_u16 data) MA_WORD ;;
  ret tt.

(** The do-while loop of the slow mode of [intel_program_block]. *)
Fixpoint intel_program_poll (n : nat) : M Z :=
  match n with
  | O => halt Spinning
  | S n' =>
    status <- cx_flash_read 0 ;;
    if flag status INTEL_ST_READY then ret status
    else intel_program_poll n'
  end.

(** The for loop of [intel_program_block], [n] rounds from index [i] on.
    [data] holds the 16-bit words the pointer of the C code points to; the
    result is [false] when the loop was left through [return false]. *)
Fixpoint intel_program_words (n : nat) (i addr : Z) (data : list Z)
    (slow : bool) : M bool :=
  match n with
  | O => ret true
  | S n' =>
    match nth_error data (Z.to_nat i) with
    | None => halt Undefined
    | Some w =>
      (* don't program FFFF words *)
      if w =? 0xffff then intel_program_words n' (i + 1) addr data slow
      else
        when (i mod 512 =? 0) (printf "." []) ;;  (* each 1 KB *)
        (if i =? 0 then
           (* first word can't be optimized *)
           cx_flash_write addr INTEL_CMD_PROGRAM ;;
           cx_flash_write (u32 (addr + i * 2)) w
         else intel_optimized_program_word (u32 (addr + i * 2)) w) ;;
        if slow then
          status <- intel_program_poll fuel ;;
          if flag status INTEL_ST_ERROR_MASK then
            printf "Error!\n" [] ;;
            intel_decode_status status ;;
            cx_flash_write 0 INTEL_CMD_READ ;;
            ret false
          else intel_program_words n' (i + 1) addr data slow
        else intel_program_words n' (i + 1) addr data slow
    end
  end.

Definition intel_program_block (addr : Z) (data : list Z) (size : Z)
    (slow : bool) : M bool :=
  printf "Programming block 0x%06x: " [Int addr] ;;
  cx_flash_write 0 INTEL_CMD_CLEARSTATUS ;;
  cx_flash_write 0 INTEL_CMD_READSTATUS ;;
  (* Program each 16-byte word *)
  done <- intel_program_words (Z.to_nat (size / 2)) 0 addr data slow ;;
  if done then
    cx_flash_write 0 INTEL_CMD_READ ;;
    printf "\n" [] ;;
    ret true
  else ret false.

Definition intel_set_block_lock (addr : Z) (lock : bool) : M unit :=
  cx_flash_write addr INTEL_CMD_LOCKMODE ;;
  cx_flash_write addr (if lock then INTEL_CMD_LOCK else INTEL_CMD_UNLOCK).

(** *** AMD flash *)

Definition AMD_CMD_RESET : Z := 0xf0.          (* Reset *)
Definition AMD_CMD_PROGRAM : Z := 0xa0.        (* Program *)
Definition AMD_CMD_ERASE_PREPARE : Z := 0x80.  (* Chip/Sector Erase Prepare *)
Definition AMD_CMD_ERASE_SECTOR : Z := 0x30.   (* Sector Erase Confirm *)
Definition AMD_CMD_UNLOCK_BYPASS : Z := 0x20.  (* Unlock Bypass *)
Definition AMD_CMD_BYPASS_RESET1 : Z := 0x90.  (* Unlock Bypass Reset (1st) *)
Definition AMD_CMD_BYPASS_RESET2 : Z := 0x00.  (* Unlock Bypass Reset (2nd) *)

Definition AMD_ST_DATAPOLL : Z := Z.shiftl 1 7.  (* DATA polling *)
Definition AMD_ST_TIMEOUT : Z := Z.shiftl 1 5.   (* Exceeded Timing Limits *)

(** The DATA polling loop of [amd_erase_block]; the result is [false]
    when it was left through [return false]. *)
Fixpoint amd_erase_poll (n : nat) (i addr : Z) : M bool :=
  match n with
  | O => halt Spinning
  | S n' =>
    status <- cx_flash_read addr ;;
    if negb (flag status AMD_ST_DATAPOLL) && flag status AMD_ST_TIMEOUT then
      printf "Error: TIMEOUT!\n" [] ;;
      cx_flash_write 0 AMD_CMD_RESET ;;
      ret false
    else
      when (i mod 4 =? 0) (printf "." []) ;;
      if flag status AMD_ST_DATAPOLL then ret true
      else amd_erase_poll n' (u32 (i + 1)) addr
  end.

Definition amd_erase_block (addr : Z) : M bool :=
  printf "Erasing block     0x%06x: " [Int addr] ;;
  cx_flash_cmd AMD_CMD_ERASE_PREPARE ;;
  cx_flash_write 0xaaa 0xaa ;;  (* 0x555 *)
  cx_flash_write 0x554 0x55 ;;  (* 0x2aa *)
  cx_flash_write addr AMD_CMD_ERASE_SECTOR ;;
  (* DATA polling *)
  done <- amd_erase_poll fuel 0 addr ;;
  if done then
    printf "\n" [] ;;
    ret true
  else ret false.

(** Merge PROGRAM command and data into one write. *)
Definition amd_optimized_program_word (addr data : Z) : M unit :=
  cx_write_mem (u32 (flash_base + addr - 2)) 4
    (bytes_of_u16 AMD_CMD_PROGRAM ++ bytes_of_u16 data) MA_WORD ;;
  ret tt.

(** The DATA polling loop of the slow mode of [amd_program_block] for the
    word [w] written at [addr]; [false] stands for [return false]. *)
Fixpoint amd_program_poll (n : nat) (addr w : Z) : M bool :=
  match n with
  | O => halt Spinning
  | S n' =>
    status <- cx_flash_read addr ;;
    if negb (status =? w) && flag status AMD_ST_TIMEOUT then
      printf "Error: TIMEOUT!\n" [] ;;
      cx_flash_write 0 AMD_CMD_BYPASS_RESET1 ;;
      cx_flash_write 0 AMD_CMD_BYPASS_RESET2 ;;
      cx_flash_write 0 AMD_CMD_RESET ;;
      ret false
    else if negb (status =? w) then amd_program_poll n' addr w
    else ret true
  end.

(** The for loop of [amd_program_block], as [intel_program_words]. *)
Fixpoint amd_program_words (n : nat) (i addr : Z) (data : list Z)
    (slow : bool) : M bool :=
  match n with
  | O => ret true
  | S n' =>
    match nth_error data (Z.to_nat i) with
    | None => halt Undefined
    | Some w =>
      (* don't program FFFF words *)
      if w =? 0xffff then amd_program_words n' (i + 1) addr data slow
      else
        when (i mod 512 =? 0) (printf "." []) ;;  (* each 1 KB *)
        (if i =? 0 then
           (* first word can't be optimized *)
           cx_flash_write addr AMD_CMD_PROGRAM ;;
           cx_flash_write (u32 (addr + i * 2)) w
         else amd_optimized_program_word (u32 (addr + i * 2)) w) ;;
        if slow then
          (* DATA polling *)
          settled <- amd_program_poll fuel (u32 (addr + i * 2)) w ;;
          if settled then amd_program_words n' (i + 1) addr data slow
          else ret false
        else amd_program_words n' (i + 1) addr data slow
    end
  end.

Definition amd_program_block (addr : Z) (data : list Z) (size : Z)
    (slow : bool) : M bool :=
  printf "Programming block 0x%06x: " [Int addr] ;;
  cx_flash_cmd AMD_CMD_UNLOCK_BYPASS ;;
  (* Program each 16-byte word *)
  done <- amd_program_words (Z.to_nat (size / 2)) 0 addr data slow ;;
  if done then
    cx_flash_write 0 AMD_CMD_BYPASS_RESET1 ;;
    cx_flash_write 0 AMD_CMD_BYPASS_RESET2 ;;
    printf "\n" [] ;;
    ret true
  else ret false.

(** *** Flash parameters *)

Record block_desc : Type := mkBlocks {
  count : Z;
  size : Z
}.

(* struct flash_chip; [set_block_lock] may be a null pointer *)
Record flash_chip : Type := mkChip {
  mfg : Z;
  dev : Z;
  name : string;
  chip_size : Z;
  blocks : list block_desc;
  set_block_lock : option (Z -> bool -> M unit);
  erase_block : Z -> M bool;
  program_block : Z -> list Z -> Z -> bool -> M bool
}.

(** The two entries of [supported_chips]; the rest of each [blocks]
    array is zero. *)
Definition intel_28f320c3b : flash_chip :=
  mkChip 0x0089 0x88c5 "Intel 28F320C3B" (4 * 1024 * 1024)
    [ mkBlocks 8 8192; mkBlocks 63 65536; mkBlocks 0 0 (* end marker *) ]
    (Some intel_set_block_lock) intel_erase_block intel_program_block.

Definition mxic_mx29lv160b : flash_chip :=
  mkChip 0x00c2 0x2249 "MXIC MX29LV160B" (2 * 1024 * 1024)
    [ mkBlocks 1 16384; mkBlocks 2 8192; mkBlocks 1 32768;
      mkBlocks 31 65536; mkBlocks 0 0 (* end marker *) ]
    None amd_erase_block amd_program_block.

(** [supported_chips] before its end marker. *)
Definition supported_chips : list flash_chip :=
  [ intel_28f320c3b; mxic_mx29lv160b ].

(** The search loop of [flash_identify]: it stops at the first entry with
    [mfg] zero (the end marker follows the entries of the list). *)
Fixpoint find_chip (chips : list flash_chip) (flash_mfg flash_dev : Z)
    : option flash_chip :=
  match chips with
  | [] => None
  | c :: rest =>
    if mfg c =? 0 then None
    else if (mfg c =? flash_mfg) && (dev c =? flash_dev) then Some c
    else find_chip rest flash_mfg flash_dev
  end.

Definition flash_identify : M (option flash_chip) :=
  (* Send READ IDENTIFIER command *)
  cx_flash_cmd FLASH_CMD_ID ;;
  (* Read IDs *)
  flash_mfg <- cx_flash_read 0 ;;
  flash_dev <- cx_flash_read 2 ;;
  (* Send READ ARRAY command (exit identifier mode) *)
  cx_flash_write 0 INTEL_CMD_READ ;;
  cx_flash_write 0 AMD_CMD_RESET ;;
  printf "Flash ID: Mfg ID=0x%04x, Device ID=0x%04x: "
    [Int flash_mfg; Int flash_dev] ;;
  ret (find_chip supported_chips flash_mfg flash_dev).

(** *** The write pass and the read pass of [main] *)

(** The [u16] words a pointer to byte [addr] of [buf] points to. *)
Fixpoint words_of_bytes (bytes : list Z) : list Z :=
  match bytes with
  | lo :: hi :: rest => u16_of_bytes lo hi :: words_of_bytes rest
  | _ => []
  end.

Definition words_at (buf : list Z) (addr : Z) : list Z :=
  words_of_bytes (skipn (Z.to_nat addr) buf).

Definition lock_block (flash : flash_chip) (addr : Z) (lock : bool) : M unit :=
  match set_block_lock flash with
  | Some f => f addr lock
  | None => ret tt
  end.

(** The body of the inner for loop: one block at [addr]. *)
Definition write_block (flash : flash_chip) (buf : list Z) (slow : bool)
    (addr size : Z) : M unit :=
  lock_block flash addr false ;;
  erase_block flash addr ;;
  program_block flash addr (words_at buf addr) size slow ;;
  lock_block flash addr true.

(** The inner for loop: [j] blocks of one size; the result is [addr]. *)
Fixpoint write_run (j : nat) (flash : flash_chip) (buf : list Z)
    (slow : bool) (addr size : Z) : M Z :=
  match j with
  | O => ret addr
  | S j' =>
    write_block flash buf slow addr size ;;
    write_run j' flash buf slow (u32 (addr + size)) size
  end.

(** The outer for loop over [flash_blocks], up to the first zero count. *)
Fixpoint write_blocks (flash_blocks : list block_desc) (flash : flash_chip)
    (buf : list Z) (slow : bool) (addr : Z) : M unit :=
  match flash_blocks with
  | [] => ret tt
  | b :: rest =>
    if count b >? 0 then
      addr' <- write_run (Z.to_nat (count b)) flash buf slow addr (size b) ;;
      write_blocks rest flash buf slow addr'
    else ret tt
  end.

End Flash.

(** ** main *)

Definition usage : M unit :=
  printf "Usage: cx861xx_flash read|write|writeslow FILE\n" [] ;;
  printf " read      = read from flash into FILE\n" [] ;;
  printf " write     = write from FILE to flash\n" [] ;;
  printf " writeslow = write from FILE to flash, check status after each word\n" [].

(** What [main] gets from the C library: whether malloc, fopen and fwrite
    succeed, and the bytes fread can deliver from FILE. *)
Record host : Type := mkHost {
  malloc_ok : bool;
  fopen_ok : bool;
  file : list Z;
  fwrite_ok : bool
}.

(** [main] from the point where the device is open and claimed and
    [argc] has been checked: [cx861xx] tells which product was found,
    [argv1] is the command.  The result is the exit status. *)
Definition main (cx861xx : bool) (argv1 : string) (h : host) : M Z :=
  let flash_base := if cx861xx then 0x04000000 else 0x0400000 in
  when cx861xx  (* Enable FLASH access *)
    (cx_write_mem CX861XX_FLASH_ENABLE 1 [1] MA_BYTE ;; ret tt) ;;
  (* Send READ ARRAY command to reset flash *)
  cx_flash_write flash_base 0 INTEL_CMD_READ ;;
  cx_flash_write flash_base 0 AMD_CMD_RESET ;;
  found <- flash_identify flash_base ;;
  match found with
  | None =>
    printf "Unsupported flash type\n" [] ;;
    ret 6
  | Some flash =>
    printf "%s\n" [Str (name flash)] ;;
    if negb (malloc_ok h) then
      eprintf "Memory allocation error, %d bytes required.\n"
        [Int (chip_size flash)] ;;
      ret 4
    else if String.eqb argv1 "write" || String.eqb argv1 "writeslow" then
      let slow := String.eqb argv1 "writeslow" in
      if negb (fopen_ok h) then
        eprintf "Error opening file" [] ;;  (* perror *)
        ret 5
      else
        let buf := firstn (Z.to_nat (chip_size flash)) (file h) in
        let len := Z.of_nat (List.length buf) in
        if len <? chip_size flash then
          eprintf "Error reading file, must be %d bytes long\n"
            [Int (chip_size flash)] ;;
          ret 5
        else
          write_blocks (blocks flash) flash buf slow 0 ;;
          ret 0
    else if String.eqb argv1 "read" then
      if negb (fopen_ok h) then
        eprintf "Error opening file" [] ;;  (* perror *)
        ret 5
      else
        printf "Reading flash: " [] ;;
        rb <- cx_read_mem flash_base (chip_size flash) MA_WORD ;;
        printf "done\n" [] ;;
        emit (Fwrite (snd rb) (chip_size flash)) ;;
        if negb (fwrite_ok h) then
          eprintf "Error writing file\n" [] ;;
          ret 5
        else ret 0
    else
      usage ;;
      ret 3
  end.

(** What [main] finds when it starts: whether a device with the product
    ID of the CX861xx or of the CX82xxx boot loader is there, where it is,
    and the result of libusb_claim_interface. *)
Record probe : Type := mkProbe {
  cx861xx_dev : bool;
  cx82xxx_dev : bool;
  bus : Z;
  dev_address : Z;
  claim : Z
}.

Definition VERSION : string := "1.1".

Definition LIBUSB_ERROR_NO_DEVICE : Z := -4.
Definition LIBUSB_ERROR_NOT_FOUND : Z := -5.
Definition LIBUSB_ERROR_BUSY : Z := -6.

(** The switch on the result of libusb_claim_interface. *)
Definition claim_error (err : Z) : M unit :=
  eprintf "Unable to claim interface: " [] ;;
  if err =? LIBUSB_ERROR_NOT_FOUND then eprintf "not found\n" []
  else if err =? LIBUSB_ERROR_BUSY then eprintf "busy\n" []
  else if err =? LIBUSB_ERROR_NO_DEVICE then eprintf "no device\n" []
  else eprintf "%d\n" [Int err].

(** [main] from its first line: the device is opened and claimed and
    [argc] is checked, then [main] above goes on. *)
Definition main_start (pr : probe) (argc : Z) (argv1 : string) (h : host)
    : M Z :=
  printf "cx861xx_flash v%s - Conexant CX861xx and CX82xxx USB Boot Flash Utility\n"
    [Str VERSION] ;;
  printf "Copyright (c) 2015 Ondrej Zary - http://www.rainbow-software.org\n\n" [] ;;
  if negb (cx861xx_dev pr || cx82xxx_dev pr) then
    eprintf "No device detected. Make sure the board is properly connected and processor is in USB Boot mode.\n" [] ;;
    ret 1
  else
    let cx861xx := cx861xx_dev pr in
    printf "%s device found at bus %d, address %d\n\n"
      [Str (if cx861xx then "CX861xx" else "CX82xxx");
       Int (bus pr); Int (dev_address pr)] ;;
    if negb (claim pr =? 0) then
      claim_error (claim pr) ;;
      ret 2
    else if argc <? 3 then
      usage ;;
      ret 3
    else main cx861xx argv1 h.

(** ** Version 1.0

    The first version of the program knows the Intel part only.  Its
    [cx_read_mem], [cx_write_mem], [cx_flash_read] and [cx_flash_write] are
    the ones above, line for line.  The rest of it is embedded here from
    its own text. *)

(* Intel 28F320C3B definitions *)
Definition FLASH_SIZE : Z := 0x400000.

Definition FLASH_CMD_READ : Z := 0xff.          (* Read Array *)
Definition FLASH_CMD_READSTATUS : Z := 0x70.    (* Read Status Register *)
Definition FLASH_CMD_CLEARSTATUS : Z := 0x50.   (* Clear Status Register *)
Definition FLASH_CMD_PROGRAM : Z := 0x40.       (* Program *)
Definition FLASH_CMD_ERASE : Z := 0x20.         (* Block Erase *)
Definition FLASH_CMD_ERASECONFIRM : Z := 0xd0.  (* Block Erase Confirm *)
Definition FLASH_CMD_LOCKMODE : Z := 0x60.      (* Lock mode *)
Definition FLASH_CMD_LOCK : Z := 0x01.          (* Lock Block *)
Definition FLASH_CMD_UNLOCK : Z := 0xd0.        (* Unlock Block *)

Definition FLASH_ST_READY : Z := Z.shiftl 1 7.
Definition FLASH_ST_ERASESUSPEND : Z := Z.shiftl 1 6.
Definition FLASH_ST_ERASEERROR : Z := Z.shiftl 1 5.
Definition FLASH_ST_PROGRAMERROR : Z := Z.shiftl 1 4.
Definition FLASH_ST_VPPERROR : Z := Z.shiftl 1 3.
Definition FLASH_ST_PROGRAMSUSPEND : Z := Z.shiftl 1 2.
Definition FLASH_ST_LOCKED : Z := Z.shiftl 1 1.

Definition FLASH_ST_ERROR_MASK : Z := 0x5a.  (* erase, program, vpp, lock status *)

(* Intel 28F320C3B memory map *)
Definition flash_blocks : list block_desc :=
  [ mkBlocks 8 8192; mkBlocks 63 65536; mkBlocks 0 0 (* end marker *) ].

Section FlashV10.

Variable flash_base : Z.

Definition flash_decode_status (status : Z) : M unit :=
  printf "Status decode: " [] ;;
  when (flag status FLASH_ST_READY) (printf "READY " []) ;;
  when (flag status FLASH_ST_ERASESUSPEND) (printf "ERASE_SUSPEND " []) ;;
  when (flag status FLASH_ST_ERASEERROR) (printf "ERASE_ERROR " []) ;;
  when (flag status FLASH_ST_PROGRAMERROR) (printf "PROGRAM_ERROR " []) ;;
  when (flag status FLASH_ST_VPPERROR) (printf "VPP_ERROR " []) ;;
  when (flag status FLASH_ST_PROGRAMSUSPEND) (printf "PROGRAM_SUSPEND " []) ;;
  when (flag status FLASH_ST_LOCKED) (printf "LOCKED " []) ;;
  printf "\n" [].

(** The do-while loop of flash_erase_block; [i] counts the rounds for the
    progress dots. *)
Fixpoint flash_erase_poll (n : nat) (i : Z) : M Z :=
  match n with
  | O => halt Spinning
  | S n' =>
    status <- cx_flash_read flash_base 0 ;;
    when (i mod 4 =? 0) (printf "." []) ;;
    if flag status FLASH_ST_READY then ret status
    else flash_erase_poll n' (u32 (i + 1))
  end.

Definition flash_erase_block (addr : Z) : M bool :=
  printf "Erasing block     0x%06x: " [Int addr] ;;
  cx_flash_write flash_base 0 FLASH_CMD_CLEARSTATUS ;;
  cx_flash_write flash_base 0 FLASH_CMD_READSTATUS ;;
  cx_flash_write flash_base addr FLASH_CMD_ERASE ;;
  cx_flash_write flash_base addr FLASH_CMD_ERASECONFIRM ;;
  status <- flash_erase_poll fuel 0 ;;
  cx_flash_write flash_base 0 FLASH_CMD_READ ;;
  if flag status FLASH_ST_ERROR_MASK then
    printf "Error!\n" [] ;;
    flash_decode_status status ;;
    ret false
  else
    printf "\n" [] ;;
    ret true.

(** Merge PROGRAM command and data into one write. *)
Definition flash_optimized_program_word (addr data : Z) : M unit :=
  cx_write_mem (u32 (flash_base + addr - 2)) 4
    (bytes_of_u16 FLASH_CMD_PROGRAM ++ bytes_of_u16 data) MA_WORD ;;
  ret tt.

(** The do-while loop of the slow mode of flash_program_block. *)
Fixpoint flash_program_poll (n : nat) : M Z :=
  match n with
  | O => halt Spinning
  | S n' =>
    status <- cx_flash_read flash_base 0 ;;
    if flag status FLASH_ST_READY then ret status
    else flash_program_poll n'
  end.

(** The for loop of flash_program_block, [n] rounds from index [i] on; the
    result is [false] when the loop was left through [return false]. *)
Fixpoint flash_program_words (n : nat) (i addr : Z) (data : list Z)
    (slow : bool) : M bool :=
  match n with
  | O => ret true
  | S n' =>
    match nth_error data (Z.to_nat i) with
    | None => halt Undefined
    | Some w =>
      (* don't program FFFF words *)
      if w =? 0xffff then flash_program_words n' (i + 1) addr data slow
      else
        when (i mod 512 =? 0) (printf "." []) ;;  (* each 1 KB *)
        (if i =? 0 then
           (* first word can't be optimized *)
           cx_flash_write flash_base addr FLASH_CMD_PROGRAM ;;
           cx_flash_write flash_base (u32 (addr + i * 2)) w
         else flash_optimized_program_word (u32 (addr + i * 2)) w) ;;
        (* USB is so slow that we don't need to wait for programming to end *)
        if slow then
          (* But it might be useful so it's an option *)
          status <- flash_program_poll fuel ;;
          if flag status FLASH_ST_ERROR_MASK then
            printf "Error!\n" [] ;;
            flash_decode_status status ;;
            cx_flash_write flash_base 0 FLASH_CMD_READ ;;
            ret false
          else flash_program_words n' (i + 1) addr data slow
        else flash_program_words n' (i + 1) addr data slow
    end
  end.

Definition flash_program_block (addr : Z) (data : list Z) (size : Z)
    (slow : bool) : M bool :=
  printf "Programming block 0x%06x: " [Int addr] ;;
  cx_flash_write flash_base 0 FLASH_CMD_CLEARSTATUS ;;
  cx_flash_write flash_base 0 FLASH_CMD_READSTATUS ;;
  (* Program each 16-byte word *)
  done <- flash_program_words (Z.to_nat (size / 2)) 0 addr data slow ;;
  if done then
    cx_flash_write flash_base 0 FLASH_CMD_READ ;;
    printf "\n" [] ;;
    ret true
  else ret false.

Definition flash_set_block_lock (addr : Z) (lock : bool) : M unit :=
  cx_flash_write flash_base addr FLASH_CMD_LOCKMODE ;;
  cx_flash_write flash_base addr
    (if lock then FLASH_CMD_LOCK else FLASH_CMD_UNLOCK).

End FlashV10.

(** [flash_identify] of version 1.0; the result is [false] where the C
    code calls exit (6). *)
Definition v10_flash_identify (flash_base : Z) : M bool :=
  (* Send READ IDENTIFIER command *)
  cx_flash_write flash_base 0 FLASH_CMD_ID ;;
  (* Read IDs *)
  flash_mfg <- cx_flash_read flash_base 0 ;;
  flash_dev <- cx_flash_read flash_base 2 ;;
  (* Send READ ARRAY command (exit identifier mode) *)
  cx_flash_write flash_base 0 FLASH_CMD_READ ;;
  printf "Flash ID: Mfg ID=0x%04x, Device ID=0x%04x: "
    [Int flash_mfg; Int flash_dev] ;;
  if (flash_mfg =? 0x0089) && (flash_dev =? 0x88c5) then
    printf "Intel 28F320C3B\n" [] ;;
    ret true
  else
    printf "Unsupported flash type\n" [] ;;
    ret false.

(** The body of the inner for loop of version 1.0. *)
Definition v10_write_block (flash_base : Z) (buf : list Z) (slow : bool)
    (addr size : Z) : M unit :=
  flash_set_block_lock flash_base addr false ;;
  flash_erase_block flash_base addr ;;
  flash_program_block flash_base addr (words_at buf addr) size slow ;;
  flash_set_block_lock flash_base addr true.

Fixpoint v10_write_run (j : nat) (flash_base : Z) (buf : list Z)
    (slow : bool) (addr size : Z) : M Z :=
  match j with
  | O => ret addr
  | S j' =>
    v10_write_block flash_base buf slow addr size ;;
    v10_write_run j' flash_base buf slow (u32 (addr + size)) size
  end.

Fixpoint v10_write_blocks (bl : list block_desc) (flash_base : Z)
    (buf : list Z) (slow : bool) (addr : Z) : M unit :=
  match bl with
  | [] => ret tt
  | b :: rest =>
    if count b >? 0 then
      addr' <- v10_write_run (Z.to_nat (count b)) flash_base buf slow addr
                 (size b) ;;
      v10_write_blocks rest flash_base buf slow addr'
    else ret tt
  end.

(** [main] of version 1.0, from its first line. *)
Definition v10_main (pr : probe) (argc : Z) (argv1 : string) (h : host)
    : M Z :=
  printf "cx861xx_flash v%s - Conexant CX861xx USB Boot Flash Utility\n"
    [Str "1.0"] ;;
  printf "Copyright (c) 2012 Ondrej Zary - http://www.rainbow-software.org\n\n" [] ;;
  if negb (cx861xx_dev pr || cx82xxx_dev pr) then
    eprintf "No device detected. Make sure the board is properly connected and processor is in USB Boot mode.\n" [] ;;
    ret 1
  else
    let cx861xx := cx861xx_dev pr in
    let flash_base := if cx861xx then 0x04000000 else 0x0400000 in
    printf "%s device found at bus %d, address %d\n\n"
      [Str (if cx861xx then "CX861xx" else "CX82xxx");
       Int (bus pr); Int (dev_address pr)] ;;
    if negb (claim pr =? 0) then
      claim_error (claim pr) ;;
      ret 2
    else if argc <? 3 then
      usage ;;
      ret 3
    else if negb (malloc_ok h) then
      eprintf "Memory allocation error, %d bytes required.\n"
        [Int FLASH_SIZE] ;;
      ret 4
    else
      when cx861xx  (* Enable FLASH access *)
        (cx_write_mem CX861XX_FLASH_ENABLE 1 [1] MA_BYTE ;; ret tt) ;;
      (* Send READ ARRAY command to reset flash *)
      cx_flash_write flash_base 0 FLASH_CMD_READ ;;
      known <- v10_flash_identify flash_base ;;
      if negb known then ret 6
      else if String.eqb argv1 "write" || String.eqb argv1 "writeslow" then
        let slow := String.eqb argv1 "writeslow" in
        if negb (fopen_ok h) then
          eprintf "Error opening file" [] ;;  (* perror *)
          ret 5
        else
          let buf := firstn (Z.to_nat FLASH_SIZE) (file h) in
          let len := Z.of_nat (List.length buf) in
          if len <? FLASH_SIZE then
            eprintf "Error reading file, must be %d bytes long\n"
              [Int FLASH_SIZE] ;;
            ret 5
          else
            v10_write_blocks flash_blocks flash_base buf slow 0 ;;
            ret 0
      else if String.eqb argv1 "read" then
        if negb (fopen_ok h) then
          eprintf "Error opening file" [] ;;  (* perror *)
          ret 5
        else
          printf "Reading flash: " [] ;;
          rb <- cx_read_mem flash_base FLASH_SIZE MA_WORD ;;
          printf "done\n" [] ;;
          emit (Fwrite (snd rb) FLASH_SIZE) ;;
          if negb (fwrite_ok h) then
            eprintf "Error writing file\n" [] ;;
            ret 5
          else ret 0
      else
        usage ;;
        ret 3.

(** ** Packets of the flash layer, for the statements below *)

(** The packet of [cx_flash_write (dev, addr, w)]. *)
Definition write16 (flash_base addr w : Z) : cx_fw_packet :=
  mkPacket FW_WRITE_MEM 2 MA_WORD 0 (u32 (flash_base + addr))
    (payload (bytes_of_u16 w) 2).

(** One memory write of 4 bytes at [addr]: the words [w1] and [w2]. *)
Definition write32 (flash_base addr w1 w2 : Z) : cx_fw_packet :=
  mkPacket FW_WRITE_MEM 4 MA_WORD 0 (u32 (flash_base + addr))
    (payload (bytes_of_u16 w1 ++ bytes_of_u16 w2) 4).

(** What [cx_write_mem] prints when the transfer fails. *)
Definition send_error (r : Z) : list event :=
  if r <? 0 then [Stderr "Error sending USB request: %d\n" [Int r]] else [].

(** The log of a write of one packet. *)
Definition wr_log (p : cx_fw_packet) (r : Z) : list event :=
  BulkOut p r :: send_error r.

(** The names [intel_decode_status] prints for a status word: one for
    each flag that is set, from bit 7 down to bit 1. *)
Definition status_names (status : Z) : list string :=
  map snd
    (filter (fun bn => Z.testbit status (fst bn))
       [ (7, "READY "); (6, "ERASE_SUSPEND "); (5, "ERASE_ERROR ");
         (4, "PROGRAM_ERROR "); (3, "VPP_ERROR "); (2, "PROGRAM_SUSPEND ");
         (1, "LOCKED ") ])%string.

(** ** Programming a block, as the design states it *)

Inductive family : Type := Intel | AMD.

Definition program_cmd (fam : family) : Z :=
  match fam with
  | Intel => INTEL_CMD_PROGRAM
  | AMD => AMD_CMD_PROGRAM
  end.

(** The word at index [j] is to be programmed: it is not 0xFFFF. *)
Definition to_program (data : list Z) (j : nat) : bool :=
  match nth_error data j with
  | Some w => negb (w =? 0xffff)
  | None => false
  end.

(** The packets that program word [w] at index [j] of the block at
    [addr]: the first word by the command and the data as two writes, any
    other word by one merged write two bytes below the word. *)
Definition word_packets (flash_base pcmd addr : Z) (j : nat) (w : Z)
    : list cx_fw_packet :=
  match j with
  | O => [write16 flash_base addr pcmd; write16 flash_base addr w]
  | S _ => [write32 flash_base (addr + 2 * Z.of_nat j - 2) pcmd w]
  end.

(** The writes before the first word. *)
Definition opening (fam : family) (flash_base : Z) : list cx_fw_packet :=
  match fam with
  | Intel => [ write16 flash_base 0 INTEL_CMD_CLEARSTATUS;
               write16 flash_base 0 INTEL_CMD_READSTATUS ]
  | AMD => [ write16 flash_base 0xaaa 0xaa;
             write16 flash_base 0x554 0x55;
             write16 flash_base 0xaaa AMD_CMD_UNLOCK_BYPASS ]
  end.

(** The writes after the last word, by the result of the block. *)
Definition closing (fam : family) (flash_base : Z) (o : outcome bool)
    : list cx_fw_packet :=
  match fam, o with
  | Intel, Ret _ => [ write16 flash_base 0 INTEL_CMD_READ ]
  | AMD, Ret true => [ write16 flash_base 0 AMD_CMD_BYPASS_RESET1;
                       write16 flash_base 0 AMD_CMD_BYPASS_RESET2 ]
  | AMD, Ret false => [ write16 flash_base 0 AMD_CMD_BYPASS_RESET1;
                        write16 flash_base 0 AMD_CMD_BYPASS_RESET2;
                        write16 flash_base 0 AMD_CMD_RESET ]
  | _, Stop _ => []
  end.

(** [program_block] of the driver of a family. *)
Definition driver_program_block (fam : family) (flash_base : Z)
    : Z -> list Z -> Z -> bool -> M bool :=
  match fam with
  | Intel => intel_program_block flash_base
  | AMD => amd_program_block flash_base
  end.

(** The run [r] ended in the poll of the slow mode after word [w] at
    index [j], which had no result: the log of [r] ends with the log of
    the status loop of the Intel driver, or of the DATA polling of the AMD
    driver at the address of the word, from some state of the board on,
    that loop stopped for the reason [why], and [r] left the board where
    the loop left it. *)
Definition poll_halts (fam : family) (flash_base addr : Z) (j : nat) (w : Z)
    (r : run bool) (why : stop) : Prop :=
  exists (pre : list event) (d' : usb),
    match fam with
    | Intel =>
      let p := intel_program_poll flash_base fuel d' in
      out p = Stop why /\ trace r = pre ++ trace p /\ final r = final p
    | AMD =>
      let p := amd_program_poll flash_base fuel
                 (u32 (addr + Z.of_nat j * 2)) w d' in
      out p = Stop why /\ trace r = pre ++ trace p /\ final r = final p
    end.

(** Where the loop over the [n] words from index [i] on came to its end
    after going through [k] of them, by the outcome of its run [r]: a loop
    that returns true went through all; one that returns false ran in slow
    mode and stopped at a word it had just programmed; one without a
    result stopped where [data] ends, or in slow mode in the poll after a
    word it had just programmed. *)
Definition stopped_at (fam : family) (flash_base addr : Z) (data : list Z)
    (slow : bool) (i n k : nat) (r : run bool) : Prop :=
  match out r with
  | Ret true => k = n
  | Ret false =>
    slow = true /\ (0 < k)%nat /\ to_program data (i + k - 1) = true
  | Stop why =>
    ((k < n)%nat /\ nth_error data (i + k) = None /\ why = Undefined) \/
    (slow = true /\ (0 < k)%nat /\ to_program data (i + k - 1) = true /\
     poll_halts fam flash_base addr (i + k - 1) (nth (i + k - 1) data 0) r why)
  end.

(** ** The catalog and the start of [main], as the design states them *)

(** The bytes the block table of a chip covers: count times size, summed
    up to the end marker. *)
Fixpoint blocks_total (bl : list block_desc) : Z :=
  match bl with
  | [] => 0
  | b :: rest =>
    if count b >? 0 then count b * size b + blocks_total rest else 0
  end.

(** The memory writes of [main] up to and including the read-identifier
    command of [flash_identify]. *)
Definition startup (cx861xx : bool) : list op :=
  let flash_base := if cx861xx then 0x04000000 else 0x0400000 in
  (if cx861xx
   then [Wr (mkPacket FW_WRITE_MEM 1 MA_BYTE 0 CX861XX_FLASH_ENABLE
               (payload [1] 1))]
   else [])
  ++ [ Wr (write16 flash_base 0 INTEL_CMD_READ);
       Wr (write16 flash_base 0 AMD_CMD_RESET);
       Wr (write16 flash_base 0xaaa 0xaa);
       Wr (write16 flash_base 0x554 0x55);
       Wr (write16 flash_base 0xaaa FLASH_CMD_ID) ].

(** ** Transport errors, for the statements below *)

(** The return code of a transfer that failed. *)
Definition failed (e : event) : option Z :=
  match e with
  | BulkOut _ r | BulkIn r _ => if r <? 0 then Some r else None
  | _ => None
  end.

Definition transfer (e : event) : bool :=
  match e with
  | BulkOut _ _ | BulkIn _ _ => true
  | _ => false
  end.

(** A log and a return code that go together: either no transfer failed
    and the code, if there is one, is 0; or the transfer that failed is
    the last one, only the message on stderr follows it, and the code
    returned is its code. *)
Definition propagates (t : list event) (code : outcome Z) : Prop :=
  (Forall (fun e => failed e = None) t /\
   (code = Ret 0 \/ exists why, code = Stop why)) \/
  (exists t1 e c msg,
     t = t1 ++ [e; Stderr msg [Int c]] /\
     Forall (fun e => failed e = None) t1 /\
     failed e = Some c /\ code = Ret c).

Definition code_of {A} (o : outcome (Z * A)) : outcome Z :=
  match o with
  | Ret (c, _) => Ret c
  | Stop why => Stop why
  end.

(** ** Invariants of a computation, for the statements below *)

(** [m] only ever logs events that satisfy [Q], and a result it returns
    satisfies [R]. *)
Definition sat {A} (Q : event -> Prop) (R : A -> Prop) (m : M A) : Prop :=
  forall d,
    Forall Q (trace (m d)) /\ forall a, out (m d) = Ret a -> R a.

Definition any {A} (a : A) : Prop := True.

(** [m] stays within the objects of the C code on every board whose
    responses keep step: it never stops because a read or a write went
    outside one. *)
Definition safe {A} (m : M A) : Prop :=
  forall d due,
    track due (trace (m d)) <> None -> out (m d) <> Stop Undefined.

(** A packet as the boot loader expects it: a read or a write of 1 to 56
    bytes, 56 bytes of data, a 32-bit address, byte or word access, and the
    acknowledgment request set on reads only. *)
Definition wf_packet (p : cx_fw_packet) : Prop :=
  ((cmd p = FW_READ_MEM /\ ack_request p = 1) \/
   (cmd p = FW_WRITE_MEM /\ ack_request p = 0)) /\
  0 < byte_count p <= DATA_SIZE /\
  length (data p) = Z.to_nat DATA_SIZE /\
  0 <= address p < 4294967296 /\
  (access_type p = MA_BYTE \/ access_type p = MA_WORD).

(** Every packet of the event, if it sends one, is well formed. *)
Definition sends_wf (e : event) : Prop :=
  match e with
  | BulkOut p _ => wf_packet p
  | _ => True
  end.

(** The event sends no memory-write packet. *)
Definition no_write (e : event) : Prop :=
  match e with
  | BulkOut p _ => cmd p <> FW_WRITE_MEM
  | _ => True
  end.

(** The event is no transfer on the IN endpoint. *)
Definition no_in (e : event) : Prop :=
  match e with
  | BulkIn _ _ => False
  | _ => True
  end.

(** The bytes a packet addresses lie in the window from [lo] to [hi]. *)
Definition within (lo hi : Z) (p : cx_fw_packet) : Prop :=
  lo <= address p /\ address p + byte_count p <= hi.

(** The event sends no packet, or one for the window, or the write of the
    one byte of the flash enable register. *)
Definition targets (lo hi : Z) (e : event) : Prop :=
  match e with
  | BulkOut p _ =>
    within lo hi p \/
    (cmd p = FW_WRITE_MEM /\ address p = CX861XX_FLASH_ENABLE /\
     byte_count p = 1)
  | _ => True
  end.

(** ** The checks of the slow mode, for the statements below *)

(** A status read that lets [intel_program_block] go on: not ready yet,
    or ready with no bit of the error mask set. *)
Definition passed (o : op) : Prop :=
  match o with
  | Rd _ s => Z.testbit s 7 = true -> Z.land s INTEL_ST_ERROR_MASK = 0
  | Wr _ => True
  end.


(** ** The blocks of a chip, for the statements below *)

(** The sizes of the blocks of a table, in order, up to the end marker. *)
Fixpoint block_sizes (bl : list block_desc) : list Z :=
  match bl with
  | [] => []
  | b :: rest =>
    if count b >? 0
    then repeat (size b) (Z.to_nat (count b)) ++ block_sizes rest
    else []
  end.

(** Blocks of the given sizes laid out one after the other from [addr]:
    start address and size of each. *)
Fixpoint place (addr : Z) (sizes : list Z) : list (Z * Z) :=
  match sizes with
  | [] => []
  | s :: rest => (addr, s) :: place (u32 (addr + s)) rest
  end.

(** The address after blocks of the given sizes. *)
Definition place_end (addr : Z) (sizes : list Z) : Z :=
  fold_left (fun a s => u32 (a + s)) sizes addr.

(** Blocks that follow one another without a gap from [from] to [to]. *)
Fixpoint contiguous (l : list (Z * Z)) (from to : Z) : Prop :=
  match l with
  | [] => from = to
  | (a, s) :: rest => a = from /\ 0 < s /\ contiguous rest (from + s) to
  end.

(** The body of the loop of [main], once for each block of a list. *)
Fixpoint write_each (flash : flash_chip) (buf : list Z) (slow : bool)
    (l : list (Z * Z)) : M unit :=
  match l with
  | [] => ret tt
  | (a, s) :: rest =>
    write_block flash buf slow a s ;;
    write_each flash buf slow rest
  end.

(** The functions of a chip send well-formed packets only. *)
Definition chip_wf (c : flash_chip) : Prop :=
  (forall f addr lock,
     set_block_lock c = Some f -> sat sends_wf any (f addr lock)) /\
  (forall addr, sat sends_wf any (erase_block c addr)) /\
  (forall addr data size slow,
     sat sends_wf any (program_block c addr data size slow)).

(** ** The bytes that travel, for the statements below *)

(** The bytes a packet carries: the first [byte_count] of its data. *)
Definition carried (p : cx_fw_packet) : list Z :=
  firstn (Z.to_nat (byte_count p)) (data p).

(** The bytes of the responses that arrived, in order; the byte count of
    a response is read as the [u8] it is. *)
Fixpoint received (t : list event) : list Z :=
  match t with
  | [] => []
  | BulkIn r p :: t' =>
    if r <? 0 then received t'
    else firstn (Z.to_nat (u8 (byte_count p))) (data p) ++ received t'
  | _ :: t' => received t'
  end.

(** A response fills the whole packet: 56 bytes of data. *)
Definition full_data (e : event) : Prop :=
  match e with
  | BulkIn _ p => length (data p) = Z.to_nat DATA_SIZE
  | _ => True
  end.

(** ** The run of [main], for the statements below *)

(** The device was found and claimed and the command line has its two
    arguments: [main] goes on to talk to the board. *)
Definition ready (pr : probe) (argc : Z) : bool :=
  (cx861xx_dev pr || cx82xxx_dev pr) && (claim pr =? 0) && (3 <=? argc).

Definition writing (argv1 : string) : bool :=
  String.eqb argv1 "write" || String.eqb argv1 "writeslow".



(** The memory writes of [main] up to the end of [flash_identify]. *)
Definition identification (cx861xx : bool) : list cx_fw_packet :=
  let flash_base := if cx861xx then 0x04000000 else 0x0400000 in
  wr_of (startup cx861xx)
  ++ [ write16 flash_base 0 INTEL_CMD_READ;
       write16 flash_base 0 AMD_CMD_RESET ].


(** The memory writes of [main] of version 1.0 up to and including the
    read-identifier command. *)
Definition v10_startup (cx861xx : bool) : list op :=
  let flash_base := if cx861xx then 0x04000000 else 0x0400000 in
  (if cx861xx
   then [Wr (mkPacket FW_WRITE_MEM 1 MA_BYTE 0 CX861XX_FLASH_ENABLE
               (payload [1] 1))]
   else [])
  ++ [ Wr (write16 flash_base 0 INTEL_CMD_READ);
       Wr (write16 flash_base 0 FLASH_CMD_ID) ].

(** The dots of a read: one after each of the first [n] requests that
    leaves a positive multiple of 1024 bytes to read, when each request is
    answered in full. *)
Fixpoint dots_due (n : nat) (count : Z) : nat :=
  match n with
  | O => 0%nat
  | S n' =>
    if count >? 0 then
      let left := count - Z.min DATA_SIZE count in
      Nat.add
        (if (left >=? 1024) && (left mod 1024 =? 0) then 1%nat else 0%nat)
        (dots_due n' left)
    else 0%nat
  end.

(** * Properties *)

(** ** Machine integers *)

Lemma u32_add_u32 (a b c : Z) : u32 (a + (u32 b + c)) = u32 (a + (b + c)).
Proof.
  unfold u32. replace (a + (b mod 4294967296 + c))
    with ((a + c) + b mod 4294967296) by lia.
  rewrite Z.add_mod_idemp_r by lia. f_equal. lia.
Qed.

Lemma write16_u32 (flash_base x w : Z) :
  write16 flash_base (u32 x) w = write16 flash_base x w.
Proof.
  unfold write16. f_equal.
  replace (u32 x) with (u32 x + 0) by lia.
  rewrite u32_add_u32. f_equal; lia.
Qed.

Lemma write32_u32 (flash_base x w1 w2 : Z) :
  write32 flash_base (u32 x - 2) w1 w2 = write32 flash_base (x - 2) w1 w2.
Proof.
  unfold write32. f_equal.
  replace (u32 x - 2) with (u32 x + (-2)) by lia.
  rewrite u32_add_u32. f_equal; lia.
Qed.

Lemma u32_idem (x : Z) : u32 (u32 x) = u32 x.
Proof. unfold u32. apply Z.mod_mod. lia. Qed.

Lemma u8_small (x : Z) : 0 <= x < 256 -> u8 x = x.
Proof. intros H. unfold u8. now apply Z.mod_small. Qed.

(** ** Views and concatenation *)

Lemma sent_app (t1 t2 : list event) : sent (t1 ++ t2) = sent t1 ++ sent t2.
Proof.
  induction t1 as [|e t1 IH]; simpl; [reflexivity|].
  destruct e; simpl; now rewrite IH.
Qed.

Lemma ops_app (t1 t2 : list event) : ops (t1 ++ t2) = ops t1 ++ ops t2.
Proof.
  induction t1 as [|e t1 IH]; simpl; [reflexivity|].
  destruct e; simpl; try now rewrite IH.
  destruct (cmd p =? FW_WRITE_MEM); simpl; now rewrite IH.
Qed.

Lemma stdout_app (t1 t2 : list event) :
  stdout (t1 ++ t2) = stdout t1 ++ stdout t2.
Proof.
  induction t1 as [|e t1 IH]; simpl; [reflexivity|].
  destruct e; simpl; now rewrite IH.
Qed.

Lemma reads_app (t1 t2 : list event) : reads (t1 ++ t2) = reads t1 ++ reads t2.
Proof.
  induction t1 as [|e t1 IH]; simpl; [reflexivity|].
  destruct e; simpl; try now rewrite IH.
  destruct (cmd p =? FW_WRITE_MEM); simpl; now rewrite IH.
Qed.

Lemma writes_app (t1 t2 : list event) :
  writes (t1 ++ t2) = writes t1 ++ writes t2.
Proof. unfold writes, wr_of. now rewrite ops_app, flat_map_app. Qed.

(** ** The monad *)

Lemma after_nil A (r : run A) : after [] r = r.
Proof. now destruct r. Qed.

Lemma after_after A (t1 t2 : list event) (r : run A) :
  after t1 (after t2 r) = after (t1 ++ t2) r.
Proof. unfold after; simpl. now rewrite app_assoc. Qed.

Lemma bind_Ret A B (m : M A) (f : A -> M B) (d : usb) (a : A) :
  out (m d) = Ret a ->
  bind m f d = after (trace (m d)) (f a (final (m d))).
Proof. unfold bind, after. now intros ->. Qed.

Lemma bind_Stop A B (m : M A) (f : A -> M B) (d : usb) (why : stop) :
  out (m d) = Stop why ->
  bind m f d = mkRun (trace (m d)) (final (m d)) (Stop why).
Proof. unfold bind. now intros ->. Qed.

Lemma bind_ret A B (a : A) (f : A -> M B) (d : usb) : bind (ret a) f d = f a d.
Proof. unfold bind, ret; simpl. now destruct (f a d). Qed.


Lemma bind_printf B fmt args (f : unit -> M B) (d : usb) :
  bind (printf fmt args) f d = after [Stdout fmt args] (f tt d).
Proof. reflexivity. Qed.

Lemma bind_when_printf B (b : bool) fmt args (f : unit -> M B) (d : usb) :
  bind (when b (printf fmt args)) f d
  = after (if b then [Stdout fmt args] else []) (f tt d).
Proof. destruct b; simpl; [reflexivity|]. now rewrite bind_ret, after_nil. Qed.

Lemma bind_bind A B C (m : M A) (f : A -> M B) (g : B -> M C) (d : usb) :
  bind (bind m f) g d = bind m (fun a => bind (f a) g) d.
Proof.
  unfold bind; simpl.
  destruct (out (m d)); simpl; [|reflexivity].
  destruct (out (f a (final (m d)))); simpl; [|reflexivity].
  now rewrite app_assoc.
Qed.

Lemma bind_run A B (m : M A) (f : A -> M B) (d : usb) :
  bind m f d
  = match out (m d) with
    | Ret a => after (trace (m d)) (f a (final (m d)))
    | Stop why => mkRun (trace (m d)) (final (m d)) (Stop why)
    end.
Proof. unfold bind, after. now destruct (out (m d)). Qed.

(** ** Memory writes *)

Lemma usb_send_run (p : cx_fw_packet) (d : usb) :
  usb_send p d
  = mkRun [BulkOut p (fst (bulk_out p d))] (snd (bulk_out p d))
      (Ret (fst (bulk_out p d))).
Proof. unfold usb_send. now destruct (bulk_out p d). Qed.

Lemma usb_send_out (p : cx_fw_packet) (d : usb) :
  out (usb_send p d) = Ret (fst (bulk_out p d)).
Proof. now rewrite usb_send_run. Qed.

Lemma usb_recv_run (d : usb) :
  usb_recv d
  = mkRun [BulkIn (fst (fst (bulk_in d))) (snd (fst (bulk_in d)))]
      (snd (bulk_in d)) (Ret (fst (bulk_in d))).
Proof. unfold usb_recv. now destruct (bulk_in d) as [[r p] d']. Qed.

Lemma usb_recv_out (d : usb) : out (usb_recv d) = Ret (fst (bulk_in d)).
Proof. now rewrite usb_recv_run. Qed.

(** The loop of [cx_write_mem] never runs out of rounds. *)
Lemma cx_write_mem_loop_total (n : nat) :
  forall addr count buf access d,
    count <= Z.of_nat n ->
    out (cx_write_mem_loop n addr count buf access d) <> Stop Spinning.
Proof.
  induction n as [|n IH]; intros addr count buf access d Hn; simpl.
  - destruct (count >? 0) eqn:E; [lia|]. simpl. discriminate.
  - destruct (count >? 0) eqn:E; [|simpl; discriminate].
    set (bc := if count >? DATA_SIZE then DATA_SIZE else count).
    assert (Hbc : 0 < bc).
    { unfold bc, DATA_SIZE. destruct (count >? 56); lia. }
    destruct (Z.of_nat (length buf) <? bc); [simpl; discriminate|].
    rewrite (bind_Ret _ _ _ (usb_send_out _ d)).
    simpl. destruct (_ <? 0); simpl; [discriminate|].
    apply IH. lia.
Qed.

(** A write of at most 56 bytes is one packet. *)
Lemma cx_write_mem_single (addr count : Z) (buf : list Z) (access : Z) (d : usb) :
  0 < count <= DATA_SIZE ->
  count <= Z.of_nat (length buf) ->
  let p := mkPacket FW_WRITE_MEM count access 0 addr (payload buf count) in
  cx_write_mem addr count buf access d
  = mkRun (wr_log p (fst (bulk_out p d))) (snd (bulk_out p d))
      (Ret (if fst (bulk_out p d) <? 0 then fst (bulk_out p d) else 0)).
Proof.
  intros Hc Hb p. unfold cx_write_mem.
  destruct (Z.to_nat count) as [|n] eqn:En; [lia|].
  simpl.
  replace (count >? 0) with true by lia.
  replace (count >? DATA_SIZE) with false by lia.
  replace (Z.of_nat (length buf) <? count) with false by lia.
  fold p. rewrite (bind_Ret _ _ _ (usb_send_out p d)).
  rewrite usb_send_run; simpl.
  unfold wr_log, send_error, after. destruct (fst (bulk_out p d) <? 0) eqn:Er.
  - reflexivity.
  - replace (cx_write_mem_loop n (u32 (addr + count)) (count - count)
               (skipn (Z.to_nat count) buf) access (snd (bulk_out p d)))
      with (mkRun [] (snd (bulk_out p d)) (Ret 0)); [reflexivity|].
    destruct n; simpl; replace (count - count >? 0) with false by lia;
      reflexivity.
Qed.

(** ** Flash register writes *)

Lemma ops_wr_log (p : cx_fw_packet) (r : Z) :
  cmd p = FW_WRITE_MEM -> ops (wr_log p r) = [Wr p].
Proof.
  intros H. unfold wr_log, send_error. simpl. rewrite H. simpl.
  now destruct (r <? 0).
Qed.

Lemma stdout_wr_log (p : cx_fw_packet) (r : Z) : stdout (wr_log p r) = [].
Proof. unfold wr_log, send_error. simpl. now destruct (r <? 0). Qed.

Lemma reads_wr_log (p : cx_fw_packet) (r : Z) :
  cmd p = FW_WRITE_MEM -> reads (wr_log p r) = [].
Proof.
  intros H. unfold wr_log, send_error. simpl. rewrite H. simpl.
  now destruct (r <? 0).
Qed.

Lemma writes_wr_log (p : cx_fw_packet) (r : Z) :
  cmd p = FW_WRITE_MEM -> writes (wr_log p r) = [p].
Proof. intros H. unfold writes. now rewrite ops_wr_log. Qed.

Lemma cx_flash_write_run (flash_base addr w : Z) (d : usb) :
  let p := write16 flash_base addr w in
  cx_flash_write flash_base addr w d
  = mkRun (wr_log p (fst (bulk_out p d))) (snd (bulk_out p d)) (Ret tt).
Proof.
  intros p. unfold cx_flash_write.
  pose proof (cx_write_mem_single (u32 (flash_base + addr)) (bytes_of_u16 w)
                MA_WORD d (count := 2)) as H.
  cbv zeta in H. unfold p, write16.
  unfold bind. rewrite H by (unfold DATA_SIZE; simpl; lia). simpl.
  now rewrite app_nil_r.
Qed.

Lemma bind_flash_write B (flash_base addr w : Z) (f : unit -> M B) (d : usb) :
  let p := write16 flash_base addr w in
  bind (cx_flash_write flash_base addr w) f d
  = after (wr_log p (fst (bulk_out p d))) (f tt (snd (bulk_out p d))).
Proof.
  intros p. unfold bind. rewrite cx_flash_write_run. reflexivity.
Qed.

Lemma intel_optimized_program_word_run (flash_base addr w : Z) (d : usb) :
  let p := write32 flash_base (addr - 2) INTEL_CMD_PROGRAM w in
  intel_optimized_program_word flash_base addr w d
  = mkRun (wr_log p (fst (bulk_out p d))) (snd (bulk_out p d)) (Ret tt).
Proof.
  intros p. unfold intel_optimized_program_word.
  pose proof (cx_write_mem_single (u32 (flash_base + addr - 2))
                (bytes_of_u16 INTEL_CMD_PROGRAM ++ bytes_of_u16 w)
                MA_WORD d (count := 4)) as H.
  cbv zeta in H. unfold p, write32.
  replace (flash_base + (addr - 2)) with (flash_base + addr - 2) by lia.
  unfold bind. rewrite H by (unfold DATA_SIZE; simpl; lia). simpl.
  now rewrite app_nil_r.
Qed.

Lemma amd_optimized_program_word_run (flash_base addr w : Z) (d : usb) :
  let p := write32 flash_base (addr - 2) AMD_CMD_PROGRAM w in
  amd_optimized_program_word flash_base addr w d
  = mkRun (wr_log p (fst (bulk_out p d))) (snd (bulk_out p d)) (Ret tt).
Proof.
  intros p. unfold amd_optimized_program_word.
  pose proof (cx_write_mem_single (u32 (flash_base + addr - 2))
                (bytes_of_u16 AMD_CMD_PROGRAM ++ bytes_of_u16 w)
                MA_WORD d (count := 4)) as H.
  cbv zeta in H. unfold p, write32.
  replace (flash_base + (addr - 2)) with (flash_base + addr - 2) by lia.
  unfold bind. rewrite H by (unfold DATA_SIZE; simpl; lia). simpl.
  now rewrite app_nil_r.
Qed.

Lemma ops_prints (l : list string) : ops (map (fun f => Stdout f []) l) = [].
Proof. induction l; simpl; auto. Qed.

Lemma stdout_prints (l : list string) :
  stdout (map (fun f => Stdout f []) l) = l.
Proof. induction l; simpl; [reflexivity|]. now f_equal. Qed.

(** One register write in front: name its return code and the next state
    of the board. *)
Ltac wr_step :=
  cbv beta; rewrite ?bind_bind; rewrite bind_flash_write; cbv beta zeta;
  match goal with
  | |- context [bulk_out ?p ?d] =>
    destruct (bulk_out p d) as [? ?]; cbn [fst snd]
  end.

Lemma writes_Stdout fmt args (t : list event) :
  writes (Stdout fmt args :: t) = writes t.
Proof. reflexivity. Qed.

Lemma writes_dot (b : bool) fmt args :
  writes (if b then [Stdout fmt args] else []) = [].
Proof. now destruct b. Qed.

Lemma reads_dot (b : bool) fmt args :
  reads (if b then [Stdout fmt args] else []) = [].
Proof. now destruct b. Qed.

Lemma ops_dot (b : bool) fmt args :
  ops (if b then [Stdout fmt args] else []) = [].
Proof. now destruct b. Qed.

(** Push the views of a log through concatenation. *)
Ltac views :=
  cbn [after ret trace out final];
  repeat (rewrite ?ops_app, ?stdout_app, ?reads_app, ?writes_app;
          rewrite ?ops_wr_log, ?stdout_wr_log, ?reads_wr_log, ?writes_wr_log
            by reflexivity);
  rewrite ?writes_dot, ?reads_dot, ?ops_dot, ?writes_Stdout;
  cbn [ops stdout reads app].

(** ** Flash register reads *)

Lemma cx_read_mem_recv_views (n : nat) :
  forall pbc addr count buf d,
    let r := cx_read_mem_recv n pbc addr count buf d in
    ops (trace r) = [] /\ stdout (trace r) = [] /\
    (forall e a c b, out r = Ret (e, a, c, b) -> c <= count).
Proof.
  induction n as [|n IH]; intros pbc addr count buf d; cbv zeta; simpl.
  - destruct (pbc >? 0); simpl; repeat split; try discriminate.
    intros e a c b H; inversion H; lia.
  - destruct (pbc >? 0); simpl.
    2:{ repeat split. intros e a c b H; inversion H; lia. }
    rewrite (bind_Ret _ _ _ (usb_recv_out d)), usb_recv_run. simpl.
    destruct (fst (bulk_in d)) as [rr pk]. simpl.
    destruct (rr <? 0).
    { simpl. repeat split. intros e a c b H; inversion H; lia. }
    destruct ((u8 (byte_count pk) >? DATA_SIZE) || (u8 (byte_count pk) >? count)).
    { simpl. repeat split; discriminate. }
    destruct (IH (u8 (pbc - u8 (byte_count pk))) (u32 (addr + u8 (byte_count pk)))
                (count - u8 (byte_count pk))
                (buf ++ firstn (Z.to_nat (u8 (byte_count pk))) (data pk))
                (snd (bulk_in d))) as (H1 & H2 & H3).
    repeat split; try assumption.
    intros e a c b H. apply H3 in H.
    assert (0 <= u8 (byte_count pk)) by (unfold u8; apply Z.mod_pos_bound; lia).
    lia.
Qed.

Lemma cx_read_mem_loop_views (n : nat) :
  forall addr count buf access d,
    count < 1024 ->
    let r := cx_read_mem_loop n addr count buf access d in
    ops (trace r) = [] /\ stdout (trace r) = [].
Proof.
  induction n as [|n IH]; intros addr count buf access d Hc; cbv zeta; simpl.
  - destruct (count >? 0); simpl; split; reflexivity.
  - destruct (count >? 0); simpl; [|split; reflexivity].
    rewrite (bind_Ret _ _ _ (usb_send_out _ d)), usb_send_run. simpl.
    destruct (fst (bulk_out _ d) <? 0); [simpl; split; reflexivity|].
    match goal with |- context [bind (cx_read_mem_recv ?f ?a ?b ?c ?e) _ ?g] =>
      destruct (cx_read_mem_recv_views f a b c e g) as (H1 & H2 & H3);
      destruct (out (cx_read_mem_recv f a b c e g))
        as [[[[err addr'] count'] buf']|why] eqn:Eo
    end.
    2:{ rewrite (bind_Stop _ _ _ Eo). simpl. now split. }
    rewrite (bind_Ret _ _ _ Eo). simpl.
    rewrite ops_app, stdout_app, H1, H2. simpl.
    destruct err as [e|]; [simpl; split; reflexivity|].
    specialize (H3 _ _ _ _ eq_refl).
    replace (count' >=? 1024) with false by lia.
    rewrite bind_when_printf. simpl (false && _). rewrite after_nil.
    apply IH. lia.
Qed.

Lemma cx_flash_read_views (flash_base addr : Z) (d : usb) :
  let r := cx_flash_read flash_base addr d in
  stdout (trace r) = [] /\
  match out r with
  | Ret v => ops (trace r) = [Rd addr v]
  | Stop _ => ops (trace r) = []
  end.
Proof.
  cbv zeta. unfold cx_flash_read, cx_read_mem.
  destruct (cx_read_mem_loop_views fuel (u32 (flash_base + addr)) []
              MA_WORD d (count := 2)) as (H1 & H2); [lia|].
  destruct (out (cx_read_mem_loop fuel (u32 (flash_base + addr)) 2 [] MA_WORD d))
    as [rb|why] eqn:Eo.
  - rewrite (bind_Ret _ _ _ Eo). simpl.
    rewrite ops_app, stdout_app, H1, H2. simpl. now split.
  - rewrite (bind_Stop _ _ _ Eo). simpl. now split.
Qed.

(** ** Transport errors *)

Lemma propagates_cons (e0 : event) (t : list event) (code : outcome Z) :
  failed e0 = None -> propagates t code -> propagates (e0 :: t) code.
Proof.
  intros H0 [(Hok & Hc)|(t1 & e & c & msg & -> & Hok & He & Hc)].
  - left. split; [now constructor|assumption].
  - right. exists (e0 :: t1), e, c, msg. repeat split; auto.
Qed.

Lemma propagates_app (t0 t : list event) (code : outcome Z) :
  Forall (fun e => failed e = None) t0 ->
  propagates t code -> propagates (t0 ++ t) code.
Proof.
  induction 1 as [|e0 t0 H0 _ IH]; intros Hp; simpl; [assumption|].
  apply propagates_cons; auto.
Qed.

Lemma cx_write_mem_loop_propagates (n : nat) :
  forall addr count buf access d,
    let w := cx_write_mem_loop n addr count buf access d in
    propagates (trace w) (out w).
Proof.
  induction n as [|n IH]; intros addr count buf access d; cbv zeta; simpl.
  - destruct (count >? 0); simpl; left; split; eauto.
  - destruct (count >? 0); [|simpl; left; split; eauto].
    destruct (Z.of_nat (length buf) <? _); [simpl; left; split; eauto|].
    rewrite bind_run, usb_send_run. cbn [out trace final].
    match goal with |- context [fst (bulk_out ?p d)] =>
      destruct (bulk_out p d) as [r d']; cbn [fst snd]
    end.
    destruct (r <? 0) eqn:Er.
    + right. cbn [after bind eprintf emit ret trace out final app].
      eexists [], _, r, _. repeat split; eauto. simpl. now rewrite Er.
    + cbn [after trace out final app].
      apply propagates_cons; [simpl; now rewrite Er|]. apply IH.
Qed.

Lemma cx_read_mem_recv_propagates (n : nat) :
  forall pbc addr count buf d,
    let r := cx_read_mem_recv n pbc addr count buf d in
    match out r with
    | Ret (Some c, _, _, b) =>
      exists t1 e msg,
        trace r = t1 ++ [e; Stderr msg [Int c]] /\
        Forall (fun e => failed e = None) t1 /\ failed e = Some c
    | _ => Forall (fun e => failed e = None) (trace r)
    end.
Proof.
  induction n as [|n IH]; intros pbc addr count buf d; cbv zeta; simpl.
  - destruct (pbc >? 0); simpl; constructor.
  - destruct (pbc >? 0); [|simpl; constructor].
    rewrite bind_run, usb_recv_run. cbn [out trace final].
    destruct (bulk_in d) as [[r pk] d']; cbn [fst snd].
    destruct (r <? 0) eqn:Er.
    + cbn [after bind eprintf emit ret trace out final app].
      eexists [], _, _. repeat split; eauto. simpl. now rewrite Er.
    + destruct (_ || _); [simpl; repeat constructor; simpl; now rewrite Er|].
      specialize (IH (u8 (pbc - u8 (byte_count pk)))
                     (u32 (addr + u8 (byte_count pk)))
                     (count - u8 (byte_count pk))
                     (buf ++ firstn (Z.to_nat (u8 (byte_count pk))) (data pk)) d').
      cbv zeta in IH. cbn [after trace out final app].
      destruct (out (cx_read_mem_recv n _ _ _ _ d')) as [[[[[c|] a'] c'] b']|why].
      * destruct IH as (t1 & e & msg & -> & Hok & He).
        exists (BulkIn r pk :: t1), e, msg. repeat split; auto.
        constructor; [simpl; now rewrite Er|assumption].
      * constructor; [simpl; now rewrite Er|assumption].
      * constructor; [simpl; now rewrite Er|assumption].
Qed.

Lemma cx_read_mem_loop_propagates (n : nat) :
  forall addr count buf access d,
    let r := cx_read_mem_loop n addr count buf access d in
    propagates (trace r) (code_of (out r)).
Proof.
  induction n as [|n IH]; intros addr count buf access d; cbv zeta; simpl.
  - destruct (count >? 0); simpl; left; split; eauto.
  - destruct (count >? 0); [|simpl; left; split; eauto].
    rewrite bind_run, usb_send_run. cbn [out trace final].
    match goal with |- context [fst (bulk_out ?p d)] =>
      destruct (bulk_out p d) as [r d']; cbn [fst snd]
    end.
    destruct (r <? 0) eqn:Er.
    + right. cbn [after bind eprintf emit ret trace out final app code_of].
      eexists [], _, r, _. repeat split; eauto. simpl. now rewrite Er.
    + cbn [after trace out final app].
      apply propagates_cons; [simpl; now rewrite Er|].
      rewrite bind_run.
      match goal with |- context [cx_read_mem_recv ?f ?a ?b ?c ?e d'] =>
        pose proof (cx_read_mem_recv_propagates f a b c e d') as Hr;
        cbv zeta in Hr;
        destruct (cx_read_mem_recv f a b c e d')
          as [tr dr [[[[[c'|] a1] c1] b1]|why]]
      end; cbn [out trace final] in *.
      * destruct Hr as (t1 & e & msg & -> & Hok & He).
        right. cbn [after ret trace out final code_of]. rewrite app_nil_r.
        exists t1, e, c', msg. repeat split; auto.
      * rewrite bind_when_printf. rewrite after_after.
        cbn [after trace out final]. apply propagates_app; [|apply IH].
        apply Forall_app. split; [assumption|].
        destruct (_ && _); repeat constructor.
      * left. split; [assumption|]. right. now exists why.
Qed.

(** C2 (amended).  A transfer that fails ends [cx_write_mem] and
    [cx_read_mem] at once: it is the last transfer of the call, and its
    code is what the call returns.  The flash layer does not pass the code
    on: [cx_flash_write] has the result [tt] on every board, and
    [cx_flash_read] returns a 16-bit value whenever [cx_read_mem] returns,
    made of the bytes received and, where none came, of what the
    uninitialised local held. *)
Theorem transport_error_stops_at_memory_layer (flash_base addr count : Z)
    (buf : list Z) (access a w : Z) (d : usb) :
  propagates (trace (cx_write_mem addr count buf access d))
    (out (cx_write_mem addr count buf access d)) /\
  propagates (trace (cx_read_mem addr count access d))
    (code_of (out (cx_read_mem addr count access d))) /\
  out (cx_flash_write flash_base a w d) = Ret tt /\
  (forall c b,
     out (cx_read_mem (u32 (flash_base + a)) 2 MA_WORD d) = Ret (c, b) ->
     out (cx_flash_read flash_base a d)
     = Ret (u16_of_bytes (nth 0 b (u8 junk))
              (nth 1 b (u8 (Z.shiftr (u16 junk) 8))))).
Proof.
  split; [apply cx_write_mem_loop_propagates|].
  split; [apply cx_read_mem_loop_propagates|].
  split; [now rewrite cx_flash_write_run|].
  intros c b H. unfold cx_flash_read. rewrite (bind_Ret _ _ _ H).
  reflexivity.
Qed.

(** ** Chunks *)

Lemma tiling_step (addr count : Z) :
  0 < count ->
  tiling addr count
  = (u32 addr, Z.min DATA_SIZE count)
    :: tiling (u32 (addr + Z.min DATA_SIZE count))
         (count - Z.min DATA_SIZE count).
Proof.
  intros Hc. unfold tiling, chunks, DATA_SIZE.
  assert (H1 : 1 <= (count + (56 - 1)) / 56).
  { apply Z.div_le_lower_bound; lia. }
  destruct (Z.to_nat ((count + (56 - 1)) / 56)) as [|m] eqn:Em; [lia|].
  cbn [seq map]. f_equal.
  - unfold chunk, DATA_SIZE. f_equal; [f_equal; lia|f_equal; lia].
  - assert (Hm : Z.to_nat ((count - Z.min 56 count + (56 - 1)) / 56) = m).
    { destruct (Z.min_spec 56 count) as [[Hlt ->]|[Hle ->]].
      - replace (count - 56 + (56 - 1)) with (count + (56 - 1) + (-1) * 56)
          by lia.
        rewrite Z.div_add by lia. lia.
      - replace (count - count + (56 - 1)) with 55 by lia.
        assert ((count + (56 - 1)) / 56 < 2)
          by (apply Z.div_lt_upper_bound; lia).
        change (55 / 56) with 0. lia. }
    rewrite Hm. rewrite <- seq_shift, map_map. apply map_ext_in.
    intros j Hj. apply in_seq in Hj. unfold chunk, DATA_SIZE.
    destruct (Z.min_spec 56 count) as [[Hlt E]|[Hle E]]; rewrite E in *.
    + f_equal.
      * replace (u32 (addr + 56) + 56 * Z.of_nat j)
          with (0 + (u32 (addr + 56) + 56 * Z.of_nat j)) by lia.
        rewrite u32_add_u32. f_equal. lia.
      * f_equal. lia.
    + exfalso. assert ((count + (56 - 1)) / 56 < 2)
        by (apply Z.div_lt_upper_bound; lia). lia.
Qed.

Lemma tiling_nil (addr count : Z) : count <= 0 -> tiling addr count = [].
Proof.
  intros Hc. unfold tiling, chunks, DATA_SIZE.
  assert ((count + (56 - 1)) / 56 <= 0).
  { assert ((count + (56 - 1)) / 56 < 1)
      by (apply Z.div_lt_upper_bound; lia). lia. }
  now replace (Z.to_nat ((count + (56 - 1)) / 56)) with 0%nat by lia.
Qed.

Lemma tiling_sizes (n : nat) :
  forall addr count,
    0 <= count -> chunks count = n ->
    fold_right Z.add 0 (map snd (tiling addr count)) = count /\
    Forall (fun s => 0 < snd s <= DATA_SIZE) (tiling addr count).
Proof.
  induction n as [|n IH]; intros addr count Hc Hn.
  - assert (count = 0).
    { unfold chunks, DATA_SIZE in Hn.
      destruct (Z.eq_dec count 0) as [|Hne]; [assumption|].
      assert (1 <= (count + (56 - 1)) / 56)
        by (apply Z.div_le_lower_bound; lia). lia. }
    subst. rewrite tiling_nil by lia. split; [reflexivity|constructor].
  - assert (0 < count).
    { destruct (Z.eq_dec count 0) as [->|]; [discriminate Hn|lia]. }
    rewrite tiling_step by assumption. cbn [map fold_right snd].
    destruct (IH (u32 (addr + Z.min DATA_SIZE count))
                (count - Z.min DATA_SIZE count)) as (Hs & Hf).
    + unfold DATA_SIZE. lia.
    + pose proof (tiling_step addr H) as Ht.
      apply (f_equal (@length _)) in Ht. unfold tiling at 1 in Ht.
      rewrite length_map, length_seq, Hn in Ht. cbn [length] in Ht.
      unfold tiling in Ht. rewrite length_map, length_seq in Ht. lia.
    + rewrite Hs. split; [lia|]. constructor; [|assumption].
      cbn [snd]. unfold DATA_SIZE. lia.
Qed.

Lemma byte_count_min (count : Z) :
  (if count >? DATA_SIZE then DATA_SIZE else count) = Z.min DATA_SIZE count.
Proof. unfold DATA_SIZE. destruct (Z.gtb_spec count 56); lia. Qed.

Lemma firstn_prefix_cons A (x : A) (l full : list A) :
  (exists m, l = firstn m full) -> exists m, x :: l = firstn m (x :: full).
Proof. intros (m & ->). now exists (S m). Qed.

Lemma cx_write_mem_loop_chunks (n : nat) :
  forall addr count buf access d,
    u32 addr = addr ->
    let w := cx_write_mem_loop n addr count buf access d in
    Forall (fun p => cmd p = FW_WRITE_MEM /\ access_type p = access /\
                     ack_request p = 0 /\ 0 < byte_count p <= DATA_SIZE)
      (sent (trace w)) /\
    (exists m, map span (sent (trace w)) = firstn m (tiling addr count)) /\
    (out w = Ret 0 -> map span (sent (trace w)) = tiling addr count).
Proof.
  induction n as [|n IH]; intros addr count buf access d Ha; cbv zeta; simpl.
  - destruct (Z.gtb_spec count 0); simpl.
    + split; [constructor|]. split; [now exists 0%nat|discriminate].
    + split; [constructor|]. rewrite tiling_nil by lia.
      split; [now exists 0%nat|reflexivity].
  - destruct (Z.gtb_spec count 0) as [Hc|Hc]; simpl.
    2:{ split; [constructor|]. rewrite tiling_nil by lia.
        split; [now exists 0%nat|reflexivity]. }
    rewrite byte_count_min.
    destruct (Z.of_nat (length buf) <? _); simpl.
    { split; [constructor|]. split; [now exists 0%nat|discriminate]. }
    rewrite bind_run, usb_send_run. cbn [out trace final].
    match goal with |- context [fst (bulk_out ?p d)] =>
      destruct (bulk_out p d) as [r d']; cbn [fst snd]
    end.
    rewrite (tiling_step addr Hc), Ha.
    assert (Hbc : 0 < Z.min DATA_SIZE count <= DATA_SIZE)
      by (unfold DATA_SIZE; lia).
    destruct (Z.ltb_spec r 0) as [Hr|Hr].
    + cbn [after bind eprintf emit ret trace out final app sent map span
           address byte_count].
      split; [repeat constructor; cbn; lia|].
      split; [now exists 1%nat|]. intros H; inversion H; lia.
    + cbn [after trace out final app sent map span address byte_count].
      destruct (IH (u32 (addr + Z.min DATA_SIZE count))
                  (count - Z.min DATA_SIZE count)
                  (skipn (Z.to_nat (Z.min DATA_SIZE count)) buf) access d')
        as (H1 & H2 & H3); [apply u32_idem|].
      split; [constructor; [cbn; repeat split; lia|assumption]|].
      split; [now apply firstn_prefix_cons|].
      intros H. now rewrite H3.
Qed.

Lemma sent_recv (n : nat) :
  forall pbc addr count buf d,
    sent (trace (cx_read_mem_recv n pbc addr count buf d)) = [].
Proof.
  induction n as [|n IH]; intros pbc addr count buf d; simpl.
  - now destruct (pbc >? 0).
  - destruct (pbc >? 0); [|reflexivity].
    rewrite bind_run, usb_recv_run. cbn [out trace final].
    destruct (bulk_in d) as [[r pk] d']; cbn [fst snd].
    destruct (r <? 0); [reflexivity|].
    destruct (_ || _); [reflexivity|].
    cbn [after trace app sent]. apply IH.
Qed.

Lemma track_app (t1 t2 : list event) :
  forall due,
    track due (t1 ++ t2)
    = match track due t1 with
      | Some due' => track due' t2
      | None => None
      end.
Proof.
  induction t1 as [|e t1 IH]; intros due; simpl; [reflexivity|].
  destruct e as [p r|r p|a v|f a|f a|b]; try apply IH.
  destruct (r <? 0); [apply IH|].
  destruct (_ && _); [apply IH|reflexivity].
Qed.

Lemma cx_read_mem_recv_in_step (n : nat) :
  forall pbc addr count buf d due',
    0 <= pbc <= DATA_SIZE -> pbc <= count -> u32 addr = addr ->
    let r := cx_read_mem_recv n pbc addr count buf d in
    track pbc (trace r) = Some due' ->
    match out r with
    | Ret (None, a', c', _) =>
      a' = u32 (addr + pbc) /\ c' = count - pbc
    | Ret (Some e, _, _, _) => e < 0
    | Stop Spinning => Z.of_nat n < pbc
    | Stop Undefined => False
    end.
Proof.
  induction n as [|n IH]; intros pbc addr count buf d due' Hp Hc Ha; cbv zeta;
    simpl.
  - destruct (Z.gtb_spec pbc 0); simpl; intros _; [lia|].
    split; [|lia]. replace pbc with 0 by lia. now rewrite Z.add_0_r.
  - destruct (Z.gtb_spec pbc 0) as [Hpos|Hpos]; simpl.
    2:{ intros _. split; [|lia]. replace pbc with 0 by lia.
        now rewrite Z.add_0_r. }
    rewrite bind_run, usb_recv_run. cbn [out trace final].
    destruct (bulk_in d) as [[r pk] d']; cbn [fst snd].
    destruct (Z.ltb_spec r 0) as [Hr|Hr].
    + cbn [after bind eprintf emit ret trace out final app]. intros _. lia.
    + set (b := u8 (byte_count pk)).
      assert (Hb : 0 <= b < 256) by (unfold b, u8; apply Z.mod_pos_bound; lia).
      destruct ((b >? DATA_SIZE) || (b >? count)) eqn:Eub.
      * unfold halt. cbn [after trace out final app track]. fold b.
        destruct (Z.ltb_spec r 0); [lia|].
        destruct (Z.ltb_spec 0 b); destruct (Z.leb_spec b pbc);
          cbn [andb]; try discriminate.
        apply orb_true_iff in Eub. unfold DATA_SIZE in *.
        destruct Eub as [E|E]; apply Z.gtb_lt in E; lia.
      * cbn [after trace out final app track]. fold b.
        destruct (Z.ltb_spec r 0); [lia|].
        destruct (Z.ltb_spec 0 b); destruct (Z.leb_spec b pbc);
          cbn [andb]; try discriminate.
        intros Ht.
        unfold DATA_SIZE in *.
        rewrite (@u8_small (pbc - b)) in * by lia.
        specialize (IH (pbc - b) (u32 (addr + b)) (count - b)
                      (buf ++ firstn (Z.to_nat b) (data pk)) d' due').
        cbv zeta in IH.
        specialize (IH ltac:(lia) ltac:(lia) (u32_idem _) Ht).
        destruct (out (cx_read_mem_recv n (pbc - b) (u32 (addr + b))
                         (count - b) _ d')) as [[[[[e|] a'] c'] b']|[|]];
          try assumption; try lia.
        destruct IH as (-> & ->). split; [|lia].
        replace (u32 (addr + b) + (pbc - b))
          with (0 + (u32 (addr + b) + (pbc - b))) by lia.
        rewrite u32_add_u32. f_equal. lia.
Qed.

Lemma chunks_step (count : Z) :
  0 < count -> chunks count = S (chunks (count - Z.min DATA_SIZE count)).
Proof.
  intros Hc. pose proof (tiling_step 0 Hc) as Ht.
  apply (f_equal (@length _)) in Ht. unfold tiling in Ht.
  cbn [length] in Ht. now rewrite !length_map, !length_seq in Ht.
Qed.

Lemma cx_read_mem_loop_requests (n : nat) :
  forall addr count buf access d,
    Forall (fun p => cmd p = FW_READ_MEM /\ access_type p = access /\
                     ack_request p = 1 /\ 0 < byte_count p <= DATA_SIZE)
      (sent (trace (cx_read_mem_loop n addr count buf access d))).
Proof.
  induction n as [|n IH]; intros addr count buf access d; simpl.
  - destruct (count >? 0); constructor.
  - destruct (Z.gtb_spec count 0) as [Hc|Hc]; [|constructor].
    rewrite byte_count_min.
    rewrite bind_run, usb_send_run. cbn [out trace final].
    match goal with |- context [fst (bulk_out ?p d)] =>
      destruct (bulk_out p d) as [r d']; cbn [fst snd]
    end.
    assert (Hbc : 0 < Z.min DATA_SIZE count <= DATA_SIZE)
      by (unfold DATA_SIZE; lia).
    destruct (r <? 0).
    + cbn [after bind eprintf emit ret trace out final app sent].
      repeat constructor; cbn; lia.
    + cbn [after trace out final app sent].
      constructor; [cbn; repeat split; lia|].
      rewrite bind_run.
      match goal with |- context [cx_read_mem_recv ?f ?a ?b ?c ?e d'] =>
        pose proof (sent_recv f a b c e d') as Hs;
        destruct (cx_read_mem_recv f a b c e d')
          as [tr dr [[[[[c'|] a1] c1] b1]|why]]
      end; cbn [out trace final] in *.
      * cbn [after ret trace app]. rewrite app_nil_r, Hs. constructor.
      * rewrite bind_when_printf, after_after. cbn [after trace].
        rewrite !sent_app, Hs.
        replace (sent (if (c1 >=? 1024) && (c1 mod 1024 =? 0)
                       then [Stdout "." []] else [])) with (@nil cx_fw_packet)
          by (now destruct (_ && _)).
        apply IH.
      * rewrite Hs. constructor.
Qed.

Lemma cx_read_mem_loop_chunks (n : nat) :
  forall addr count buf access d due0 due',
    u32 addr = addr ->
    let r := cx_read_mem_loop n addr count buf access d in
    track due0 (trace r) = Some due' ->
    (exists m, map span (sent (trace r)) = firstn m (tiling addr count)) /\
    (forall b, out r = Ret (0, b) ->
               map span (sent (trace r)) = tiling addr count) /\
    out r <> Stop Undefined /\
    (out r = Stop Spinning ->
     Z.of_nat fuel < Z.min DATA_SIZE count \/ (n < chunks count)%nat).
Proof.
  induction n as [|n IH]; intros addr count buf access d due0 due' Ha;
    cbv zeta; simpl.
  - destruct (Z.gtb_spec count 0) as [Hc|Hc]; simpl; intros _.
    + split; [now exists 0%nat|]. split; [discriminate|].
      split; [discriminate|]. intros _. right.
      rewrite (chunks_step Hc). lia.
    + rewrite tiling_nil by lia. split; [now exists 0%nat|].
      split; [reflexivity|]. split; discriminate.
  - destruct (Z.gtb_spec count 0) as [Hc|Hc]; simpl.
    2:{ intros _. rewrite tiling_nil by lia. split; [now exists 0%nat|].
        split; [reflexivity|]. split; discriminate. }
    rewrite byte_count_min.
    rewrite bind_run, usb_send_run. cbn [out trace final].
    match goal with |- context [fst (bulk_out ?p d)] =>
      destruct (bulk_out p d) as [r d']; cbn [fst snd]
    end.
    rewrite (tiling_step addr Hc), Ha.
    assert (Hbc : 0 < Z.min DATA_SIZE count <= DATA_SIZE)
      by (unfold DATA_SIZE; lia).
    destruct (Z.ltb_spec r 0) as [Hr|Hr].
    + cbn [after bind eprintf emit ret trace out final app sent map span
           address byte_count]. intros _.
      split; [now exists 1%nat|].
      split; [intros b H; inversion H; lia|]. split; discriminate.
    + cbn [after trace out final app sent map span address byte_count track
           cmd].
      destruct (Z.ltb_spec r 0); [lia|].
      change (FW_READ_MEM =? FW_READ_MEM) with true. cbn [orb negb].
      assert (Hbc' : 0 <= Z.min DATA_SIZE count <= DATA_SIZE) by lia.
      rewrite bind_run.
      match goal with |- context [cx_read_mem_recv ?f ?a ?b ?c ?e d'] =>
        pose proof (sent_recv f a b c e d') as Hs;
        pose proof (@cx_read_mem_recv_in_step f a b c e d') as Hi;
        destruct (cx_read_mem_recv f a b c e d')
          as [tr dr [[[[[c'|] a1] c1] b1]|why]]
      end; cbn [out trace final] in *.
      * cbn [after ret trace out app]. rewrite app_nil_r, Hs. intros Ht.
        specialize (Hi due' Hbc' ltac:(lia) Ha Ht). cbn [map].
        split; [now exists 1%nat|].
        split; [intros b H'; inversion H'; lia|]. split; discriminate.
      * rewrite bind_when_printf, after_after. cbn [after trace out].
        rewrite !sent_app, Hs.
        replace (sent (if (c1 >=? 1024) && (c1 mod 1024 =? 0)
                       then [Stdout "." []] else [])) with (@nil cx_fw_packet)
          by (now destruct (_ && _)).
        cbn [app]. rewrite !track_app.
        destruct (track (Z.min DATA_SIZE count) tr) as [d1|] eqn:Et;
          [|discriminate].
        specialize (Hi d1 Hbc' ltac:(lia) Ha eq_refl).
        destruct Hi as (-> & ->).
        replace (track d1 (if (count - Z.min DATA_SIZE count >=? 1024)
                              && ((count - Z.min DATA_SIZE count) mod 1024 =? 0)
                           then [Stdout "." []] else []))
          with (Some d1) by (now destruct (_ && _)).
        intros Ht.
        destruct (IH (u32 (addr + Z.min DATA_SIZE count))
                    (count - Z.min DATA_SIZE count) b1 access dr d1 due'
                    (u32_idem _) Ht) as (H1 & H2 & H3 & H4).
        split; [now apply firstn_prefix_cons|].
        split; [intros b Hb; cbn [map]; now rewrite (H2 b Hb)|].
        split; [assumption|]. intros Hsp.
        destruct (H4 Hsp) as [Hf|Hf]; [left; lia|right].
        rewrite (chunks_step Hc). lia.
      * rewrite Hs. intros Ht.
        specialize (Hi due' Hbc' ltac:(lia) Ha Ht). cbn [map].
        split; [now exists 1%nat|]. split; [discriminate|].
        destruct why; [|contradiction].
        split; [discriminate|]. intros _. now left.
Qed.

Lemma cx_write_mem_loop_defined (n : nat) :
  forall addr count buf access d,
    count <= Z.of_nat (length buf) ->
    out (cx_write_mem_loop n addr count buf access d) <> Stop Undefined.
Proof.
  induction n as [|n IH]; intros addr count buf access d Hb; simpl.
  - destruct (count >? 0); simpl; discriminate.
  - destruct (Z.gtb_spec count 0) as [Hc|Hc]; [|simpl; discriminate].
    rewrite byte_count_min.
    destruct (Z.ltb_spec (Z.of_nat (length buf)) (Z.min DATA_SIZE count));
      [lia|].
    rewrite (bind_Ret _ _ _ (usb_send_out _ d)). simpl.
    destruct (_ <? 0); simpl; [discriminate|].
    apply IH. rewrite length_skipn. unfold DATA_SIZE in *. lia.
Qed.

(** C5.  The chunks of a transfer of [count] bytes at [addr] are chunk 0,
    1, ... of at most 56 bytes, chunk [k] starting 56 * k bytes in; their
    byte counts add up to [count].  [cx_write_mem] sends one packet for
    each chunk, in order, with the address and byte count of the chunk,
    the access type of the caller and no acknowledgment request; it stops
    early only at a failed transfer or at the end of the host buffer, and
    when no transfer fails and the buffer holds [count] bytes it returns 0
    after the last chunk.  [cx_read_mem] sends its requests with the
    access type of the caller and the acknowledgment request set; when
    the responses keep step with the requests, the requests are the
    chunks in order, all of them when it returns 0, it never leaves
    defined behaviour, and it has no result only when the bound on the
    rounds is below the byte count of a chunk or below the number of
    chunks. *)
Theorem cx_mem_chunking (addr count : Z) (buf : list Z) (access : Z)
    (d : usb) :
  0 <= addr < 4294967296 -> 0 <= count ->
  let w := cx_write_mem addr count buf access d in
  let r := cx_read_mem addr count access d in
  fold_right Z.add 0 (map snd (tiling addr count)) = count /\
  Forall (fun s => 0 < snd s <= DATA_SIZE) (tiling addr count) /\
  Forall (fun p => cmd p = FW_WRITE_MEM /\ access_type p = access /\
                   ack_request p = 0 /\ 0 < byte_count p <= DATA_SIZE)
    (sent (trace w)) /\
  (exists m, map span (sent (trace w)) = firstn m (tiling addr count)) /\
  (out w = Ret 0 -> map span (sent (trace w)) = tiling addr count) /\
  (count <= Z.of_nat (length buf) ->
   Forall (fun e => failed e = None) (trace w) -> out w = Ret 0) /\
  Forall (fun p => cmd p = FW_READ_MEM /\ access_type p = access /\
                   ack_request p = 1 /\ 0 < byte_count p <= DATA_SIZE)
    (sent (trace r)) /\
  (in_step (trace r) = true ->
   (exists m, map span (sent (trace r)) = firstn m (tiling addr count)) /\
   (forall b, out r = Ret (0, b) ->
              map span (sent (trace r)) = tiling addr count) /\
   out r <> Stop Undefined /\
   (out r = Stop Spinning ->
    Z.of_nat fuel < Z.min DATA_SIZE count \/ (fuel < chunks count)%nat)).
Proof.
  intros Ha Hc. cbv zeta.
  assert (Hu : u32 addr = addr) by (unfold u32; apply Z.mod_small; lia).
  destruct (tiling_sizes addr Hc eq_refl) as (Hsum & Hsz).
  split; [assumption|]. split; [assumption|].
  destruct (cx_write_mem_loop_chunks (Z.to_nat count) count buf access d Hu)
    as (W1 & W2 & W3).
  split; [exact W1|]. split; [exact W2|]. split; [exact W3|].
  split.
  { intros Hb Hok. unfold cx_write_mem.
    destruct (cx_write_mem_loop_propagates (Z.to_nat count) addr count buf
                access d) as [(_ & [H|(why & H)])|H].
    - assumption.
    - exfalso. destruct why.
      + apply (@cx_write_mem_loop_total (Z.to_nat count) addr count buf
                 access d); [lia|assumption].
      + now apply (@cx_write_mem_loop_defined (Z.to_nat count) addr count buf
                     access d Hb).
    - exfalso. destruct H as (t1 & e & c & msg & Ht & _ & He & _).
      unfold cx_write_mem in Hok. rewrite Ht in Hok.
      apply Forall_app in Hok. destruct Hok as (_ & Hok).
      inversion Hok as [|? ? Hx _]. rewrite He in Hx. discriminate. }
  split; [apply cx_read_mem_loop_requests|].
  unfold in_step, cx_read_mem. intros Hstep.
  destruct (track 0 (trace (cx_read_mem_loop fuel addr count [] access d)))
    as [due'|] eqn:Et; [|discriminate].
  exact (cx_read_mem_loop_chunks fuel count [] access d 0 Hu Et).
Qed.

(** A register read returns when the responses keep step with its request
    and the bound allows the two rounds a word can take. *)
Lemma cx_flash_read_returns (flash_base addr : Z) (d : usb) :
  (2 <= fuel)%nat ->
  in_step (trace (cx_flash_read flash_base addr d)) = true ->
  exists v, out (cx_flash_read flash_base addr d) = Ret v.
Proof.
  intros Hf. unfold cx_flash_read, cx_read_mem. rewrite bind_run.
  pose proof (@cx_read_mem_loop_chunks fuel (u32 (flash_base + addr)) 2 []
                MA_WORD d 0) as H.
  destruct (cx_read_mem_loop fuel (u32 (flash_base + addr)) 2 [] MA_WORD d)
    as [t d1 [rb|why]]; cbn [out trace final] in *.
  - intros _. eexists. reflexivity.
  - unfold in_step. destruct (track 0 t) as [due|] eqn:Et; [|discriminate].
    intros _. destruct (H due (u32_idem _) eq_refl) as (_ & _ & Hu & Hs).
    destruct why; [|now elim Hu].
    destruct (Hs eq_refl) as [Hx|Hx].
    + unfold DATA_SIZE in Hx. lia.
    + change (chunks 2) with 1%nat in Hx. lia.
Qed.

Lemma cx_flash_read_stops (flash_base addr : Z) (why : stop) :
  (exists d', out (cx_flash_read flash_base addr d') = Stop why) ->
  (fuel < 2)%nat \/
  exists d', in_step (trace (cx_flash_read flash_base addr d')) = false.
Proof.
  intros (d' & H). destruct (le_lt_dec 2 fuel) as [Hf|Hf]; [|now left].
  right. exists d'.
  destruct (in_step (trace (cx_flash_read flash_base addr d'))) eqn:E;
    [|reflexivity].
  destruct (cx_flash_read_returns flash_base addr d' Hf E) as (v & Hv).
  rewrite Hv in H. discriminate.
Qed.

(** ** Status bits *)

Lemma flag_bit (status k : Z) :
  0 <= k -> flag status (Z.shiftl 1 k) = Z.testbit status k.
Proof.
  intros Hk. unfold flag. rewrite Z.shiftl_1_l.
  destruct (Z.testbit status k) eqn:E.
  - apply negb_true_iff, Z.eqb_neq. intros H.
    assert (Hb : Z.testbit (Z.land status (2 ^ k)) k = true)
      by (rewrite Z.land_spec, E, Z.pow2_bits_true; auto).
    rewrite H, Z.bits_0 in Hb. discriminate.
  - apply negb_false_iff, Z.eqb_eq. apply Z.bits_inj'. intros m Hm.
    rewrite Z.land_spec, Z.bits_0, Z.pow2_bits_eqb by assumption.
    destruct (Z.eqb_spec k m); [subst; rewrite E; reflexivity|].
    apply andb_false_r.
Qed.

Lemma intel_decode_status_run (status : Z) (d : usb) :
  intel_decode_status status d
  = mkRun (map (fun f => Stdout f [])
             ("Status decode: "%string :: status_names status ++ ["\n"%string]))
      d (Ret tt).
Proof.
  unfold intel_decode_status, status_names.
  unfold INTEL_ST_READY, INTEL_ST_ERASESUSPEND, INTEL_ST_ERASEERROR,
    INTEL_ST_PROGRAMERROR, INTEL_ST_VPPERROR, INTEL_ST_PROGRAMSUSPEND,
    INTEL_ST_LOCKED.
  rewrite !flag_bit by lia. cbn [filter fst snd].
  destruct (Z.testbit status 7), (Z.testbit status 6), (Z.testbit status 5),
    (Z.testbit status 4), (Z.testbit status 3), (Z.testbit status 2),
    (Z.testbit status 1); reflexivity.
Qed.

(** ** Intel erase *)

Lemma intel_erase_poll_spec (flash_base : Z) (n : nat) :
  forall i d,
    let r := intel_erase_poll flash_base n i d in
    exists polls,
      Forall (fun s => Z.testbit s 7 = false) polls /\
      Forall (eq "."%string) (stdout (trace r)) /\
      match out r with
      | Ret status =>
        Z.testbit status 7 = true /\
        ops (trace r) = map (Rd 0) (polls ++ [status])
      | Stop why =>
        ops (trace r) = map (Rd 0) polls /\
        ((why = Spinning /\ length polls = n) \/
         exists d', out (cx_flash_read flash_base 0 d') = Stop why)
      end.
Proof.
  induction n as [|n IH]; intros i d; cbv zeta; simpl.
  - exists []. repeat split; auto.
  - destruct (cx_flash_read_views flash_base 0 d) as (Hs & Ho).
    destruct (out (cx_flash_read flash_base 0 d)) as [status|why] eqn:Eo.
    + rewrite (bind_Ret _ _ _ Eo), bind_when_printf. simpl.
      rewrite !ops_app, !stdout_app, Hs, Ho.
      unfold INTEL_ST_READY. rewrite flag_bit by lia.
      destruct (Z.testbit status 7) eqn:Eb.
      * exists []. simpl. rewrite !app_nil_r.
        repeat split; auto.
        -- destruct (i mod 4 =? 0); simpl; auto.
        -- now destruct (i mod 4 =? 0).
      * destruct (IH (u32 (i + 1)) (final (cx_flash_read flash_base 0 d)))
          as (polls & Hp & Hd & Hr).
        exists (status :: polls). split; [now constructor|]. split.
        { simpl. apply Forall_app. split; [|assumption].
          destruct (i mod 4 =? 0); simpl; auto. }
        destruct (out (intel_erase_poll flash_base n (u32 (i + 1)) _)).
        -- destruct Hr as (Hr1 & Hr2). split; [assumption|].
           replace (ops (if i mod 4 =? 0 then [Stdout "." []] else []))
             with (@nil op) by (now destruct (i mod 4 =? 0)).
           simpl. now rewrite Hr2.
        -- destruct Hr as (Hr1 & Hr2). split.
           ++ replace (ops (if i mod 4 =? 0 then [Stdout "." []] else []))
                with (@nil op) by (now destruct (i mod 4 =? 0)).
              simpl. now rewrite Hr1.
           ++ destruct Hr2 as [[-> Hl]|Hx]; [left|right; assumption].
              simpl. now rewrite Hl.
    + rewrite (bind_Stop _ _ _ Eo). simpl. exists []. rewrite Hs, Ho.
      repeat split; auto. right. now exists d.
Qed.

(** X14.  [intel_erase_block], at any block address and on any board: it
    writes the clear-status and the read-status command at offset 0,
    the erase and the erase-confirm command at the block address, then
    reads the status register at offset 0 until a value with bit 7 (ready)
    comes back, then writes the read-array command.  With a bit of the
    mask 0x5a set in that last status it prints the decoded status and
    returns false, otherwise it returns true.  It has no result only when
    every poll within the bound came back with bit 7 clear, or when the
    bound is below 2 or a response was out of step, so that a register
    read had none. *)
Theorem intel_erase_block_sequence (flash_base addr : Z) (d : usb) :
  let r := intel_erase_block flash_base addr d in
  let start :=
    [ Wr (write16 flash_base 0 INTEL_CMD_CLEARSTATUS);
      Wr (write16 flash_base 0 INTEL_CMD_READSTATUS);
      Wr (write16 flash_base addr INTEL_CMD_ERASE);
      Wr (write16 flash_base addr INTEL_CMD_ERASECONFIRM) ] in
  exists polls,
    Forall (fun s => Z.testbit s 7 = false) polls /\
    match out r with
    | Ret ok =>
      exists status dots,
        Z.testbit status 7 = true /\
        ops (trace r)
        = start ++ map (Rd 0) (polls ++ [status])
          ++ [Wr (write16 flash_base 0 INTEL_CMD_READ)] /\
        ok = (Z.land status INTEL_ST_ERROR_MASK =? 0) /\
        Forall (eq "."%string) dots /\
        stdout (trace r)
        = ("Erasing block     0x%06x: " :: dots
           ++ (if ok then ["\n"]
               else "Error!\n" :: "Status decode: "
                    :: status_names status ++ ["\n"]))%string
    | Stop why =>
      ops (trace r) = start ++ map (Rd 0) polls /\
      ((why = Spinning /\ length polls = fuel) \/ (fuel < 2)%nat \/
       exists d',
         in_step (trace (cx_flash_read flash_base 0 d')) = false)
    end.
Proof.
  cbv zeta. unfold intel_erase_block.
  rewrite bind_printf; cbv beta.
  do 4 wr_step.
  rewrite bind_run.
  match goal with |- context [intel_erase_poll _ _ _ ?d4] =>
    destruct (intel_erase_poll_spec flash_base fuel 0 d4) as (polls & Hp & Hd & Hr);
    destruct (intel_erase_poll flash_base fuel 0 d4) as [tp dp [status|why]]
  end; cbn [out trace final] in *; exists polls; (split; [assumption|]).
  - destruct Hr as (Hb & Ho). wr_step.
    unfold flag.
    destruct (Z.land status INTEL_ST_ERROR_MASK =? 0) eqn:Em; cbn [negb].
    + rewrite bind_printf; cbv beta. cbn [after ret trace out final].
      exists status, (stdout tp). views. rewrite Ho.
      repeat split; auto.
    + rewrite bind_printf; cbv beta. rewrite bind_run, intel_decode_status_run.
      cbn [after ret trace out final].
      exists status, (stdout tp). views. rewrite Ho, ops_prints, stdout_prints.
      repeat split; auto. now rewrite !app_nil_r.
  - destruct Hr as (Ho & Hw). views. rewrite Ho. split; [reflexivity|].
    destruct Hw as [Hw|Hw]; [now left|right].
    now apply cx_flash_read_stops in Hw.
Qed.

(** ** AMD erase *)

Lemma amd_erase_poll_spec (flash_base addr : Z) (n : nat) :
  forall i d,
    let r := amd_erase_poll flash_base n i addr d in
    exists polls,
      Forall (fun s => Z.testbit s 7 = false /\ Z.testbit s 5 = false) polls /\
      match out r with
      | Ret true =>
        exists status,
          Z.testbit status 7 = true /\
          ops (trace r) = map (Rd addr) (polls ++ [status])
      | Ret false =>
        exists status,
          Z.testbit status 7 = false /\ Z.testbit status 5 = true /\
          ops (trace r)
          = map (Rd addr) (polls ++ [status])
            ++ [Wr (write16 flash_base 0 AMD_CMD_RESET)]
      | Stop why =>
        ops (trace r) = map (Rd addr) polls /\
        ((why = Spinning /\ length polls = n) \/
         exists d', out (cx_flash_read flash_base addr d') = Stop why)
      end.
Proof.
  induction n as [|n IH]; intros i d; cbv zeta; simpl.
  - exists []. repeat split; auto.
  - destruct (cx_flash_read_views flash_base addr d) as (Hs & Ho).
    rewrite bind_run.
    destruct (cx_flash_read flash_base addr d) as [t1 d1 [status|why]] eqn:Er;
      cbn [out trace final] in *.
    2:{ exists []. rewrite Ho. repeat split; auto. right.
        exists d. now rewrite Er. }
    unfold AMD_ST_DATAPOLL, AMD_ST_TIMEOUT. rewrite !flag_bit by lia.
    destruct (Z.testbit status 7) eqn:E7; cbn [negb andb].
    + rewrite bind_when_printf. cbn [after ret trace out final].
      exists []. split; [constructor|]. exists status. split; [assumption|].
      views. rewrite Ho. now destruct (i mod 4 =? 0).
    + destruct (Z.testbit status 5) eqn:E5.
      * rewrite bind_printf; cbv beta. wr_step.
        exists []. split; [constructor|]. cbn [after ret trace out final].
        exists status. views. rewrite Ho. repeat split; auto.
      * rewrite bind_when_printf. 
        destruct (IH (u32 (i + 1)) d1) as (polls & Hp & Hr).
        exists (status :: polls). split; [constructor; auto|].
        cbn [after trace out final].
        destruct (amd_erase_poll flash_base n (u32 (i + 1)) addr d1)
          as [t2 d2 [[|]|why]]; cbn [out trace final] in *.
        -- destruct Hr as (st & H7 & Hops). exists st. split; [assumption|].
           views. rewrite Ho, Hops. now destruct (i mod 4 =? 0).
        -- destruct Hr as (st & H7 & H5 & Hops). exists st.
           split; [assumption|]. split; [assumption|].
           views. rewrite Ho, Hops. now destruct (i mod 4 =? 0).
        -- destruct Hr as (Hops & Hw). split.
           ++ views. rewrite Ho, Hops. now destruct (i mod 4 =? 0).
           ++ destruct Hw as [[-> Hl]|Hx]; [left|right; assumption].
              simpl. now rewrite Hl.
Qed.

(** C9.  [amd_erase_block] on any board: after the unlock sequence for
    erase-prepare, the two raw unlock writes and the sector-erase command
    at the block address, it reads back the block address.  A value with
    bit 7 clear and bit 5 set ends the polling at once: the reset command
    is written, nothing is read after it, and the result is false.  Every
    earlier value has bit 7 clear and bit 5 clear; the first value with
    bit 7 set ends the polling with the result true.  There is no result
    only when every poll within the bound had both bits clear, or when the
    bound is below 2 or a response was out of step, so that a register
    read had none. *)
Theorem amd_erase_block_polling (flash_base addr : Z) (d : usb) :
  let r := amd_erase_block flash_base addr d in
  let start :=
    [ Wr (write16 flash_base 0xaaa 0xaa);
      Wr (write16 flash_base 0x554 0x55);
      Wr (write16 flash_base 0xaaa AMD_CMD_ERASE_PREPARE);
      Wr (write16 flash_base 0xaaa 0xaa);
      Wr (write16 flash_base 0x554 0x55);
      Wr (write16 flash_base addr AMD_CMD_ERASE_SECTOR) ] in
  exists polls,
    Forall (fun s => Z.testbit s 7 = false /\ Z.testbit s 5 = false) polls /\
    match out r with
    | Ret true =>
      exists status,
        Z.testbit status 7 = true /\
        ops (trace r) = start ++ map (Rd addr) (polls ++ [status])
    | Ret false =>
      exists status,
        Z.testbit status 7 = false /\ Z.testbit status 5 = true /\
        ops (trace r)
        = start ++ map (Rd addr) (polls ++ [status])
          ++ [Wr (write16 flash_base 0 AMD_CMD_RESET)]
    | Stop why =>
      ops (trace r) = start ++ map (Rd addr) polls /\
      ((why = Spinning /\ length polls = fuel) \/ (fuel < 2)%nat \/
       exists d',
         in_step (trace (cx_flash_read flash_base addr d')) = false)
    end.
Proof.
  cbv zeta. unfold amd_erase_block, cx_flash_cmd.
  rewrite bind_printf; cbv beta.
  do 6 wr_step.
  rewrite bind_run.
  match goal with |- context [amd_erase_poll _ _ _ _ ?d6] =>
    destruct (amd_erase_poll_spec flash_base addr fuel 0 d6) as (polls & Hp & Hr);
    destruct (amd_erase_poll flash_base fuel 0 addr d6) as [tp dp [[|]|why]]
  end; cbn [out trace final] in *; exists polls; (split; [assumption|]).
  - destruct Hr as (status & H7 & Ho).
    rewrite bind_printf; cbv beta. cbn [after ret trace out final].
    exists status. split; [assumption|]. views. rewrite Ho.
    now rewrite app_nil_r.
  - destruct Hr as (status & H7 & H5 & Ho).
    cbn [after ret trace out final].
    exists status. split; [assumption|]. split; [assumption|].
    views. rewrite Ho. now rewrite app_nil_r.
  - destruct Hr as (Ho & Hw). views. rewrite Ho. split; [reflexivity|].
    destruct Hw as [Hw|Hw]; [now left|right].
    now apply cx_flash_read_stops in Hw.
Qed.

(** ** Programming a block *)

Lemma writes_flash_read (flash_base addr : Z) (d : usb) :
  writes (trace (cx_flash_read flash_base addr d)) = [].
Proof.
  destruct (cx_flash_read_views flash_base addr d) as (_ & H).
  unfold writes. destruct (out (cx_flash_read flash_base addr d));
    now rewrite H.
Qed.

Lemma intel_program_poll_writes (flash_base : Z) (n : nat) (d : usb) :
  writes (trace (intel_program_poll flash_base n d)) = [].
Proof.
  revert d. induction n as [|n IH]; intros d; simpl; [reflexivity|].
  rewrite bind_run.
  pose proof (writes_flash_read flash_base 0 d) as Hw.
  destruct (cx_flash_read flash_base 0 d) as [t1 d1 [status|why]];
    cbn [out trace final] in *; [|assumption].
  destruct (flag status INTEL_ST_READY); views.
  - now rewrite Hw.
  - now rewrite Hw, IH.
Qed.

Lemma amd_program_poll_writes (flash_base addr w : Z) (n : nat) (d : usb) :
  let r := amd_program_poll flash_base n addr w d in
  writes (trace r)
  = match out r with
    | Ret false => [ write16 flash_base 0 AMD_CMD_BYPASS_RESET1;
                     write16 flash_base 0 AMD_CMD_BYPASS_RESET2;
                     write16 flash_base 0 AMD_CMD_RESET ]
    | _ => []
    end.
Proof.
  cbv zeta. revert d. induction n as [|n IH]; intros d; simpl; [reflexivity|].
  rewrite bind_run.
  pose proof (writes_flash_read flash_base addr d) as Hw.
  destruct (cx_flash_read flash_base addr d) as [t1 d1 [status|why]];
    cbn [out trace final] in *; [|assumption].
  destruct (status =? w); cbn [negb andb].
  - views. now rewrite Hw.
  - destruct (flag status AMD_ST_TIMEOUT).
    + rewrite bind_printf; cbv beta. do 3 wr_step. views. now rewrite Hw.
    + views. rewrite Hw. apply IH.
Qed.

Lemma writes_nil : writes [] = [].
Proof. reflexivity. Qed.

Lemma writes_prints (l : list string) :
  writes (map (fun f => Stdout f []) l) = [].
Proof. unfold writes. now rewrite ops_prints. Qed.

(** The write, or the two writes, of one word in [intel_program_words]. *)
Lemma intel_word_run B (flash_base addr : Z) (i : nat) (w : Z)
    (k : unit -> M B) (d : usb) :
  exists t d',
    bind (if Z.of_nat i =? 0
          then bind (cx_flash_write flash_base addr INTEL_CMD_PROGRAM)
                 (fun _ => cx_flash_write flash_base
                             (u32 (addr + Z.of_nat i * 2)) w)
          else intel_optimized_program_word flash_base
                 (u32 (addr + Z.of_nat i * 2)) w) k d
    = after t (k tt d') /\
    writes t = word_packets flash_base INTEL_CMD_PROGRAM addr i w /\
    reads t = [].
Proof.
  destruct i as [|i].
  - change (Z.of_nat 0 =? 0) with true. cbv iota. do 2 wr_step.
    rewrite after_after. eexists _, _. split; [reflexivity|].
    views. simpl word_packets. rewrite write16_u32.
    replace (addr + Z.of_nat 0 * 2) with addr by lia. now split.
  - destruct (Z.eqb_spec (Z.of_nat (S i)) 0) as [E|_]; [lia|].
    rewrite bind_run, intel_optimized_program_word_run.
    cbn [out trace final]. eexists _, _. split; [reflexivity|].
    views. simpl word_packets. rewrite write32_u32.
    replace (addr + Z.of_nat (S i) * 2 - 2) with (addr + 2 * Z.of_nat (S i) - 2)
      by lia.
    now split.
Qed.

Lemma nth_error_nth_0 (data : list Z) (i : nat) (w : Z) :
  nth_error data i = Some w -> nth i data 0 = w.
Proof. intros H. now apply nth_error_nth. Qed.

(** [stopped_at] looks at the result of a run, and at the end of its log
    when there is none. *)
Lemma stopped_at_ext (fam : family) (flash_base addr : Z) (data : list Z)
    (slow : bool) (i n k : nat) (r r' : run bool) :
  out r' = out r ->
  (forall why, out r = Stop why ->
     final r' = final r /\ exists t, trace r' = t ++ trace r) ->
  stopped_at fam flash_base addr data slow i n k r ->
  stopped_at fam flash_base addr data slow i n k r'.
Proof.
  unfold stopped_at. intros Ho Hs. rewrite Ho.
  destruct (out r) as [[|]|why]; auto.
  intros [H|(H1 & H2 & H3 & pre & d' & H)]; [now left|right].
  destruct (Hs why eq_refl) as (Hfin & t & Ht).
  split; [assumption|]. split; [assumption|]. split; [assumption|].
  exists (t ++ pre), d'. rewrite Ht, Hfin.
  destruct fam; cbv zeta in *; destruct H as (Hp & -> & ->);
    rewrite <- app_assoc; auto.
Qed.

Lemma stopped_at_after (fam : family) (flash_base addr : Z) (data : list Z)
    (slow : bool) (i n k : nat) (t : list event) (r : run bool) :
  stopped_at fam flash_base addr data slow i n k r ->
  stopped_at fam flash_base addr data slow i n k (after t r).
Proof.
  apply stopped_at_ext; [reflexivity|].
  intros why _. split; [reflexivity|]. now exists t.
Qed.

Lemma stopped_at_S (fam : family) (flash_base addr : Z) (data : list Z)
    (slow : bool) (i n k : nat) (r : run bool) :
  stopped_at fam flash_base addr data slow (S i) n k r ->
  stopped_at fam flash_base addr data slow i (S n) (S k) r.
Proof.
  assert (E1 : forall k', (0 < k')%nat -> (S i + k' - 1 = i + S k' - 1)%nat)
    by (intros; lia).
  assert (E2 : (S i + k = i + S k)%nat) by lia.
  unfold stopped_at. destruct (out r) as [[|]|why].
  - intros ->. reflexivity.
  - intros (Hs & Hk & Hp). rewrite (E1 k Hk) in Hp.
    split; [assumption|]. split; [lia|assumption].
  - intros [(Hk & Hn & Hy)|(Hs & Hk & Hp & Hh)].
    + left. rewrite E2 in Hn. split; [lia|]. now split.
    + right. rewrite (E1 k Hk) in Hp, Hh.
      split; [assumption|]. split; [lia|]. now split.
Qed.

(** The word at index [i], programmed as the first of the loop. *)
Lemma stopped_at_first (data : list Z) (i : nat) (w : Z) :
  nth_error data i = Some w -> (w =? 65535) = false ->
  to_program data (i + 1 - 1) = true /\ nth (i + 1 - 1) data 0 = w.
Proof.
  intros En Ew. replace (i + 1 - 1)%nat with i by lia.
  unfold to_program. rewrite En, Ew. split; [reflexivity|].
  now apply nth_error_nth.
Qed.

Lemma intel_program_words_spec (flash_base addr : Z) (data : list Z)
    (slow : bool) (n : nat) :
  forall i d,
    let r := intel_program_words flash_base n (Z.of_nat i) addr data slow d in
    exists k,
      (k <= n)%nat /\
      writes (trace r)
      = flat_map (fun j => word_packets flash_base INTEL_CMD_PROGRAM addr j
                             (nth j data 0))
          (filter (to_program data) (seq i k))
        ++ match out r with
           | Ret false => [write16 flash_base 0 INTEL_CMD_READ]
           | _ => []
           end /\
      stopped_at Intel flash_base addr data slow i n k r /\
      (slow = false ->
       reads (trace r) = [] /\ out r <> Ret false /\
       ((i + n <= length data)%nat -> out r = Ret true)).
Proof.
  induction n as [|n IH]; intros i d; cbv zeta; simpl.
  - exists 0%nat. simpl. repeat split; auto. discriminate.
  - rewrite Nat2Z.id. destruct (nth_error data i) as [w|] eqn:En.
    2:{ exists 0%nat. simpl. split; [lia|]. split; [reflexivity|].
        split; [left; rewrite Nat.add_0_r; repeat split; auto; lia|].
        intros _. split; [reflexivity|].
        split; [discriminate|]. intros H.
        apply nth_error_None in En. lia. }
    replace (Z.of_nat i + 1) with (Z.of_nat (S i)) by lia.
    assert (Hseq : forall k, filter (to_program data) (seq i (S k))
                   = (if negb (w =? 65535) then [i] else [])
                     ++ filter (to_program data) (seq (S i) k)).
    { intros k. cbn [seq filter]. unfold to_program at 1. rewrite En.
      now destruct (w =? 65535). }
    destruct (w =? 65535) eqn:Ew.
    + destruct (IH (S i) d) as (k & Hk & Hw & Ht & Hf).
      exists (S k). split; [lia|]. rewrite Hseq. cbn [negb app].
      split; [exact Hw|]. split; [now apply stopped_at_S|].
      intros Hs. destruct (Hf Hs) as (H1 & H2 & H3).
      repeat split; auto. intros; apply H3; lia.
    + destruct (stopped_at_first data i En Ew) as (Hprog & Hnth).
      rewrite bind_when_printf.
      destruct (intel_word_run flash_base addr i w
                  (fun _ => if slow
                     then bind (intel_program_poll flash_base fuel)
                       (fun status =>
                          if flag status INTEL_ST_ERROR_MASK
                          then bind (printf "Error!\n" [])
                            (fun _ => bind (intel_decode_status status)
                              (fun _ => bind (cx_flash_write flash_base 0 INTEL_CMD_READ)
                                (fun _ => ret false)))
                          else intel_program_words flash_base n (Z.of_nat (S i))
                                 addr data slow)
                     else intel_program_words flash_base n (Z.of_nat (S i))
                            addr data slow) d)
        as (tw & dw & -> & Hww & Hwr).
      rewrite after_after.
      assert (Hone : flat_map (fun j => word_packets flash_base INTEL_CMD_PROGRAM addr j
                             (nth j data 0)) [i]
                     = word_packets flash_base INTEL_CMD_PROGRAM addr i w).
      { simpl. rewrite app_nil_r. now rewrite (nth_error_nth_0 _ _ En). }
      destruct slow.
      * rewrite bind_run.
        pose proof (intel_program_poll_writes flash_base fuel dw) as Hp.
        destruct (intel_program_poll flash_base fuel dw)
          as [tp dp [status|why]] eqn:Ep; cbn [out trace final] in *.
        2:{ exists 1%nat. split; [lia|]. rewrite Hseq. cbn [negb seq filter].
            split; [views; now rewrite Hww, Hp, Hone|].
            split; [|discriminate].
            right. split; [reflexivity|]. split; [lia|].
            split; [assumption|]. eexists _, dw. rewrite Ep.
            cbn [after out trace final]. now repeat split. }
        destruct (flag status INTEL_ST_ERROR_MASK).
        -- rewrite bind_printf; cbv beta.
           rewrite bind_run, intel_decode_status_run. cbn [out trace final].
           wr_step. exists 1%nat. split; [lia|]. rewrite Hseq.
           cbn [negb seq filter].
           split; [views; now rewrite Hww, Hp, Hone, writes_prints, !writes_nil|].
           split; [|discriminate].
           split; [reflexivity|]. split; [lia|assumption].
        -- destruct (IH (S i) dp) as (k & Hk & Hw & Ht & Hf).
           exists (S k). split; [lia|]. rewrite Hseq. cbn [negb].
           split.
           { views. cbn [flat_map].
             rewrite Hww, Hp, Hw, (nth_error_nth_0 _ _ En).
             now rewrite <- !app_assoc. }
           split; [|discriminate].
           rewrite after_after. now apply stopped_at_after, stopped_at_S.
      * destruct (IH (S i) dw) as (k & Hk & Hw & Ht & Hf).
        exists (S k). split; [lia|]. rewrite Hseq. cbn [negb].
        split.
        { views. cbn [flat_map]. rewrite Hww, Hw, (nth_error_nth_0 _ _ En).
          now rewrite <- !app_assoc. }
        split; [now apply stopped_at_after, stopped_at_S|].
        intros _. destruct (Hf eq_refl) as (H1 & H2 & H3).
        views. rewrite Hwr, H1. repeat split; auto. intros; apply H3; lia.
Qed.

(** The write, or the two writes, of one word in [amd_program_words]. *)
Lemma amd_word_run B (flash_base addr : Z) (i : nat) (w : Z)
    (k : unit -> M B) (d : usb) :
  exists t d',
    bind (if Z.of_nat i =? 0
          then bind (cx_flash_write flash_base addr AMD_CMD_PROGRAM)
                 (fun _ => cx_flash_write flash_base
                             (u32 (addr + Z.of_nat i * 2)) w)
          else amd_optimized_program_word flash_base
                 (u32 (addr + Z.of_nat i * 2)) w) k d
    = after t (k tt d') /\
    writes t = word_packets flash_base AMD_CMD_PROGRAM addr i w /\
    reads t = [].
Proof.
  destruct i as [|i].
  - change (Z.of_nat 0 =? 0) with true. cbv iota. do 2 wr_step.
    rewrite after_after. eexists _, _. split; [reflexivity|].
    views. simpl word_packets. rewrite write16_u32.
    replace (addr + Z.of_nat 0 * 2) with addr by lia. now split.
  - destruct (Z.eqb_spec (Z.of_nat (S i)) 0) as [E|_]; [lia|].
    rewrite bind_run, amd_optimized_program_word_run.
    cbn [out trace final]. eexists _, _. split; [reflexivity|].
    views. simpl word_packets. rewrite write32_u32.
    replace (addr + Z.of_nat (S i) * 2 - 2) with (addr + 2 * Z.of_nat (S i) - 2)
      by lia.
    now split.
Qed.

Lemma amd_program_words_spec (flash_base addr : Z) (data : list Z)
    (slow : bool) (n : nat) :
  forall i d,
    let r := amd_program_words flash_base n (Z.of_nat i) addr data slow d in
    exists k,
      (k <= n)%nat /\
      writes (trace r)
      = flat_map (fun j => word_packets flash_base AMD_CMD_PROGRAM addr j
                             (nth j data 0))
          (filter (to_program data) (seq i k))
        ++ match out r with
           | Ret false => [ write16 flash_base 0 AMD_CMD_BYPASS_RESET1;
                            write16 flash_base 0 AMD_CMD_BYPASS_RESET2;
                            write16 flash_base 0 AMD_CMD_RESET ]
           | _ => []
           end /\
      stopped_at AMD flash_base addr data slow i n k r /\
      (slow = false ->
       reads (trace r) = [] /\ out r <> Ret false /\
       ((i + n <= length data)%nat -> out r = Ret true)).
Proof.
  induction n as [|n IH]; intros i d; cbv zeta; simpl.
  - exists 0%nat. simpl. repeat split; auto. discriminate.
  - rewrite Nat2Z.id. destruct (nth_error data i) as [w|] eqn:En.
    2:{ exists 0%nat. simpl. split; [lia|]. split; [reflexivity|].
        split; [left; rewrite Nat.add_0_r; repeat split; auto; lia|].
        intros _. split; [reflexivity|].
        split; [discriminate|]. intros H.
        apply nth_error_None in En. lia. }
    replace (Z.of_nat i + 1) with (Z.of_nat (S i)) by lia.
    assert (Hseq : forall k, filter (to_program data) (seq i (S k))
                   = (if negb (w =? 65535) then [i] else [])
                     ++ filter (to_program data) (seq (S i) k)).
    { intros k. cbn [seq filter]. unfold to_program at 1. rewrite En.
      now destruct (w =? 65535). }
    destruct (w =? 65535) eqn:Ew.
    + destruct (IH (S i) d) as (k & Hk & Hw & Ht & Hf).
      exists (S k). split; [lia|]. rewrite Hseq. cbn [negb app].
      split; [exact Hw|]. split; [now apply stopped_at_S|].
      intros Hs. destruct (Hf Hs) as (H1 & H2 & H3).
      repeat split; auto. intros; apply H3; lia.
    + destruct (stopped_at_first data i En Ew) as (Hprog & Hnth).
      rewrite bind_when_printf.
      destruct (amd_word_run flash_base addr i w
                  (fun _ => if slow
                     then bind (amd_program_poll flash_base fuel
                                  (u32 (addr + Z.of_nat i * 2)) w)
                       (fun settled =>
                          if settled
                          then amd_program_words flash_base n (Z.of_nat (S i))
                                 addr data slow
                          else ret false)
                     else amd_program_words flash_base n (Z.of_nat (S i))
                            addr data slow) d)
        as (tw & dw & -> & Hww & Hwr).
      rewrite after_after.
      destruct slow.
      * rewrite bind_run.
        pose proof (amd_program_poll_writes flash_base
                      (u32 (addr + Z.of_nat i * 2)) w fuel dw) as Hp.
        cbv zeta in Hp.
        destruct (amd_program_poll flash_base fuel
                    (u32 (addr + Z.of_nat i * 2)) w dw)
          as [tp dp [[|]|why]] eqn:Ep; cbn [out trace final] in *.
        -- destruct (IH (S i) dp) as (k & Hk & Hw & Ht & Hf).
           exists (S k). split; [lia|]. rewrite Hseq. cbn [negb].
           split.
           { views. cbn [flat_map].
             rewrite Hww, Hp, Hw, (nth_error_nth_0 _ _ En).
             now rewrite <- !app_assoc. }
           split; [|discriminate].
           rewrite after_after. now apply stopped_at_after, stopped_at_S.
        -- exists 1%nat. split; [lia|]. rewrite Hseq. cbn [negb seq filter].
           split.
           { views. cbn [flat_map].
             rewrite Hww, Hp, (nth_error_nth_0 _ _ En), !writes_nil.
             now rewrite !app_nil_r. }
           split; [|discriminate].
           split; [reflexivity|]. split; [lia|assumption].
        -- exists 1%nat. split; [lia|]. rewrite Hseq. cbn [negb seq filter].
           split.
           { views. cbn [flat_map]. rewrite Hww, Hp, (nth_error_nth_0 _ _ En).
             now rewrite !app_nil_r. }
           split; [|discriminate].
           right. split; [reflexivity|]. split; [lia|].
           split; [assumption|]. eexists _, dw.
           rewrite Hnth. replace (i + 1 - 1)%nat with i by lia.
           rewrite Ep. cbn [after out trace final]. now repeat split.
      * destruct (IH (S i) dw) as (k & Hk & Hw & Ht & Hf).
        exists (S k). split; [lia|]. rewrite Hseq. cbn [negb].
        split.
        { views. cbn [flat_map]. rewrite Hww, Hw, (nth_error_nth_0 _ _ En).
          now rewrite <- !app_assoc. }
        split; [now apply stopped_at_after, stopped_at_S|].
        intros _. destruct (Hf eq_refl) as (H1 & H2 & H3).
        views. rewrite Hwr, H1. repeat split; auto. intros; apply H3; lia.
Qed.

(** The whole of [program_block], for both drivers: the write packets it
    sends, when it completes, and what it does without slow mode. *)
Lemma program_block_spec (fam : family) (flash_base addr : Z)
    (data : list Z) (size : Z) (slow : bool) (d : usb) :
  let r := driver_program_block fam flash_base addr data size slow d in
  exists k,
    (k <= Z.to_nat (size / 2))%nat /\
    writes (trace r)
    = opening fam flash_base
      ++ flat_map (fun j => word_packets flash_base (program_cmd fam) addr j
                              (nth j data 0))
           (filter (to_program data) (seq 0 k))
      ++ closing fam flash_base (out r) /\
    stopped_at fam flash_base addr data slow 0 (Z.to_nat (size / 2)) k r /\
    (slow = false ->
     reads (trace r) = [] /\ out r <> Ret false /\
     ((Z.to_nat (size / 2) <= length data)%nat -> out r = Ret true)).
Proof.
  cbv zeta. destruct fam; unfold driver_program_block.
  - unfold intel_program_block.
    rewrite bind_printf; cbv beta. do 2 wr_step. rewrite bind_run.
    match goal with |- context [intel_program_words _ ?n _ _ _ _ ?d2] =>
      destruct (intel_program_words_spec flash_base addr data slow n 0%nat d2)
        as (k & Hk & Hw & Ht & Hf)
    end.
    change (Z.of_nat 0) with 0 in *.
    destruct (intel_program_words flash_base (Z.to_nat (size / 2)) 0 addr
                data slow _) as [tl dl [[|]|why]]; cbn [out trace final] in *;
      exists k; (split; [assumption|]).
    + wr_step. rewrite bind_printf; cbv beta.
      split.
      { views. rewrite Hw, !writes_nil, !app_nil_r.
        cbn [opening closing program_cmd]. cbn [app]. now rewrite ?app_nil_r. }
      split.
      { revert Ht. apply stopped_at_ext; [reflexivity|discriminate]. }
      views. intros Hs. destruct (Hf Hs) as (H1 & H2 & H3). rewrite H1.
      repeat split; auto; try discriminate.
    + split.
      { views. rewrite Hw, !writes_nil. cbn [opening closing program_cmd].
        cbn [app]. now rewrite ?app_nil_r. }
      split.
      { revert Ht. apply stopped_at_ext; [reflexivity|discriminate]. }
      intros Hs. destruct (Hf Hs) as (H1 & H2 & H3). now elim H2.
    + split.
      { views. rewrite Hw. cbn [opening closing program_cmd].
        cbn [app]. now rewrite ?app_nil_r. }
      split.
      { rewrite !after_after. now apply stopped_at_after. }
      views. intros Hs. destruct (Hf Hs) as (H1 & H2 & H3). rewrite H1.
      repeat split; auto; try discriminate.
  - unfold amd_program_block, cx_flash_cmd.
    rewrite bind_printf; cbv beta. do 3 wr_step. rewrite bind_run.
    match goal with |- context [amd_program_words _ ?n _ _ _ _ ?d2] =>
      destruct (amd_program_words_spec flash_base addr data slow n 0%nat d2)
        as (k & Hk & Hw & Ht & Hf)
    end.
    change (Z.of_nat 0) with 0 in *.
    destruct (amd_program_words flash_base (Z.to_nat (size / 2)) 0 addr
                data slow _) as [tl dl [[|]|why]]; cbn [out trace final] in *;
      exists k; (split; [assumption|]).
    + do 2 wr_step. rewrite bind_printf; cbv beta.
      split.
      { views. rewrite Hw, !writes_nil, !app_nil_r.
        cbn [opening closing program_cmd]. cbn [app]. now rewrite ?app_nil_r. }
      split.
      { revert Ht. apply stopped_at_ext; [reflexivity|discriminate]. }
      views. intros Hs. destruct (Hf Hs) as (H1 & H2 & H3). rewrite H1.
      repeat split; auto; try discriminate.
    + split.
      { views. rewrite Hw, !writes_nil. cbn [opening closing program_cmd].
        cbn [app]. now rewrite ?app_nil_r. }
      split.
      { revert Ht. apply stopped_at_ext; [reflexivity|discriminate]. }
      intros Hs. destruct (Hf Hs) as (H1 & H2 & H3). now elim H2.
    + split.
      { views. rewrite Hw. cbn [opening closing program_cmd].
        cbn [app]. now rewrite ?app_nil_r. }
      split.
      { rewrite !after_after. now apply stopped_at_after. }
      views. intros Hs. destruct (Hf Hs) as (H1 & H2 & H3). rewrite H1.
      repeat split; auto; try discriminate.
Qed.

Lemma to_program_In (data : list Z) (k j : nat) :
  In j (filter (to_program data) (seq 0 k)) <->
  (j < k)%nat /\ exists w, nth_error data j = Some w /\ w <> 0xffff.
Proof.
  rewrite filter_In, in_seq. unfold to_program. split.
  - intros (Hj & H). split; [lia|].
    destruct (nth_error data j) as [w|]; [|discriminate].
    exists w. split; [reflexivity|].
    apply negb_true_iff, Z.eqb_neq in H. exact H.
  - intros (Hj & w & Hn & Hne). split; [lia|].
    rewrite Hn. now apply negb_true_iff, Z.eqb_neq.
Qed.

Lemma StronglySorted_seq (i k : nat) : StronglySorted lt (seq i k).
Proof.
  revert i. induction k as [|k IH]; intros i; simpl; constructor.
  - apply IH.
  - apply Forall_forall. intros j Hj. apply in_seq in Hj. lia.
Qed.

Lemma StronglySorted_filter (f : nat -> bool) (l : list nat) :
  StronglySorted lt l -> StronglySorted lt (filter f l).
Proof.
  induction 1 as [|a l Hs IH Ha]; simpl; [constructor|].
  destruct (f a); [|assumption]. constructor; [assumption|].
  apply Forall_forall. intros j Hj. apply filter_In in Hj.
  rewrite Forall_forall in Ha. now apply Ha.
Qed.

(** C3.  [program_block] of both drivers, on any board and in both modes:
    the write packets it sends are the opening writes of the driver, then
    the packets of the words at the indices below some [k] whose value is
    not 0xFFFF, one group for each such word and none for a word equal to
    0xFFFF, then the closing writes.  The loop goes through the words in
    order and [k] is where it came to its end: a block that returns true
    went through all [size / 2] words, so the words programmed are exactly
    those that differ from 0xFFFF; one that returns false ran in slow mode
    and stopped at a word it had just programmed; one without a result
    stopped where the data end, or in slow mode in the poll after a word
    it had just programmed, and its log ends with the log of that poll.
    Without slow mode, a block that is given its
    [size / 2] words returns true on every board, and has programmed
    exactly the words that differ from 0xFFFF. *)
Theorem program_block_skips_ffff (fam : family) (flash_base addr : Z)
    (data : list Z) (size : Z) (slow : bool) (d : usb) :
  let r := driver_program_block fam flash_base addr data size slow d in
  exists k,
    (k <= Z.to_nat (size / 2))%nat /\
    writes (trace r)
    = opening fam flash_base
      ++ flat_map (fun j => word_packets flash_base (program_cmd fam) addr j
                              (nth j data 0))
           (filter (to_program data) (seq 0 k))
      ++ closing fam flash_base (out r) /\
    (forall j, In j (filter (to_program data) (seq 0 k)) <->
               (j < k)%nat /\ exists w, nth_error data j = Some w /\ w <> 0xffff) /\
    (forall j w, word_packets flash_base (program_cmd fam) addr j w <> []) /\
    (out r = Ret true -> k = Z.to_nat (size / 2)) /\
    stopped_at fam flash_base addr data slow 0 (Z.to_nat (size / 2)) k r /\
    (slow = false -> (Z.to_nat (size / 2) <= length data)%nat ->
     out r = Ret true /\ k = Z.to_nat (size / 2)).
Proof.
  cbv zeta.
  destruct (program_block_spec fam flash_base addr data size slow d)
    as (k & Hk & Hw & Ht & Hf).
  exists k. split; [assumption|]. split; [assumption|].
  split; [intros j; apply to_program_In|].
  split; [intros j w; destruct j; discriminate|].
  split; [intros E; unfold stopped_at in Ht; rewrite E in Ht; exact Ht|].
  split; [assumption|].
  intros Hs Hlen. destruct (Hf Hs) as (_ & _ & Ho).
  specialize (Ho Hlen). split; [assumption|].
  unfold stopped_at in Ht. rewrite Ho in Ht. exact Ht.
Qed.

(** C4.  [program_block] of both drivers, on any board and in both modes:
    between the opening and the closing writes the words are written at
    strictly increasing indices (the word at index [j] lies at
    [addr + 2 * j]), and the words written are those below [k] that differ
    from 0xFFFF, where [k] is how far the loop went: all [size / 2] words
    when the block returns true, which it does on every board without slow
    mode when it is given its words.  The word at index 0 is written by
    two packets of two bytes at the block address, the program command and
    then the data; every word at an index [j > 0] is written by one packet
    of four bytes at [addr + 2 * j - 2] that holds the program command
    followed by the data word. *)
Theorem program_block_order_and_merging (fam : family) (flash_base addr : Z)
    (data : list Z) (size : Z) (slow : bool) (d : usb) :
  let r := driver_program_block fam flash_base addr data size slow d in
  exists (k : nat) (idx : list nat),
    idx = filter (to_program data) (seq 0 k) /\
    (forall j, In j idx <->
               (j < k)%nat /\ exists w, nth_error data j = Some w /\ w <> 0xffff) /\
    (k <= Z.to_nat (size / 2))%nat /\
    stopped_at fam flash_base addr data slow 0 (Z.to_nat (size / 2)) k r /\
    (slow = false -> (Z.to_nat (size / 2) <= length data)%nat ->
     out r = Ret true /\ k = Z.to_nat (size / 2)) /\
    StronglySorted lt idx /\
    Forall (fun j => (j < Z.to_nat (size / 2))%nat) idx /\
    writes (trace r)
    = opening fam flash_base
      ++ flat_map
           (fun j =>
              if (j =? 0)%nat then
                [ mkPacket FW_WRITE_MEM 2 MA_WORD 0 (u32 (flash_base + addr))
                    (payload (bytes_of_u16 (program_cmd fam)) 2);
                  mkPacket FW_WRITE_MEM 2 MA_WORD 0 (u32 (flash_base + addr))
                    (payload (bytes_of_u16 (nth 0 data 0)) 2) ]
              else
                [ mkPacket FW_WRITE_MEM 4 MA_WORD 0
                    (u32 (flash_base + (addr + 2 * Z.of_nat j - 2)))
                    (payload (bytes_of_u16 (program_cmd fam)
                              ++ bytes_of_u16 (nth j data 0)) 4) ])
           idx
      ++ closing fam flash_base (out r).
Proof.
  cbv zeta.
  destruct (program_block_spec fam flash_base addr data size slow d)
    as (k & Hk & Hw & Ht & Hf).
  exists k, (filter (to_program data) (seq 0 k)).
  split; [reflexivity|].
  split; [intros j; apply to_program_In|].
  split; [assumption|]. split; [assumption|].
  split.
  { intros Hs Hlen. destruct (Hf Hs) as (_ & _ & Ho).
    specialize (Ho Hlen). split; [assumption|].
    unfold stopped_at in Ht. rewrite Ho in Ht. exact Ht. }
  split; [apply StronglySorted_filter, StronglySorted_seq|].
  split.
  - apply Forall_forall. intros j Hj. apply filter_In in Hj.
    destruct Hj as (Hj & _). apply in_seq in Hj. lia.
  - rewrite Hw. do 2 f_equal. apply flat_map_ext. intros j.
    destruct j; reflexivity.
Qed.

(** C10.  Without slow mode [program_block] of both drivers reads
    nothing: no transfer on the IN endpoint, no read request and no
    register read is in its log.  Given the [size / 2] words of the block
    it returns true on every board, and a block that returns false was
    run in slow mode. *)
Theorem program_block_fast_never_fails (fam : family) (flash_base addr : Z)
    (data : list Z) (size : Z) (d : usb) :
  (Z.to_nat (size / 2) <= length data)%nat ->
  reads (trace (driver_program_block fam flash_base addr data size false d)) = []
  /\ out (driver_program_block fam flash_base addr data size false d) = Ret true
  /\ (forall slow d',
        out (driver_program_block fam flash_base addr data size slow d')
        = Ret false -> slow = true).
Proof.
  intros Hlen.
  destruct (program_block_spec fam flash_base addr data size false d)
    as (k & _ & _ & _ & Hf).
  destruct (Hf eq_refl) as (H1 & H2 & H3).
  split; [assumption|]. split; [auto|].
  intros slow d' Hr. destruct slow; [reflexivity|].
  destruct (program_block_spec fam flash_base addr data size false d')
    as (k' & _ & _ & _ & Hf').
  destruct (Hf' eq_refl) as (_ & H2' & _). now elim H2'.
Qed.

(** ** The catalog *)

(** C7.  For every chip of [supported_chips], count times size summed
    over its block table up to the end marker is the declared size of the
    chip. *)
Theorem supported_chips_sizes (flash_base : Z) :
  forall c, In c (supported_chips flash_base) ->
            blocks_total (blocks c) = chip_size c.
Proof.
  intros c [<-|[<-|[]]]; reflexivity.
Qed.

(** ** Identification *)

Lemma find_chip_None (chips : list flash_chip) (m v : Z) :
  (forall c, In c chips -> mfg c <> 0) ->
  find_chip chips m v = None <->
  (forall c, In c chips -> ~ (mfg c = m /\ dev c = v)).
Proof.
  induction chips as [|c chips IH]; intros Hnz; simpl.
  - split; auto.
  - destruct (Z.eqb_spec (mfg c) 0) as [E|_].
    { exfalso. apply (Hnz c); auto. now left. }
    destruct (Z.eqb_spec (mfg c) m) as [Em|Em];
      destruct (Z.eqb_spec (dev c) v) as [Ev|Ev]; cbn [andb].
    + split; [discriminate|]. intros H. exfalso. apply (H c); auto.
    + rewrite IH by (intros; apply Hnz; now right).
      split; [intros H c' [<-|Hc']; [tauto|auto] | intros H c' Hc'; apply H; now right].
    + rewrite IH by (intros; apply Hnz; now right).
      split; [intros H c' [<-|Hc']; [tauto|auto] | intros H c' Hc'; apply H; now right].
    + rewrite IH by (intros; apply Hnz; now right).
      split; [intros H c' [<-|Hc']; [tauto|auto] | intros H c' Hc'; apply H; now right].
Qed.

Lemma flash_identify_spec (flash_base : Z) (d : usb) :
  let r := flash_identify flash_base d in
  match out r with
  | Ret found =>
    exists m v,
      ops (trace r)
      = [ Wr (write16 flash_base 0xaaa 0xaa);
          Wr (write16 flash_base 0x554 0x55);
          Wr (write16 flash_base 0xaaa FLASH_CMD_ID);
          Rd 0 m; Rd 2 v;
          Wr (write16 flash_base 0 INTEL_CMD_READ);
          Wr (write16 flash_base 0 AMD_CMD_RESET) ] /\
      found = find_chip (supported_chips flash_base) m v
  | Stop _ =>
    (ops (trace r)
     = [ Wr (write16 flash_base 0xaaa 0xaa);
         Wr (write16 flash_base 0x554 0x55);
         Wr (write16 flash_base 0xaaa FLASH_CMD_ID) ]) \/
    (exists m,
       ops (trace r)
       = [ Wr (write16 flash_base 0xaaa 0xaa);
           Wr (write16 flash_base 0x554 0x55);
           Wr (write16 flash_base 0xaaa FLASH_CMD_ID);
           Rd 0 m ])
  end.
Proof.
  cbv zeta. unfold flash_identify, cx_flash_cmd. do 3 wr_step.
  rewrite bind_run.
  match goal with |- context [cx_flash_read _ 0 ?d3] =>
    destruct (cx_flash_read_views flash_base 0 d3) as (_ & Ho);
    destruct (cx_flash_read flash_base 0 d3) as [t1 d1 [m|why]]
  end; cbn [out trace final] in *.
  2:{ left. views. now rewrite Ho. }
  rewrite bind_run.
  destruct (cx_flash_read_views flash_base 2 d1) as (_ & Ho2).
  destruct (cx_flash_read flash_base 2 d1) as [t2 d2 [v|why]];
    cbn [out trace final] in *.
  2:{ right. exists m. views. now rewrite Ho, Ho2. }
  do 2 wr_step. rewrite bind_printf; cbv beta.
  cbn [after ret trace out final]. exists m, v. views. rewrite Ho, Ho2.
  now split.
Qed.

(** The first step of [main]: the flash enable write of the CX861xx. *)
Lemma flash_enable_run B (cx861xx : bool) (k : unit -> M B) (d : usb) :
  exists t d',
    bind (when cx861xx
            (bind (cx_write_mem CX861XX_FLASH_ENABLE 1 [1] MA_BYTE)
               (fun _ => ret tt))) k d
    = after t (k tt d') /\
    ops t = (if cx861xx
             then [Wr (mkPacket FW_WRITE_MEM 1 MA_BYTE 0 CX861XX_FLASH_ENABLE
                         (payload [1] 1))]
             else []) /\
    stdout t = [].
Proof.
  destruct cx861xx; cbn [when].
  - rewrite bind_bind, bind_run.
    rewrite cx_write_mem_single by (unfold DATA_SIZE; simpl; lia).
    cbn [out trace final]. rewrite bind_ret.
    eexists _, _. split; [reflexivity|].
    split; [now rewrite ops_wr_log|apply stdout_wr_log].
  - rewrite bind_ret. exists [], d. now rewrite after_nil.
Qed.

(** C8.  The IDs 0x0089 and 0x88c5 select the chip of 4 MiB with the
    blocks 8 x 8192 and 63 x 65536: when the two register reads of
    [flash_identify] return them, its result is that descriptor.  When the
    reads return a pair that no entry of the catalog has, [main] ends with
    exit status 6 after the message for an unsupported chip, and the two
    commands that leave the identifier mode are the last it sends: nothing
    is read, erased, programmed or locked after them. *)
Theorem identify_selects_or_fails (cx861xx : bool) (argv1 : string)
    (h : host) (d : usb) :
  let flash_base := if cx861xx then 0x04000000 else 0x0400000 in
  (forall d0 found,
     out (flash_identify flash_base d0) = Ret found ->
     In (Rd 0 0x0089) (ops (trace (flash_identify flash_base d0))) ->
     In (Rd 2 0x88c5) (ops (trace (flash_identify flash_base d0))) ->
     exists c,
       found = Some c /\ chip_size c = 4 * 1024 * 1024 /\
       blocks c = [mkBlocks 8 8192; mkBlocks 63 65536; mkBlocks 0 0]) /\
  (forall m v rest,
     ops (trace (main cx861xx argv1 h d))
     = startup cx861xx ++ [Rd 0 m; Rd 2 v] ++ rest ->
     (forall c, In c (supported_chips flash_base) ->
                ~ (mfg c = m /\ dev c = v)) ->
     out (main cx861xx argv1 h d) = Ret 6 /\
     rest = [ Wr (write16 flash_base 0 INTEL_CMD_READ);
              Wr (write16 flash_base 0 AMD_CMD_RESET) ] /\
     last (stdout (trace (main cx861xx argv1 h d))) ""%string
     = "Unsupported flash type\n"%string).
Proof.
  cbv zeta. split.
  - intros d0 found Hout Hm Hv.
    pose proof (flash_identify_spec
                  (if cx861xx then 67108864 else 4194304) d0) as H.
    cbv zeta in H. rewrite Hout in H. destruct H as (m & v & Hops & ->).
    rewrite Hops in Hm, Hv. simpl in Hm, Hv.
    assert (m = 0x0089)
      by (repeat (destruct Hm as [Hm|Hm];
                  [try discriminate Hm; try (inversion Hm; reflexivity)|]);
          contradiction).
    assert (v = 0x88c5)
      by (repeat (destruct Hv as [Hv|Hv];
                  [try discriminate Hv; try (inversion Hv; reflexivity)|]);
          contradiction).
    subst. eexists. split; [reflexivity|]. now split.
  - intros m v rest Hops Hnot. revert Hops. unfold main.
    set (fb := if cx861xx then 67108864 else 4194304) in *.
    match goal with |- context [bind (when cx861xx ?w) ?k d] =>
      destruct (flash_enable_run cx861xx k d) as (t0 & d0 & -> & Ht0 & Hs0)
    end.
    do 2 wr_step. rewrite bind_run.
    match goal with |- context [flash_identify fb ?dx] =>
      pose proof (flash_identify_spec fb dx) as Hid; cbv zeta in Hid;
      destruct (flash_identify fb dx) as [ti di [found|why]] eqn:Ei
    end; cbn [out trace final] in *.
    + destruct Hid as (m' & v' & Hti & ->).
      rewrite !after_after. intros Hops.
      assert (Hmv : m' = m /\ v' = v).
      { revert Hops. views. rewrite Ht0, Hti. unfold startup. fold fb.
        destruct cx861xx; simpl; intros Hops; inversion Hops; auto. }
      destruct Hmv as [-> ->].
      apply find_chip_None in Hnot.
      2:{ intros c [<-|[<-|[]]]; discriminate. }
      revert Hops. rewrite Hnot. rewrite bind_printf; cbv beta.
      cbn [after ret trace out final]. intros Hops.
      split; [reflexivity|]. split.
      * revert Hops. views. rewrite Ht0, Hti. unfold startup. fold fb.
        destruct cx861xx; simpl; intros Hops; inversion Hops; auto.
      * rewrite !stdout_app. simpl. rewrite ?app_nil_r.
        apply last_last.
    + intros Hops. exfalso. revert Hops. views. rewrite Ht0.
      unfold startup. fold fb. rewrite <- !app_assoc.
      destruct Hid as [Hid|(m' & Hid)]; rewrite Hid;
        destruct cx861xx; simpl; intros Hops; inversion Hops.
Qed.

(** * More of the code *)

(** ** Invariants of whole runs *)

Lemma sat_ret A (Q : event -> Prop) (R : A -> Prop) (a : A) :
  R a -> sat Q R (ret a).
Proof.
  intros H d. split; [constructor|].
  intros a' E. injection E as <-. exact H.
Qed.

Lemma sat_halt A (Q : event -> Prop) (R : A -> Prop) (why : stop) :
  sat Q R (halt why).
Proof. intros d. split; [constructor|discriminate]. Qed.

Lemma sat_emit (Q : event -> Prop) (e : event) : Q e -> sat Q any (emit e).
Proof. intros H d. split; [repeat constructor; exact H|]. now intros. Qed.

Lemma sat_bind A B (Q : event -> Prop) (R : A -> Prop) (R' : B -> Prop)
    (m : M A) (f : A -> M B) :
  sat Q R m -> (forall a, R a -> sat Q R' (f a)) -> sat Q R' (bind m f).
Proof.
  intros Hm Hf d. unfold bind. destruct (Hm d) as [Ht Ho].
  destruct (m d) as [t d' [a|why]]; cbn [out trace final] in *.
  - destruct (Hf a (Ho a eq_refl) d') as [Ht' Ho'].
    split; [apply Forall_app; now split|exact Ho'].
  - split; [assumption|discriminate].
Qed.

Lemma sat_weaken A (Q : event -> Prop) (R R' : A -> Prop) (m : M A) :
  sat Q R m -> (forall a, R a -> R' a) -> sat Q R' m.
Proof. intros Hm HR d. destruct (Hm d) as [Ht Ho]. split; auto. Qed.

Lemma sat_when (Q : event -> Prop) (b : bool) (m : M unit) :
  sat Q any m -> sat Q any (when b m).
Proof. intros H. destruct b; [exact H|now apply sat_ret]. Qed.

Lemma sat_usb_send (Q : event -> Prop) (p : cx_fw_packet) :
  (forall r, Q (BulkOut p r)) -> sat Q any (usb_send p).
Proof.
  intros H d. unfold usb_send. destruct (bulk_out p d) as [r d'].
  split; [repeat constructor; apply H|now intros].
Qed.

Lemma sat_usb_recv (Q : event -> Prop) :
  (forall r p, Q (BulkIn r p)) -> sat Q any usb_recv.
Proof.
  intros H d. unfold usb_recv. destruct (bulk_in d) as [[r p] d'].
  split; [repeat constructor; apply H|now intros].
Qed.

(** One step through a computation: the rule that fits its head. *)
Ltac sat_step :=
  lazymatch goal with
  | |- sat _ _ (bind _ _) => eapply sat_bind; [|intros ? ?]
  | |- sat _ _ (ret _) =>
    first [apply (@sat_ret _ _ any); exact I | apply sat_ret]
  | |- sat _ _ (halt _) => apply sat_halt
  | |- sat _ _ (emit _) => apply sat_emit; first [exact I | reflexivity]
  | |- sat _ _ (printf _ _) => apply sat_emit; first [exact I | reflexivity]
  | |- sat _ _ (eprintf _ _) => apply sat_emit; first [exact I | reflexivity]
  | |- sat _ _ (when _ _) => apply sat_when
  | |- sat _ _ (if ?b then _ else _) => destruct b eqn:?
  | |- sat _ _ (match ?x with _ => _ end) => destruct x eqn:?
  end.

Ltac sat_go := repeat (sat_step || solve [eauto]).

(** *** Every packet is well formed *)

Lemma payload_length (buf : list Z) (n : Z) :
  0 <= n <= DATA_SIZE -> n <= Z.of_nat (length buf) ->
  length (payload buf n) = Z.to_nat DATA_SIZE.
Proof.
  intros Hn Hb. unfold payload.
  rewrite length_app, length_firstn, repeat_length. unfold DATA_SIZE in *. lia.
Qed.

Lemma u32_range (x : Z) : 0 <= u32 x < 4294967296.
Proof. unfold u32. apply Z.mod_pos_bound. lia. Qed.

Lemma cx_write_mem_loop_wf (n : nat) :
  forall addr count buf access,
    0 <= addr < 4294967296 -> access = MA_BYTE \/ access = MA_WORD ->
    sat sends_wf any (cx_write_mem_loop n addr count buf access).
Proof.
  induction n as [|n IH]; intros addr count buf access Ha Hacc; simpl;
    destruct (Z.gtb_spec count 0) as [Hc|Hc]; sat_go.
  - apply sat_usb_send. intros r. simpl.
    apply Z.ltb_ge in Heqb.
    assert (0 < (if count >? DATA_SIZE then DATA_SIZE else count) <= DATA_SIZE)
      by (unfold DATA_SIZE in *; destruct (Z.gtb_spec count 56); lia).
    unfold wf_packet; cbn [cmd ack_request byte_count data address access_type].
    repeat split; auto; try lia.
    apply payload_length; lia.
  - apply IH; [apply u32_range|assumption].
Qed.

Lemma cx_write_mem_wf (addr count : Z) (buf : list Z) (access : Z) :
  0 <= addr < 4294967296 -> access = MA_BYTE \/ access = MA_WORD ->
  sat sends_wf any (cx_write_mem addr count buf access).
Proof. intros. now apply cx_write_mem_loop_wf. Qed.

Lemma cx_read_mem_recv_wf (n : nat) :
  forall pbc addr count buf,
    0 <= addr < 4294967296 ->
    sat sends_wf (fun st => 0 <= snd (fst (fst st)) < 4294967296)
      (cx_read_mem_recv n pbc addr count buf).
Proof.
  induction n as [|n IH]; intros pbc addr count buf Ha; simpl;
    destruct (pbc >? 0); try (sat_go; fail).
  eapply sat_bind; [apply sat_usb_recv; intros; exact I|].
  intros [r p] _. sat_go. apply IH, u32_range.
Qed.

Lemma cx_read_mem_loop_wf (n : nat) :
  forall addr count buf access,
    0 <= addr < 4294967296 -> access = MA_BYTE \/ access = MA_WORD ->
    sat sends_wf any (cx_read_mem_loop n addr count buf access).
Proof.
  induction n as [|n IH]; intros addr count buf access Ha Hacc; simpl;
    destruct (Z.gtb_spec count 0) as [Hc|Hc]; sat_go.
  - apply sat_usb_send. intros r. simpl.
    assert (0 < (if count >? DATA_SIZE then DATA_SIZE else count) <= DATA_SIZE)
      by (unfold DATA_SIZE in *; destruct (Z.gtb_spec count 56); lia).
    unfold wf_packet; cbn [cmd ack_request byte_count data address access_type].
    repeat split; auto; lia.
  - apply cx_read_mem_recv_wf; assumption.
  - simpl in *. apply IH; assumption.
Qed.

Lemma cx_flash_write_wf (flash_base addr w : Z) :
  sat sends_wf any (cx_flash_write flash_base addr w).
Proof.
  unfold cx_flash_write. sat_go.
  apply cx_write_mem_wf; [apply u32_range|now right].
Qed.

Lemma cx_flash_read_wf (flash_base addr : Z) :
  sat sends_wf any (cx_flash_read flash_base addr).
Proof.
  unfold cx_flash_read, cx_read_mem. sat_go.
  apply cx_read_mem_loop_wf; [apply u32_range|now right].
Qed.

Lemma cx_flash_cmd_wf (flash_base c : Z) :
  sat sends_wf any (cx_flash_cmd flash_base c).
Proof. unfold cx_flash_cmd. sat_go; apply cx_flash_write_wf. Qed.

Lemma intel_decode_status_wf (status : Z) :
  sat sends_wf any (intel_decode_status status).
Proof. unfold intel_decode_status. sat_go. Qed.

Lemma intel_optimized_program_word_wf (flash_base addr w : Z) :
  sat sends_wf any (intel_optimized_program_word flash_base addr w).
Proof.
  unfold intel_optimized_program_word. sat_go.
  apply cx_write_mem_wf; [apply u32_range|now right].
Qed.

Lemma amd_optimized_program_word_wf (flash_base addr w : Z) :
  sat sends_wf any (amd_optimized_program_word flash_base addr w).
Proof.
  unfold amd_optimized_program_word. sat_go.
  apply cx_write_mem_wf; [apply u32_range|now right].
Qed.

Local Hint Resolve cx_flash_write_wf cx_flash_read_wf cx_flash_cmd_wf
  intel_decode_status_wf intel_optimized_program_word_wf
  amd_optimized_program_word_wf : core.

Lemma intel_erase_poll_wf (flash_base : Z) (n : nat) :
  forall i, sat sends_wf any (intel_erase_poll flash_base n i).
Proof. induction n as [|n IH]; intros i; simpl; sat_go. Qed.

Lemma intel_program_poll_wf (flash_base : Z) (n : nat) :
  sat sends_wf any (intel_program_poll flash_base n).
Proof. induction n as [|n IH]; simpl; sat_go. Qed.

Lemma amd_erase_poll_wf (flash_base : Z) (n : nat) :
  forall i addr, sat sends_wf any (amd_erase_poll flash_base n i addr).
Proof. induction n as [|n IH]; intros i addr; simpl; sat_go. Qed.

Lemma amd_program_poll_wf (flash_base : Z) (n : nat) :
  forall addr w, sat sends_wf any (amd_program_poll flash_base n addr w).
Proof. induction n as [|n IH]; intros addr w; simpl; sat_go. Qed.

Local Hint Resolve intel_erase_poll_wf intel_program_poll_wf
  amd_erase_poll_wf amd_program_poll_wf : core.

Lemma intel_program_words_wf (flash_base : Z) (n : nat) :
  forall i addr data slow,
    sat sends_wf any (intel_program_words flash_base n i addr data slow).
Proof. induction n as [|n IH]; intros i addr data slow; simpl; sat_go. Qed.

Lemma amd_program_words_wf (flash_base : Z) (n : nat) :
  forall i addr data slow,
    sat sends_wf any (amd_program_words flash_base n i addr data slow).
Proof. induction n as [|n IH]; intros i addr data slow; simpl; sat_go. Qed.

Local Hint Resolve intel_program_words_wf amd_program_words_wf : core.

Lemma supported_chips_wf (flash_base : Z) :
  forall c, In c (supported_chips flash_base) -> chip_wf c.
Proof.
  intros c [<-|[<-|[]]]; (split; [|split]); cbn.
  - intros f addr lock E. injection E as <-.
    unfold intel_set_block_lock. sat_go.
  - intros addr. unfold intel_erase_block. sat_go.
  - intros. unfold intel_program_block. sat_go.
  - discriminate.
  - intros addr. unfold amd_erase_block. sat_go.
  - intros. unfold amd_program_block. sat_go.
Qed.

Lemma find_chip_In (chips : list flash_chip) (m v : Z) (c : flash_chip) :
  find_chip chips m v = Some c ->
  In c chips /\ mfg c = m /\ dev c = v /\ mfg c <> 0.
Proof.
  induction chips as [|c0 chips IH]; simpl; [discriminate|].
  destruct (Z.eqb_spec (mfg c0) 0) as [|Hnz]; [discriminate|].
  destruct (Z.eqb_spec (mfg c0) m) as [Em|Em];
    destruct (Z.eqb_spec (dev c0) v) as [Ev|Ev]; cbn [andb];
    try (intros H; destruct (IH H) as (? & ? & ? & ?); now auto).
  intros E. injection E as <-. auto.
Qed.

Lemma write_block_wf (flash : flash_chip) (buf : list Z) (slow : bool)
    (addr size : Z) :
  chip_wf flash -> sat sends_wf any (write_block flash buf slow addr size).
Proof.
  intros (Hl & He & Hp). unfold write_block, lock_block.
  destruct (set_block_lock flash) as [f|].
  - pose proof (fun a l => Hl f a l eq_refl) as Hf. sat_go.
  - sat_go.
Qed.

Lemma write_run_wf (flash : flash_chip) (buf : list Z) (slow : bool)
    (size : Z) (j : nat) :
  chip_wf flash ->
  forall addr, sat sends_wf any (write_run j flash buf slow addr size).
Proof.
  intros Hc. induction j as [|j IH]; intros addr; simpl; sat_go.
  now apply write_block_wf.
Qed.

Lemma write_blocks_wf (flash : flash_chip) (buf : list Z) (slow : bool)
    (bl : list block_desc) :
  chip_wf flash ->
  forall addr, sat sends_wf any (write_blocks bl flash buf slow addr).
Proof.
  intros Hc. induction bl as [|b bl IH]; intros addr; simpl; sat_go.
  now apply write_run_wf.
Qed.

Lemma flash_identify_wf (flash_base : Z) :
  sat sends_wf (fun found => forall c, found = Some c -> chip_wf c)
    (flash_identify flash_base).
Proof.
  unfold flash_identify. sat_go.
  intros c Hc. apply find_chip_In in Hc.
  eapply supported_chips_wf, Hc.
Qed.

(** X1.  Whatever the command, the file and the board, every packet that
    [main] sends is one the boot loader accepts: a memory read with the
    acknowledgment requested or a memory write without, of 1 to 56 bytes,
    with 56 bytes of data, a 32-bit address and byte or word access. *)
Theorem main_sends_well_formed_packets (cx861xx : bool) (argv1 : string)
    (h : host) (d : usb) :
  Forall wf_packet (sent (trace (main cx861xx argv1 h d))).
Proof.
  assert (H : sat sends_wf any (main cx861xx argv1 h)).
  { unfold main. sat_go.
    - apply cx_write_mem_wf; [unfold CX861XX_FLASH_ENABLE, CX861XX_IO_BASE; lia
                             |now left].
    - apply flash_identify_wf.
    - apply write_blocks_wf; auto.
    - unfold cx_read_mem. apply cx_read_mem_loop_wf; [|now right].
      destruct cx861xx; lia.
    - unfold usage. sat_go. }
  destruct (H d) as [Ht _]. clear H.
  induction Ht as [|e t He _ IH]; simpl; [constructor|].
  destruct e; auto.
Qed.

(** ** The bytes of a transfer *)

Lemma firstn_add A (a b : nat) (l : list A) :
  firstn (a + b) l = firstn a l ++ firstn b (skipn a l).
Proof.
  revert l. induction a as [|a IH]; intros l; simpl; [reflexivity|].
  destruct l as [|x l]; simpl; [now rewrite firstn_nil|]. now rewrite IH.
Qed.

Lemma carried_payload (buf : list Z) (bc access addr c ack : Z) :
  0 <= bc <= Z.of_nat (length buf) ->
  carried (mkPacket c bc access ack addr (payload buf bc))
  = firstn (Z.to_nat bc) buf.
Proof.
  intros H. unfold carried, payload. cbn [byte_count data].
  rewrite firstn_app, length_firstn.
  replace (Z.to_nat bc - Nat.min (Z.to_nat bc) (length buf))%nat with 0%nat
    by lia.
  rewrite firstn_firstn, Nat.min_id. simpl. apply app_nil_r.
Qed.

Lemma cx_write_mem_loop_bytes (n : nat) :
  forall addr count buf access d,
    let r := cx_write_mem_loop n addr count buf access d in
    (exists m, (m <= Z.to_nat count)%nat /\
               flat_map carried (sent (trace r)) = firstn m buf) /\
    (out r = Ret 0 ->
     flat_map carried (sent (trace r)) = firstn (Z.to_nat count) buf) /\
    Forall no_in (trace r) /\
    (forall c, out r = Ret c -> c <= 0).
Proof.
  induction n as [|n IH]; intros addr count buf access d; cbv zeta; simpl.
  - destruct (Z.gtb_spec count 0) as [Hc|Hc]; simpl.
    + split; [exists 0%nat; split; [lia|reflexivity]|].
      split; [discriminate|]. split; [constructor|discriminate].
    + split; [exists 0%nat; split; [lia|reflexivity]|].
      replace (Z.to_nat count) with 0%nat by lia.
      split; [reflexivity|]. split; [constructor|].
      intros c E. injection E as <-. lia.
  - destruct (Z.gtb_spec count 0) as [Hc|Hc]; simpl.
    2:{ split; [exists 0%nat; split; [lia|reflexivity]|].
        replace (Z.to_nat count) with 0%nat by lia.
        split; [reflexivity|]. split; [constructor|].
        intros c E. injection E as <-. lia. }
    rewrite byte_count_min.
    assert (Hbc : 0 < Z.min DATA_SIZE count <= count)
      by (unfold DATA_SIZE; lia).
    destruct (Z.ltb_spec (Z.of_nat (length buf)) (Z.min DATA_SIZE count))
      as [Hb|Hb]; simpl.
    { split; [exists 0%nat; split; [lia|reflexivity]|].
      split; [discriminate|]. split; [constructor|discriminate]. }
    rewrite bind_run, usb_send_run. cbn [out trace final].
    match goal with |- context [fst (bulk_out ?p d)] =>
      destruct (bulk_out p d) as [r d']; cbn [fst snd]
    end.
    destruct (Z.ltb_spec r 0) as [Hr|Hr].
    + cbn [after bind eprintf emit ret trace out final app sent flat_map].
      rewrite carried_payload, app_nil_r by lia.
      split; [exists (Z.to_nat (Z.min DATA_SIZE count)); split; [lia|reflexivity]|].
      split; [intros E; injection E as ->; lia|].
      split; [repeat constructor|]. intros c E. injection E as <-. lia.
    + destruct (IH (u32 (addr + Z.min DATA_SIZE count))
                  (count - Z.min DATA_SIZE count)
                  (skipn (Z.to_nat (Z.min DATA_SIZE count)) buf) access d')
        as ((m & Hm & Hp) & Hfull & Hin & Hret).
      cbn [after trace out final app sent flat_map].
      rewrite carried_payload by lia. rewrite Hp.
      split.
      { exists (Z.to_nat (Z.min DATA_SIZE count) + m)%nat.
        split; [lia|]. now rewrite firstn_add. }
      split.
      { intros E. rewrite <- Hp, (Hfull E), <- firstn_add. f_equal. lia. }
      split; [constructor; [exact I|exact Hin]|exact Hret].
Qed.

(** X2.  [cx_write_mem] hands the bytes of the buffer to the board in order
    and nothing else: the bytes its packets carry, put together, are the
    start of the buffer, and all of its first [count] bytes when the
    result is 0.  It never listens on the IN endpoint, and with [count]
    bytes in the buffer it returns on every board: 0, or the negative code
    of the transfer that failed. *)
Theorem cx_write_mem_carries_buffer (addr count : Z) (buf : list Z)
    (access : Z) (d : usb) :
  let r := cx_write_mem addr count buf access d in
  (exists m, (m <= Z.to_nat count)%nat /\
             flat_map carried (sent (trace r)) = firstn m buf) /\
  (out r = Ret 0 ->
   flat_map carried (sent (trace r)) = firstn (Z.to_nat count) buf) /\
  Forall no_in (trace r) /\
  (count <= Z.of_nat (length buf) -> exists c, out r = Ret c /\ c <= 0).
Proof.
  cbv zeta. unfold cx_write_mem.
  destruct (cx_write_mem_loop_bytes (Z.to_nat count) addr count buf access d)
    as (Hp & Hfull & Hin & Hret).
  split; [exact Hp|]. split; [exact Hfull|]. split; [exact Hin|].
  intros Hb.
  destruct (out (cx_write_mem_loop (Z.to_nat count) addr count buf access d))
    as [c|why] eqn:Eo.
  - exists c. split; [reflexivity|]. now apply Hret.
  - exfalso. destruct why.
    + apply (@cx_write_mem_loop_total (Z.to_nat count) addr count buf
               access d); [lia|assumption].
    + now apply (@cx_write_mem_loop_defined (Z.to_nat count) addr count buf
                   access d Hb).
Qed.

Lemma received_app (t1 t2 : list event) :
  received (t1 ++ t2) = received t1 ++ received t2.
Proof.
  induction t1 as [|[p r|r p|a v|f a|f a|b] t1 IH]; simpl; auto.
  destruct (r <? 0); [assumption|]. now rewrite IH, app_assoc.
Qed.

Lemma cx_read_mem_recv_stores (n : nat) :
  forall pbc addr count buf d,
    let r := cx_read_mem_recv n pbc addr count buf d in
    match out r with
    | Ret (e, _, count', buf') =>
      buf' = buf ++ received (trace r) /\
      (0 <= count -> 0 <= count') /\
      (Forall full_data (trace r) ->
       count' = count - Z.of_nat (length (received (trace r)))) /\
      (forall x, e = Some x -> x < 0)
    | Stop _ => True
    end.
Proof.
  induction n as [|n IH]; intros pbc addr count buf d; cbv zeta; simpl.
  - destruct (pbc >? 0); simpl; [exact I|].
    rewrite app_nil_r. repeat split; auto; try lia; discriminate.
  - destruct (pbc >? 0); simpl.
    2:{ rewrite app_nil_r. repeat split; auto; try lia; discriminate. }
    rewrite bind_run, usb_recv_run. cbn [out trace final].
    destruct (bulk_in d) as [[r p] d']; cbn [fst snd].
    destruct (Z.ltb_spec r 0) as [Hr|Hr].
    + cbn [after bind eprintf emit ret trace out final app received].
      destruct (Z.ltb_spec r 0); [|lia]. simpl. rewrite app_nil_r.
      repeat split; auto; try lia. intros x E. injection E as <-. exact Hr.
    + destruct (Z.gtb_spec (u8 (byte_count p)) DATA_SIZE) as [H56|H56];
        [exact I|].
      destruct (Z.gtb_spec (u8 (byte_count p)) count) as [Hcnt|Hcnt];
        [exact I|]. cbn [orb].
      specialize (IH (u8 (pbc - u8 (byte_count p)))
                    (u32 (addr + u8 (byte_count p)))
                    (count - u8 (byte_count p))
                    (buf ++ firstn (Z.to_nat (u8 (byte_count p))) (data p)) d').
      cbv zeta in IH. cbn [after trace out final app received].
      destruct (Z.ltb_spec r 0); [lia|].
      destruct (cx_read_mem_recv n _ _ _ _ d') as [t1 d1 [[[[e a'] c'] b']|why]];
        cbn [trace out final] in *; [|exact I].
      destruct IH as (Hb & Hc & Hl & He).
      assert (H0 : 0 <= u8 (byte_count p)) by (unfold u8; apply Z.mod_pos_bound; lia).
      split; [now rewrite Hb, <- app_assoc|]. split; [lia|].
      split; [|exact He].
      intros Hfull. inversion Hfull as [|? ? Hp Ht]; subst.
      rewrite (Hl Ht), length_app, length_firstn. simpl in Hp. rewrite Hp.
      unfold DATA_SIZE in *. lia.
Qed.

Lemma cx_read_mem_loop_stores (n : nat) :
  forall addr count buf access d,
    let r := cx_read_mem_loop n addr count buf access d in
    match out r with
    | Ret (c, buf') =>
      buf' = buf ++ received (trace r) /\
      c <= 0 /\
      (c = 0 -> 0 <= count -> Forall full_data (trace r) ->
       Z.of_nat (length (received (trace r))) = count)
    | Stop _ => True
    end.
Proof.
  induction n as [|n IH]; intros addr count buf access d; cbv zeta; simpl.
  - destruct (Z.gtb_spec count 0) as [Hc|Hc]; simpl; [exact I|].
    rewrite app_nil_r. repeat split; auto; lia.
  - destruct (Z.gtb_spec count 0) as [Hc|Hc]; simpl.
    2:{ rewrite app_nil_r. repeat split; auto; lia. }
    rewrite bind_run, usb_send_run. cbn [out trace final].
    match goal with |- context [fst (bulk_out ?p d)] =>
      destruct (bulk_out p d) as [r d']; cbn [fst snd]
    end.
    destruct (Z.ltb_spec r 0) as [Hr|Hr].
    + cbn [after bind eprintf emit ret trace out final app received].
      rewrite app_nil_r. repeat split; auto; lia.
    + rewrite bind_run.
      match goal with |- context [cx_read_mem_recv fuel ?b addr count buf d'] =>
        pose proof (cx_read_mem_recv_stores fuel b addr count buf d') as Hi;
        cbv zeta in Hi;
        destruct (cx_read_mem_recv fuel b addr count buf d')
          as [t1 d1 [[[[e a'] c'] b']|why]]
      end; cbn [after trace out final app received] in *; [|exact I].
      destruct Hi as (Hb & Hc0 & Hl & He).
      destruct e as [x|].
      * cbn [ret trace out final]. rewrite app_nil_r.
        split; [assumption|]. specialize (He x eq_refl).
        split; [lia|]. intros; lia.
      * rewrite bind_when_printf.
        specialize (IH a' c' b' access d1). cbv zeta in IH.
        destruct (cx_read_mem_loop n a' c' b' access d1)
          as [t2 d2 [[c b2]|why]]; cbn [after trace out final] in *;
          [|exact I].
        destruct IH as (Hb2 & Hc2 & Hl2).
        rewrite !received_app.
        replace (received (if (c' >=? 1024) && (c' mod 1024 =? 0)
                           then [Stdout "." []] else [])) with (@nil Z)
          by (now destruct ((c' >=? 1024) && (c' mod 1024 =? 0))).
        cbn [app]. split; [now rewrite Hb2, Hb, <- app_assoc|].
        split; [assumption|]. intros E0 Hpos Hfull.
        apply Forall_inv_tail in Hfull.
        apply Forall_app in Hfull. destruct Hfull as (Hf1 & Hf2).
        apply Forall_app in Hf2. destruct Hf2 as (_ & Hf2).
        rewrite length_app, Nat2Z.inj_add.
        rewrite (Hl2 E0 (Hc0 Hpos) Hf2), (Hl Hf1). lia.
Qed.

(** X3.  What [cx_read_mem] stores to the buffer is what the board sent: the
    bytes of the responses that arrived, in order, each response taken up
    to its byte count.  The return code is 0 or negative.  When it is 0
    and every response filled its packet, exactly [count] bytes were
    stored. *)
Theorem cx_read_mem_stores_responses (addr count access : Z) (d : usb) :
  let r := cx_read_mem addr count access d in
  match out r with
  | Ret (c, b) =>
    b = received (trace r) /\
    c <= 0 /\
    (c = 0 -> 0 <= count -> Forall full_data (trace r) ->
     Z.of_nat (length b) = count)
  | Stop _ => True
  end.
Proof.
  cbv zeta. unfold cx_read_mem.
  pose proof (cx_read_mem_loop_stores fuel addr count [] access d) as H.
  cbv zeta in H.
  destruct (cx_read_mem_loop fuel addr count [] access d)
    as [t d1 [[c b]|why]]; cbn [trace out final] in *; [|exact I].
  destruct H as (Hb & Hc & Hl). cbn [app] in Hb. subst b. auto.
Qed.

(** ** Words on the wire *)

Lemma u16_of_bytes_of_u16 (w : Z) :
  u16_of_bytes (u8 w) (u8 (Z.shiftr (u16 w) 8)) = u16 w.
Proof.
  unfold u16_of_bytes, u8, u16.
  change 256 with (2 ^ 8). change 65536 with (2 ^ 16).
  apply Z.bits_inj'. intros n Hn. rewrite Z.lor_spec.
  destruct (Z.lt_ge_cases n 8) as [H8|H8].
  - rewrite !Z.mod_pow2_bits_low by lia.
    rewrite Z.shiftl_spec by lia. rewrite (Z.testbit_neg_r _ (n - 8)) by lia.
    now rewrite orb_false_r.
  - rewrite (Z.mod_pow2_bits_high (w mod 2 ^ 8)) by lia.
    rewrite Z.shiftl_spec by lia. cbn [orb].
    destruct (Z.lt_ge_cases n 16) as [H16|H16].
    + rewrite !Z.mod_pow2_bits_low by lia.
      rewrite Z.shiftr_spec by lia.
      replace (n - 8 + 8) with n by lia.
      now rewrite Z.mod_pow2_bits_low by lia.
    + rewrite !Z.mod_pow2_bits_high by lia. reflexivity.
Qed.

(** X4.  A word that [cx_flash_write] put on the wire comes back unchanged
    through [cx_flash_read]: when the request of the register read is
    accepted and the board answers it with one response that carries the
    two bytes the write packet for [w] carries, the result of the read is
    [w] as a 16-bit value, and it is what the log records. *)
Theorem flash_word_round_trip (flash_base addr w : Z) (d : usb)
    (r : Z) (p : cx_fw_packet) (d1 : usb) :
  let req := mkPacket FW_READ_MEM 2 MA_WORD 1 (u32 (flash_base + addr))
               (payload [] 0) in
  (1 <= fuel)%nat ->
  0 <= fst (bulk_out req d) ->
  bulk_in (snd (bulk_out req d)) = (r, p, d1) ->
  0 <= r ->
  u8 (byte_count p) = 2 ->
  firstn 2 (data p) = carried (write16 flash_base addr w) ->
  out (cx_flash_read flash_base addr d) = Ret (u16 w) /\
  In (Got16 addr (u16 w)) (trace (cx_flash_read flash_base addr d)).
Proof.
  cbv zeta. intros Hf Hout Hin Hr Hbc Hdata.
  unfold carried, write16 in Hdata. cbn [byte_count data] in Hdata.
  unfold cx_flash_read, cx_read_mem.
  destruct fuel as [|n] eqn:Ef; [lia|]. cbn [cx_read_mem_loop].
  change (2 >? 0) with true. change (2 >? DATA_SIZE) with false. cbv iota.
  rewrite bind_bind, bind_run, usb_send_run. cbn [out trace final].
  destruct (bulk_out _ d) as [ro d0]; cbn [fst snd] in *.
  destruct (Z.ltb_spec ro 0) as [|_]; [lia|].
  rewrite Ef. cbn [cx_read_mem_recv]. change (2 >? 0) with true. cbv iota.
  rewrite !bind_bind, bind_run, usb_recv_run. cbn [out trace final].
  rewrite Hin. cbn [fst snd].
  destruct (Z.ltb_spec r 0) as [|_]; [lia|].
  rewrite Hbc. change ((2 >? DATA_SIZE) || (2 >? 2)) with false. cbv iota.
  change (u8 (2 - 2)) with 0. change (2 - 2) with 0.
  assert (Hrecv : forall k a b, cx_read_mem_recv k 0 a 0 b
                                = ret (None, a, 0, b))
    by (intros [|k] a b; reflexivity).
  assert (Hloop : forall k a b, cx_read_mem_loop k a 0 b MA_WORD
                                = ret (0, b))
    by (intros [|k] a b; reflexivity).
  rewrite Hrecv, bind_ret. cbv iota beta.
  change ((0 >=? 1024) && (0 mod 1024 =? 0)) with false. cbn [when].
  rewrite !bind_bind, bind_ret, Hloop, bind_ret.
  cbn [snd app]. change (Z.to_nat 2) with 2%nat. rewrite Hdata.
  unfold payload, bytes_of_u16. change (Z.to_nat 2) with 2%nat.
  cbn [firstn app nth]. rewrite u16_of_bytes_of_u16.
  cbn [after bind emit ret trace out final app].
  split; [reflexivity|]. simpl. auto.
Qed.

(** ** The exit status *)

Lemma sat_top A (m : M A) : sat (fun _ => True) any m.
Proof.
  intros d. split; [|now intros].
  induction (trace (m d)); constructor; auto.
Qed.

Lemma flash_identify_found (flash_base : Z) :
  sat (fun _ => True)
    (fun found => forall c, found = Some c ->
                            In c (supported_chips flash_base))
    (flash_identify flash_base).
Proof.
  intros d. split; [apply sat_top|].
  intros found E. pose proof (flash_identify_spec flash_base d) as H.
  cbv zeta in H. rewrite E in H. destruct H as (m & v & _ & ->).
  intros c Hc. now apply find_chip_In in Hc.
Qed.


(** ** When the flash is written *)

(** Tests of the code among the hypotheses, as propositions. *)
Ltac prop_hyps :=
  repeat match goal with
         | H : negb _ = true |- _ => apply negb_true_iff in H
         | H : negb _ = false |- _ => apply negb_false_iff in H
         | H : (_ <? _) = true |- _ => apply Z.ltb_lt in H
         | H : (_ <? _) = false |- _ => apply Z.ltb_ge in H
         end.

Lemma no_write_writes (t : list event) : Forall no_write t -> writes t = [].
Proof.
  unfold writes. induction 1 as [|e t He _ IH]; [reflexivity|].
  destruct e as [p r|r p|a v|f a|f a|b]; simpl in *; auto.
  destruct (Z.eqb_spec (cmd p) FW_WRITE_MEM); [contradiction|assumption].
Qed.

Lemma cx_read_mem_recv_no_write (n : nat) :
  forall pbc addr count buf,
    sat no_write any (cx_read_mem_recv n pbc addr count buf).
Proof.
  induction n as [|n IH]; intros pbc addr count buf; simpl;
    destruct (pbc >? 0); try (sat_go; fail).
  eapply sat_bind; [apply sat_usb_recv; intros; exact I|].
  intros [r p] _. sat_go.
Qed.

Lemma cx_read_mem_loop_no_write (n : nat) :
  forall addr count buf access,
    sat no_write any (cx_read_mem_loop n addr count buf access).
Proof.
  induction n as [|n IH]; intros addr count buf access; simpl;
    destruct (count >? 0); sat_go.
  - apply sat_usb_send. intros r. simpl. discriminate.
  - apply cx_read_mem_recv_no_write.
Qed.

(** X6.  [main] writes to the flash only on request.  Unless a device was
    found and claimed and both arguments are there, it makes no transfer
    at all.  Unless the command is write or writeslow, malloc and fopen
    succeeded and the file holds 2 MiB or more, the memory writes of the
    whole run are those of the identification or the first of them: the
    flash enable, the two reset commands, the read-identifier sequence and
    the two commands that leave the identifier mode.  No block is
    unlocked, erased or programmed. *)
Theorem main_writes_flash_only_on_request (pr : probe) (argc : Z)
    (argv1 : string) (h : host) (d : usb) :
  let r := main_start pr argc argv1 h d in
  (ready pr argc = false -> Forall (fun e => transfer e = false) (trace r)) /\
  (writing argv1 && malloc_ok h && fopen_ok h
   && (2 * 1024 * 1024 <=? Z.of_nat (length (file h))) = false ->
   (exists n, writes (trace r) = firstn n (identification (cx861xx_dev pr))) /\
   (forall code, out r = Ret code -> ready pr argc = true ->
                 writes (trace r) = identification (cx861xx_dev pr))).
Proof.
  cbv zeta. split.
  - intros Hr.
    assert (H : sat (fun e => transfer e = false) any
                  (main_start pr argc argv1 h)).
    { unfold main_start, claim_error, usage. unfold ready in Hr.
      repeat (sat_step; try reflexivity).
      exfalso. prop_hyps.
      repeat match goal with
             | H : _ = true |- _ => rewrite H in Hr; clear H
             end.
      cbn [andb] in Hr. apply Z.leb_gt in Hr. lia. }
    apply (H d).
  - intros Hc. unfold main_start.
    rewrite !bind_printf; cbv beta. unfold ready.
    destruct (cx861xx_dev pr || cx82xxx_dev pr) eqn:Edev; cbn [negb andb].
    2:{ split; [now exists 0%nat|discriminate]. }
    rewrite bind_printf; cbv beta.
    destruct (Z.eqb_spec (claim pr) 0) as [Ecl|Ecl]; cbn [negb andb].
    2:{ split; [|discriminate]. exists 0%nat. apply no_write_writes.
        repeat constructor.
        assert (H : sat no_write any (bind (claim_error (claim pr))
                                        (fun _ => ret 2)))
          by (unfold claim_error; sat_go).
        apply (H d). }
    destruct (Z.ltb_spec argc 3) as [Ea|Ea].
    { split; [now exists 0%nat|]. intros code _ H. apply Z.leb_le in H. lia. }
    unfold main. set (fb := if cx861xx_dev pr then 67108864 else 4194304) in *.
    match goal with |- context [bind (when (cx861xx_dev pr) ?w) ?k d] =>
      destruct (flash_enable_run (cx861xx_dev pr) k d)
        as (t0 & d0 & -> & Ht0 & Hs0)
    end.
    do 2 wr_step. rewrite bind_run.
    match goal with |- context [flash_identify fb ?dx] =>
      pose proof (flash_identify_spec fb dx) as Hid; cbv zeta in Hid;
      pose proof (flash_identify_found fb dx) as [_ Hfound];
      destruct (flash_identify fb dx) as [ti di [found|why]]
    end; cbn [out trace final] in *.
    2:{ split; [|discriminate]. unfold identification, startup. fold fb.
        views. rewrite !writes_nil. unfold writes. rewrite Ht0.
        destruct Hid as [Hid|(m' & Hid)]; rewrite Hid;
          destruct (cx861xx_dev pr); cbn;
          first [now exists 5%nat | now exists 6%nat]. }
    destruct Hid as (m & v & Hti & _).
    specialize (Hfound found eq_refl).
    match goal with |- context [after ti (?k di)] =>
      assert (Hk : sat no_write any k)
    end.
    { destruct found as [flash|]; [|sat_go].
      destruct (Hfound flash eq_refl) as [<-|[<-|[]]];
        cbn [chip_size intel_28f320c3b mxic_mx29lv160b name blocks].
      all: sat_go; try apply cx_read_mem_loop_no_write;
        try (unfold usage; sat_go; fail).
      all: try match goal with
               | |- @sat ?A _ ?R _ => is_evar R; unify R (@any A)
               end;
        exfalso; unfold writing in Hc; prop_hyps;
        repeat match goal with
               | H : _ = true |- _ => rewrite H in Hc; clear H
               end;
        cbn [andb] in Hc; apply Z.leb_gt in Hc;
        match goal with
        | H : _ <= Z.of_nat (length (firstn _ _)) |- _ =>
          rewrite length_firstn in H; lia
        end. }
    destruct (Hk di) as [Hnw _]. apply no_write_writes in Hnw.
    match goal with |- context [after ti (?k di)] =>
      destruct (k di) as [tk dk ok]
    end; cbn [after trace out final] in *.
    assert (Hw : writes
                   (Stdout "cx861xx_flash v%s - Conexant CX861xx and CX82xxx USB Boot Flash Utility\n"
                      [Str VERSION]
                    :: Stdout "Copyright (c) 2015 Ondrej Zary - http://www.rainbow-software.org\n\n" []
                    :: Stdout "%s device found at bus %d, address %d\n\n"
                         [Str (if cx861xx_dev pr then "CX861xx" else "CX82xxx");
                          Int (bus pr); Int (dev_address pr)]
                    :: t0 ++ wr_log (write16 fb 0 INTEL_CMD_READ) z
                       ++ wr_log (write16 fb 0 AMD_CMD_RESET) z0 ++ ti ++ tk)
                 = identification (cx861xx_dev pr)).
    { rewrite !writes_Stdout. views. rewrite Hnw, app_nil_r.
      unfold writes. rewrite Ht0, Hti. unfold identification, startup.
      fold fb. now destruct (cx861xx_dev pr). }
    split; [|intros; exact Hw].
    exists (length (identification (cx861xx_dev pr))).
    now rewrite firstn_all.
Qed.

(** ** One block of the write pass *)

(** X7.  A block of the Intel part is locked again whatever happened to it:
    [write_block] first sends the lock-mode and the unlock command to the
    block address, and whenever it returns, the lock-mode and the lock
    command to the same address are the last it sent, whether
    [erase_block] and [program_block] returned true or false. *)
Theorem intel_block_locked_again (flash_base : Z) (buf : list Z)
    (slow : bool) (addr size : Z) (d : usb) :
  let r := write_block (intel_28f320c3b flash_base) buf slow addr size d in
  (exists rest,
     writes (trace r)
     = write16 flash_base addr INTEL_CMD_LOCKMODE
       :: write16 flash_base addr INTEL_CMD_UNLOCK :: rest) /\
  (out r = Ret tt ->
   exists mid,
     writes (trace r)
     = write16 flash_base addr INTEL_CMD_LOCKMODE
       :: write16 flash_base addr INTEL_CMD_UNLOCK :: mid
       ++ [ write16 flash_base addr INTEL_CMD_LOCKMODE;
            write16 flash_base addr INTEL_CMD_LOCK ]).
Proof.
  cbv zeta. unfold write_block, lock_block.
  cbn [set_block_lock erase_block program_block intel_28f320c3b].
  unfold intel_set_block_lock. do 2 wr_step. rewrite bind_run.
  match goal with |- context [intel_erase_block flash_base addr ?dx] =>
    destruct (intel_erase_block flash_base addr dx) as [te de [ok|why]]
  end; cbn [out trace final].
  2:{ split; [|discriminate]. eexists. views. reflexivity. }
  rewrite bind_run.
  match goal with |- context [intel_program_block flash_base addr ?w size slow de] =>
    destruct (intel_program_block flash_base addr w size slow de)
      as [tp dp [ok'|why]]
  end; cbn [out trace final].
  2:{ split; [|discriminate]. eexists. views. reflexivity. }
  wr_step. rewrite cx_flash_write_run. cbv zeta.
  cbn [after ret trace out final].
  split; [eexists; views; reflexivity|].
  intros _. exists (writes te ++ writes tp). views.
  rewrite ?writes_nil, ?app_nil_r, <- ?app_assoc. reflexivity.
Qed.

(** ** The walk over the blocks *)

Lemma bind_ext A B (m : M A) (f g : A -> M B) (d : usb) :
  (forall a d', f a d' = g a d') -> bind m f d = bind m g d.
Proof.
  intros H. unfold bind. destruct (out (m d)); [now rewrite H|reflexivity].
Qed.

Lemma bind_ret_r A (m : M A) (d : usb) : bind m (fun a => ret a) d = m d.
Proof.
  unfold bind. destruct (m d) as [t d' [a|why]]; cbn [out trace final ret].
  - now rewrite app_nil_r.
  - reflexivity.
Qed.

Lemma write_each_app (flash : flash_chip) (buf : list Z) (slow : bool)
    (l1 l2 : list (Z * Z)) B (k : unit -> M B) (d : usb) :
  bind (write_each flash buf slow (l1 ++ l2)) k d
  = bind (write_each flash buf slow l1)
      (fun _ => bind (write_each flash buf slow l2) k) d.
Proof.
  revert d. induction l1 as [|[a s] l1 IH]; intros d; cbn [app write_each].
  - now rewrite bind_ret.
  - rewrite !bind_bind. apply bind_ext. intros _ d'. apply IH.
Qed.

Lemma place_app (addr : Z) (s1 s2 : list Z) :
  place addr (s1 ++ s2) = place addr s1 ++ place (place_end addr s1) s2.
Proof.
  revert addr. induction s1 as [|s s1 IH]; intros addr; cbn; [reflexivity|].
  now rewrite IH.
Qed.

Lemma write_run_each (flash : flash_chip) (buf : list Z) (slow : bool)
    (size : Z) (j : nat) B (k : Z -> M B) :
  forall addr d,
    bind (write_run j flash buf slow addr size) k d
    = bind (write_each flash buf slow (place addr (repeat size j)))
        (fun _ => k (place_end addr (repeat size j))) d.
Proof.
  induction j as [|j IH]; intros addr d; cbn [write_run repeat place write_each].
  - now rewrite !bind_ret.
  - rewrite !bind_bind. apply bind_ext. intros _ d'. apply IH.
Qed.

Lemma write_blocks_each (flash : flash_chip) (buf : list Z) (slow : bool)
    (bl : list block_desc) :
  forall addr d,
    write_blocks bl flash buf slow addr d
    = write_each flash buf slow (place addr (block_sizes bl)) d.
Proof.
  induction bl as [|b bl IH]; intros addr d; cbn [write_blocks block_sizes].
  - reflexivity.
  - destruct (count b >? 0); [|reflexivity].
    rewrite write_run_each, place_app.
    rewrite <- (bind_ret_r (write_each flash buf slow (_ ++ _))).
    rewrite write_each_app. apply bind_ext. intros _ d'.
    now rewrite bind_ret_r.
Qed.

(** X8.  The write pass takes the blocks of the chip one after the other:
    for each chip of the catalog, the two nested loops of [main] run the
    loop body once for each entry of the layout that the block table
    gives, in order, and that layout starts at address 0, has no gap and
    no overlap, and ends at the size of the chip. *)
Theorem write_pass_walks_blocks (flash_base : Z) (c : flash_chip)
    (buf : list Z) (slow : bool) (d : usb) :
  In c (supported_chips flash_base) ->
  write_blocks (blocks c) c buf slow 0 d
  = write_each c buf slow (place 0 (block_sizes (blocks c))) d /\
  contiguous (place 0 (block_sizes (blocks c))) 0 (chip_size c) /\
  Z.of_nat (length (place 0 (block_sizes (blocks c))))
  = fold_right (fun b n => count b + n) 0 (blocks c).
Proof.
  intros Hc. split; [apply write_blocks_each|].
  destruct Hc as [<-|[<-|[]]]; cbn; repeat split; lia.
Qed.

(** ** The search of the catalog *)

(** X9.  The search loop of [flash_identify] returns the first entry whose
    two IDs are both the ones read, and looks no further than the first
    entry with manufacturer ID 0, the end marker: an entry is the result
    exactly when both its IDs match, its manufacturer ID is not 0, and no
    entry before it matches or has manufacturer ID 0.  In particular
    manufacturer ID 0 is never found, and in the catalog of the program the
    IDs 0x00c2 and 0x2249 select the MXIC part of 2 MiB, and the IDs of
    one part with those of the other select nothing. *)
Theorem find_chip_first_match (chips : list flash_chip) (m v : Z)
    (c : flash_chip) :
  (find_chip chips m v = Some c <->
   exists pre post,
     chips = pre ++ c :: post /\
     Forall (fun x => mfg x <> 0 /\ ~ (mfg x = m /\ dev x = v)) pre /\
     mfg c <> 0 /\ mfg c = m /\ dev c = v) /\
  find_chip chips 0 v = None /\
  (forall flash_base,
     find_chip (supported_chips flash_base) 0x00c2 0x2249
     = Some (mxic_mx29lv160b flash_base) /\
     chip_size (mxic_mx29lv160b flash_base) = 2 * 1024 * 1024 /\
     find_chip (supported_chips flash_base) 0x0089 0x2249 = None /\
     find_chip (supported_chips flash_base) 0x00c2 0x88c5 = None).
Proof.
  split; [|split].
  - induction chips as [|c0 chips IH]; cbn [find_chip].
    + split; [discriminate|]. intros (pre & post & E & _).
      now destruct pre.
    + destruct (Z.eqb_spec (mfg c0) 0) as [E0|E0].
      { split; [discriminate|]. intros (pre & post & E & Hpre & Hc & _).
        destruct pre as [|x pre]; injection E as -> _; [contradiction|].
        inversion Hpre as [|? ? [Hx _] _]. contradiction. }
      destruct (Z.eqb_spec (mfg c0) m) as [Em|Em];
        destruct (Z.eqb_spec (dev c0) v) as [Ev|Ev]; cbn [andb].
      * split.
        -- intros E. injection E as <-. exists [], chips. auto.
        -- intros (pre & post & E & Hpre & _).
           destruct pre as [|x pre]; injection E as -> _; [reflexivity|].
           inversion Hpre as [|? ? [_ Hx] _]. tauto.
      * rewrite IH. split.
        -- intros (pre & post & -> & Hpre & Hc).
           exists (c0 :: pre), post. split; [reflexivity|].
           split; [constructor; [tauto|assumption]|assumption].
        -- intros (pre & post & E & Hpre & Hc).
           destruct pre as [|x pre]; injection E as -> E; [tauto|].
           exists pre, post. split; [assumption|].
           split; [now inversion Hpre|assumption].
      * rewrite IH. split.
        -- intros (pre & post & -> & Hpre & Hc).
           exists (c0 :: pre), post. split; [reflexivity|].
           split; [constructor; [tauto|assumption]|assumption].
        -- intros (pre & post & E & Hpre & Hc).
           destruct pre as [|x pre]; injection E as -> E; [tauto|].
           exists pre, post. split; [assumption|].
           split; [now inversion Hpre|assumption].
      * rewrite IH. split.
        -- intros (pre & post & -> & Hpre & Hc).
           exists (c0 :: pre), post. split; [reflexivity|].
           split; [constructor; [tauto|assumption]|assumption].
        -- intros (pre & post & E & Hpre & Hc).
           destruct pre as [|x pre]; injection E as -> E; [tauto|].
           exists pre, post. split; [assumption|].
           split; [now inversion Hpre|assumption].
  - induction chips as [|c0 chips IH]; cbn [find_chip]; [reflexivity|].
    destruct (Z.eqb_spec (mfg c0) 0) as [E0|E0]; [reflexivity|].
    destruct (Z.eqb_spec (mfg c0) 0); [contradiction|]. exact IH.
  - intros flash_base. repeat split.
Qed.

(** ** The window of the flash *)

Lemma sat_mono A (Q Q' : event -> Prop) (R : A -> Prop) (m : M A) :
  (forall e, Q e -> Q' e) -> sat Q R m -> sat Q' R m.
Proof.
  intros HQ Hm d. destruct (Hm d) as [Ht Ho]. split; [|exact Ho].
  eapply Forall_impl; eauto.
Qed.

Section Window.

(** The flash is mapped from [lo] on and holds [size] bytes. *)
Variables lo size : Z.
Hypothesis lo_pos : 0 <= lo.
Hypothesis size_min : 0xaac <= size.
Hypothesis hi_u32 : lo + size < 4294967296.

Lemma u32_in (a : Z) : 0 <= a <= size -> u32 (lo + a) = lo + a.
Proof. intros H. unfold u32. apply Z.mod_small. lia. Qed.

Lemma u32_small (a : Z) : 0 <= a <= size -> u32 a = a.
Proof. intros H. unfold u32. apply Z.mod_small. lia. Qed.

Lemma cx_write_mem_loop_in (n : nat) :
  forall addr count buf access,
    lo <= addr -> addr + count <= lo + size ->
    sat (targets lo (lo + size)) any
      (cx_write_mem_loop n addr count buf access).
Proof.
  induction n as [|n IH]; intros addr count buf access Ha Hc; simpl;
    destruct (Z.gtb_spec count 0) as [Hp|Hp]; sat_go.
  - apply sat_usb_send. intros r. left. unfold within. simpl.
    destruct (Z.gtb_spec count DATA_SIZE); unfold DATA_SIZE in *; lia.
  - assert (Hbc : 0 < (if count >? DATA_SIZE then DATA_SIZE else count) <= count)
      by (destruct (Z.gtb_spec count DATA_SIZE); unfold DATA_SIZE in *; lia).
    replace (u32 (addr + (if count >? DATA_SIZE then DATA_SIZE else count)))
      with (addr + (if count >? DATA_SIZE then DATA_SIZE else count))
      by (unfold u32; symmetry; apply Z.mod_small; lia).
    apply IH; lia.
Qed.

Lemma cx_read_mem_recv_in (n : nat) :
  forall pbc addr count buf,
    lo <= addr -> addr + count <= lo + size ->
    sat (targets lo (lo + size))
      (fun st => lo <= snd (fst (fst st)) /\
                 snd (fst (fst st)) + snd (fst st) <= lo + size)
      (cx_read_mem_recv n pbc addr count buf).
Proof.
  induction n as [|n IH]; intros pbc addr count buf Ha Hc; simpl;
    destruct (pbc >? 0); try (sat_go; simpl; lia).
  eapply sat_bind; [apply sat_usb_recv; intros; exact I|].
  intros [r p] _. sat_go; try (simpl; lia).
  apply orb_false_iff in Heqb0. destruct Heqb0 as [_ Hb].
  assert (H0 : 0 <= u8 (byte_count p))
    by (unfold u8; apply Z.mod_pos_bound; lia).
  destruct (Z.gtb_spec (u8 (byte_count p)) count); [discriminate|].
  replace (u32 (addr + u8 (byte_count p))) with (addr + u8 (byte_count p))
    by (unfold u32; symmetry; apply Z.mod_small; lia).
  apply IH; lia.
Qed.

Lemma cx_read_mem_loop_in (n : nat) :
  forall addr count buf access,
    lo <= addr -> addr + count <= lo + size ->
    sat (targets lo (lo + size)) any
      (cx_read_mem_loop n addr count buf access).
Proof.
  induction n as [|n IH]; intros addr count buf access Ha Hc; simpl;
    destruct (Z.gtb_spec count 0) as [Hp|Hp]; sat_go.
  - apply sat_usb_send. intros r. left. unfold within. simpl.
    destruct (Z.gtb_spec count DATA_SIZE); unfold DATA_SIZE in *; lia.
  - apply cx_read_mem_recv_in; assumption.
  - simpl in *. apply IH; lia.
Qed.

Lemma cx_flash_write_in (addr w : Z) :
  0 <= addr -> addr + 2 <= size ->
  sat (targets lo (lo + size)) any (cx_flash_write lo addr w).
Proof.
  intros Ha Hs. unfold cx_flash_write, cx_write_mem. sat_go.
  rewrite u32_in by lia. apply cx_write_mem_loop_in; lia.
Qed.

Lemma cx_flash_read_in (addr : Z) :
  0 <= addr -> addr + 2 <= size ->
  sat (targets lo (lo + size)) any (cx_flash_read lo addr).
Proof.
  intros Ha Hs. unfold cx_flash_read, cx_read_mem. sat_go.
  rewrite u32_in by lia. apply cx_read_mem_loop_in; lia.
Qed.

Lemma optimized_program_word_in (pcmd addr w : Z) :
  2 <= addr -> addr + 2 <= size ->
  sat (targets lo (lo + size)) any
    (cx_write_mem (u32 (lo + addr - 2)) 4
       (bytes_of_u16 pcmd ++ bytes_of_u16 w) MA_WORD ;; ret tt).
Proof.
  intros Ha Hs. unfold cx_write_mem. sat_go.
  replace (lo + addr - 2) with (lo + (addr - 2)) by lia.
  rewrite u32_in by lia. apply cx_write_mem_loop_in; lia.
Qed.

Lemma cx_flash_cmd_in (c : Z) :
  sat (targets lo (lo + size)) any (cx_flash_cmd lo c).
Proof. unfold cx_flash_cmd. sat_go; apply cx_flash_write_in; lia. Qed.

Lemma intel_decode_status_in (status : Z) :
  sat (targets lo (lo + size)) any (intel_decode_status status).
Proof. unfold intel_decode_status. sat_go. Qed.

Ltac zlia :=
  repeat match goal with
         | H : (_ =? _) = false |- _ => apply Z.eqb_neq in H
         | H : (_ =? _) = true |- _ => apply Z.eqb_eq in H
         end;
  lia.

(** A step within the window: the rule that fits, then the bounds. *)
Ltac in_window :=
  repeat first
    [ apply cx_flash_write_in; zlia
    | apply cx_flash_read_in; zlia
    | apply cx_flash_cmd_in
    | apply intel_decode_status_in
    | apply optimized_program_word_in; zlia
    | sat_step ].

Lemma intel_erase_poll_in (n : nat) :
  forall i, sat (targets lo (lo + size)) any (intel_erase_poll lo n i).
Proof. induction n as [|n IH]; intros i; simpl; in_window; auto. Qed.

Lemma intel_program_poll_in (n : nat) :
  sat (targets lo (lo + size)) any (intel_program_poll lo n).
Proof. induction n as [|n IH]; simpl; in_window; auto. Qed.

Lemma amd_erase_poll_in (n : nat) :
  forall i addr,
    0 <= addr -> addr + 2 <= size ->
    sat (targets lo (lo + size)) any (amd_erase_poll lo n i addr).
Proof.
  induction n as [|n IH]; intros i addr Ha Hs; simpl; in_window; auto.
Qed.

Lemma amd_program_poll_in (n : nat) :
  forall addr w,
    0 <= addr -> addr + 2 <= size ->
    sat (targets lo (lo + size)) any (amd_program_poll lo n addr w).
Proof.
  induction n as [|n IH]; intros addr w Ha Hs; simpl; in_window; auto.
Qed.

Lemma intel_program_words_in (n : nat) :
  forall i addr data slow,
    0 <= addr -> 0 <= i -> addr + 2 * (i + Z.of_nat n) <= size ->
    sat (targets lo (lo + size)) any
      (intel_program_words lo n i addr data slow).
Proof.
  induction n as [|n IH]; intros i addr data slow Ha Hi Hs; simpl;
    [sat_go|].
  assert (Hu : u32 (addr + i * 2) = addr + i * 2) by (apply u32_small; lia).
  unfold intel_optimized_program_word. rewrite Hu.
  in_window; try apply intel_program_poll_in; try (apply IH; lia).
Qed.

Lemma amd_program_words_in (n : nat) :
  forall i addr data slow,
    0 <= addr -> 0 <= i -> addr + 2 * (i + Z.of_nat n) <= size ->
    sat (targets lo (lo + size)) any
      (amd_program_words lo n i addr data slow).
Proof.
  induction n as [|n IH]; intros i addr data slow Ha Hi Hs; simpl;
    [sat_go|].
  assert (Hu : u32 (addr + i * 2) = addr + i * 2) by (apply u32_small; lia).
  unfold amd_optimized_program_word. rewrite Hu.
  in_window; try (apply amd_program_poll_in; lia); try (apply IH; lia).
Qed.

(** The functions of a chip keep to the window when they are given a
    block of it. *)
Lemma supported_chips_in (c : flash_chip) (addr bsize : Z) :
  In c (supported_chips lo) ->
  0 <= addr -> 2 <= bsize -> addr + bsize <= size ->
  (forall f lock, set_block_lock c = Some f ->
                  sat (targets lo (lo + size)) any (f addr lock)) /\
  sat (targets lo (lo + size)) any (erase_block c addr) /\
  (forall data slow,
     sat (targets lo (lo + size)) any (program_block c addr data bsize slow)).
Proof.
  intros Hc Ha Hb Hs.
  assert (Hn : addr + 2 * (0 + Z.of_nat (Z.to_nat (bsize / 2))) <= size).
  { rewrite Z2Nat.id by (apply Z.div_pos; lia).
    pose proof (Z.mul_div_le bsize 2). lia. }
  destruct Hc as [<-|[<-|[]]]; (split; [|split]); cbn.
  - intros f lock E. injection E as <-.
    unfold intel_set_block_lock. in_window.
  - unfold intel_erase_block. in_window. apply intel_erase_poll_in.
  - intros. unfold intel_program_block. in_window.
    apply intel_program_words_in; lia.
  - discriminate.
  - unfold amd_erase_block. in_window. apply amd_erase_poll_in; lia.
  - intros. unfold amd_program_block. in_window.
    apply amd_program_words_in; lia.
Qed.

End Window.

Lemma targets_wider (lo hi hi' : Z) (e : event) :
  hi <= hi' -> targets lo hi e -> targets lo hi' e.
Proof.
  intros H. destruct e as [p r|r p|a v|f a|f a|b]; simpl; auto.
  unfold within. intros [Hw|He]; [left; lia|now right].
Qed.

Lemma sat_ext A (Q : event -> Prop) (R : A -> Prop) (m m' : M A) :
  (forall d, m d = m' d) -> sat Q R m' -> sat Q R m.
Proof. intros E H d. rewrite E. apply H. Qed.

Lemma write_each_in (lo : Z) (c : flash_chip) (buf : list Z) (slow : bool)
    (l : list (Z * Z)) :
  0 <= lo -> lo + chip_size c < 4294967296 -> 0xaac <= chip_size c ->
  In c (supported_chips lo) ->
  Forall (fun b => 0 <= fst b /\ 2 <= snd b /\ fst b + snd b <= chip_size c) l ->
  sat (targets lo (lo + chip_size c)) any (write_each c buf slow l).
Proof.
  intros Hlo Hhi Hmin Hc. induction 1 as [|[a s] l (Ha & Hs & Has) _ IH];
    cbn [write_each fst snd] in *; [sat_go|].
  destruct (@supported_chips_in lo (chip_size c) Hlo Hmin Hhi c a s Hc Ha Hs Has)
    as (Hl & He & Hp).
  unfold write_block, lock_block.
  destruct (set_block_lock c) as [f|].
  - pose proof (fun l => Hl f l eq_refl) as Hf. sat_go.
  - sat_go.
Qed.

Lemma layout_in_chip (flash_base : Z) (c : flash_chip) :
  In c (supported_chips flash_base) ->
  Forall (fun b => 0 <= fst b /\ 2 <= snd b /\ fst b + snd b <= chip_size c)
    (place 0 (block_sizes (blocks c))).
Proof.
  intros Hc. apply Forall_forall. intros b Hb.
  assert (H : forallb (fun b => (0 <=? fst b) && (2 <=? snd b)
                                && (fst b + snd b <=? chip_size c))
                (place 0 (block_sizes (blocks c))) = true)
    by (destruct Hc as [<-|[<-|[]]]; vm_compute; reflexivity).
  rewrite forallb_forall in H. specialize (H b Hb).
  apply andb_true_iff in H. destruct H as [H H3].
  apply andb_true_iff in H. destruct H as [H1 H2].
  apply Z.leb_le in H1, H2, H3. auto.
Qed.

Lemma flash_identify_in (lo size : Z) :
  0 <= lo -> 0xaac <= size -> lo + size < 4294967296 ->
  sat (targets lo (lo + size))
    (fun found => forall c, found = Some c -> In c (supported_chips lo))
    (flash_identify lo).
Proof.
  intros Hlo Hmin Hhi. unfold flash_identify.
  repeat first
    [ apply cx_flash_write_in; lia
    | apply cx_flash_read_in; lia
    | apply cx_flash_cmd_in; lia
    | sat_step ].
  intros c Hc. now apply find_chip_In in Hc.
Qed.

(** X10.  [main] keeps to the flash: whatever the command, the file and the
    board, the bytes that each of its packets addresses lie in the 4 MiB
    from [flash_base] on; the one exception is the write of the one byte
    of the flash enable register of the CX861xx. *)
Theorem main_keeps_to_flash_window (cx861xx : bool) (argv1 : string)
    (h : host) (d : usb) :
  let flash_base := if cx861xx then 0x04000000 else 0x0400000 in
  Forall (fun p => within flash_base (flash_base + 4 * 1024 * 1024) p \/
                   (cmd p = FW_WRITE_MEM /\
                    address p = CX861XX_FLASH_ENABLE /\ byte_count p = 1))
    (sent (trace (main cx861xx argv1 h d))).
Proof.
  cbv zeta. set (fb := if cx861xx then 67108864 else 4194304).
  assert (Hfb : 0 <= fb /\ fb + 4 * 1024 * 1024 < 4294967296)
    by (unfold fb; destruct cx861xx; lia).
  assert (H : sat (targets fb (fb + 4 * 1024 * 1024)) any
                (main cx861xx argv1 h)).
  { unfold main. fold fb.
    repeat first
      [ apply cx_flash_write_in; lia
      | apply flash_identify_in; lia
      | sat_step ].
    - unfold cx_write_mem. simpl. sat_go.
      apply sat_usb_send. intros r. right. repeat split.
    - assert (Hc : In f (supported_chips fb)) by auto.
      assert (Hs : 0xaac <= chip_size f <= 4 * 1024 * 1024)
        by (destruct Hc as [<-|[<-|[]]]; cbn; lia).
      apply sat_mono with (Q := targets fb (fb + chip_size f));
        [intros e; apply targets_wider; lia|].
      eapply sat_ext; [intros d'; apply write_blocks_each|].
      apply write_each_in; try lia; [assumption|].
      now apply layout_in_chip with (flash_base := fb).
    - assert (Hc : In f (supported_chips fb)) by auto.
      assert (Hs : 0xaac <= chip_size f <= 4 * 1024 * 1024)
        by (destruct Hc as [<-|[<-|[]]]; cbn; lia).
      unfold cx_read_mem. apply cx_read_mem_loop_in; lia.
    - unfold usage. sat_go. }
  destruct (H d) as [Ht _]. clear H.
  induction Ht as [|e t He _ IH]; simpl; [constructor|].
  destruct e; auto.
Qed.

(** ** Reads and writes stay inside their objects *)

Lemma safe_ret A (a : A) : safe (ret a).
Proof. intros d due _. discriminate. Qed.

Lemma safe_spinning A : safe (@halt A Spinning).
Proof. intros d due _. discriminate. Qed.

Lemma safe_emit (e : event) : safe (emit e).
Proof. intros d due _. discriminate. Qed.

Lemma safe_bind A B (m : M A) (f : A -> M B) :
  safe m -> (forall a, safe (f a)) -> safe (bind m f).
Proof.
  intros Hm Hf d due. unfold bind. specialize (Hm d due).
  destruct (m d) as [t d' [a|why]]; cbn [out trace final] in *.
  - rewrite track_app. destruct (track due t) as [due'|]; [|congruence].
    apply Hf.
  - intros H. specialize (Hm H). congruence.
Qed.

Lemma safe_when (b : bool) (m : M unit) : safe m -> safe (when b m).
Proof. intros H. destruct b; [exact H|apply safe_ret]. Qed.

Ltac safe_step :=
  lazymatch goal with
  | |- safe (bind _ _) => apply safe_bind; [|intros ?]
  | |- safe (ret _) => apply safe_ret
  | |- safe (halt Spinning) => apply safe_spinning
  | |- safe (emit _) => apply safe_emit
  | |- safe (printf _ _) => apply safe_emit
  | |- safe (eprintf _ _) => apply safe_emit
  | |- safe (when _ _) => apply safe_when
  | |- safe (if ?b then _ else _) => destruct b eqn:?
  | |- safe (match ?x with _ => _ end) => destruct x eqn:?
  end.

Ltac safe_go := repeat (safe_step || solve [eauto]).

Lemma cx_write_mem_safe (addr count : Z) (buf : list Z) (access : Z) :
  count <= Z.of_nat (length buf) -> safe (cx_write_mem addr count buf access).
Proof.
  intros Hb d due _. unfold cx_write_mem.
  now apply cx_write_mem_loop_defined.
Qed.

Lemma cx_read_mem_safe (addr count access : Z) :
  u32 addr = addr -> safe (cx_read_mem addr count access).
Proof.
  intros Ha d due Ht. unfold cx_read_mem in *.
  destruct (track due (trace (cx_read_mem_loop fuel addr count [] access d)))
    as [due'|] eqn:Et; [|congruence].
  now destruct (cx_read_mem_loop_chunks fuel count [] access d due Ha Et)
    as (_ & _ & H & _).
Qed.

Lemma cx_flash_write_safe (flash_base addr w : Z) :
  safe (cx_flash_write flash_base addr w).
Proof.
  unfold cx_flash_write. safe_go. apply cx_write_mem_safe. simpl. lia.
Qed.

Lemma cx_flash_read_safe (flash_base addr : Z) :
  safe (cx_flash_read flash_base addr).
Proof.
  unfold cx_flash_read. safe_go. apply cx_read_mem_safe, u32_idem.
Qed.

Lemma cx_flash_cmd_safe (flash_base c : Z) : safe (cx_flash_cmd flash_base c).
Proof. unfold cx_flash_cmd. safe_go; apply cx_flash_write_safe. Qed.

Lemma intel_decode_status_safe (status : Z) :
  safe (intel_decode_status status).
Proof. unfold intel_decode_status. safe_go. Qed.

Lemma intel_optimized_program_word_safe (flash_base addr w : Z) :
  safe (intel_optimized_program_word flash_base addr w).
Proof.
  unfold intel_optimized_program_word. safe_go.
  apply cx_write_mem_safe. simpl. lia.
Qed.

Lemma amd_optimized_program_word_safe (flash_base addr w : Z) :
  safe (amd_optimized_program_word flash_base addr w).
Proof.
  unfold amd_optimized_program_word. safe_go.
  apply cx_write_mem_safe. simpl. lia.
Qed.

Local Hint Resolve cx_flash_write_safe cx_flash_read_safe cx_flash_cmd_safe
  intel_decode_status_safe intel_optimized_program_word_safe
  amd_optimized_program_word_safe : core.

Lemma intel_erase_poll_safe (flash_base : Z) (n : nat) :
  forall i, safe (intel_erase_poll flash_base n i).
Proof. induction n as [|n IH]; intros i; simpl; safe_go. Qed.

Lemma intel_program_poll_safe (flash_base : Z) (n : nat) :
  safe (intel_program_poll flash_base n).
Proof. induction n as [|n IH]; simpl; safe_go. Qed.

Lemma amd_erase_poll_safe (flash_base : Z) (n : nat) :
  forall i addr, safe (amd_erase_poll flash_base n i addr).
Proof. induction n as [|n IH]; intros i addr; simpl; safe_go. Qed.

Lemma amd_program_poll_safe (flash_base : Z) (n : nat) :
  forall addr w, safe (amd_program_poll flash_base n addr w).
Proof. induction n as [|n IH]; intros addr w; simpl; safe_go. Qed.

Local Hint Resolve intel_erase_poll_safe intel_program_poll_safe
  amd_erase_poll_safe amd_program_poll_safe : core.

Lemma intel_program_words_safe (flash_base : Z) (n : nat) :
  forall i addr data slow,
    0 <= i -> (Z.to_nat i + n <= length data)%nat ->
    safe (intel_program_words flash_base n i addr data slow).
Proof.
  induction n as [|n IH]; intros i addr data slow Hi Hl; simpl; [safe_go|].
  destruct (nth_error data (Z.to_nat i)) as [w|] eqn:En.
  2:{ apply nth_error_None in En. lia. }
  safe_go; apply IH; lia.
Qed.

Lemma amd_program_words_safe (flash_base : Z) (n : nat) :
  forall i addr data slow,
    0 <= i -> (Z.to_nat i + n <= length data)%nat ->
    safe (amd_program_words flash_base n i addr data slow).
Proof.
  induction n as [|n IH]; intros i addr data slow Hi Hl; simpl; [safe_go|].
  destruct (nth_error data (Z.to_nat i)) as [w|] eqn:En.
  2:{ apply nth_error_None in En. lia. }
  safe_go; apply IH; lia.
Qed.

Lemma safe_bind_post A B (Q : event -> Prop) (R : A -> Prop) (m : M A)
    (f : A -> M B) :
  safe m -> sat Q R m -> (forall a, R a -> safe (f a)) -> safe (bind m f).
Proof.
  intros Hm Hs Hf d due. unfold bind. specialize (Hm d due).
  destruct (Hs d) as [_ Ho].
  destruct (m d) as [t d' [a|why]]; cbn [out trace final] in *.
  - rewrite track_app. destruct (track due t) as [due'|]; [|congruence].
    now apply Hf, Ho.
  - intros H. specialize (Hm H). congruence.
Qed.

Lemma words_of_bytes_length (n : nat) :
  forall l, (length l <= n)%nat ->
            length (words_of_bytes l) = (length l / 2)%nat.
Proof.
  induction n as [|n IH]; intros [|lo [|hi l]] H;
    cbn [length words_of_bytes] in *; try reflexivity; try lia.
  rewrite IH by lia.
  replace (S (S (length l))) with (1 * 2 + length l)%nat by lia.
  rewrite Nat.div_add_l by lia. lia.
Qed.

Lemma words_at_length (buf : list Z) (addr bsize limit : Z) :
  0 <= addr -> 0 <= bsize -> addr + bsize <= limit ->
  limit <= Z.of_nat (length buf) ->
  (Z.to_nat (bsize / 2) <= length (words_at buf addr))%nat.
Proof.
  intros Ha Hb Hl Hbuf. unfold words_at.
  rewrite (@words_of_bytes_length (length (skipn (Z.to_nat addr) buf)))
    by lia.
  rewrite length_skipn.
  apply Nat2Z.inj_le. rewrite Z2Nat.id by (apply Z.div_pos; lia).
  rewrite Nat2Z.inj_div. apply Z.div_le_mono; lia.
Qed.

Lemma supported_chips_safe (flash_base : Z) (c : flash_chip) :
  In c (supported_chips flash_base) ->
  (forall f addr lock, set_block_lock c = Some f -> safe (f addr lock)) /\
  (forall addr, safe (erase_block c addr)) /\
  (forall addr data bsize slow,
     (Z.to_nat (bsize / 2) <= length data)%nat ->
     safe (program_block c addr data bsize slow)).
Proof.
  intros [<-|[<-|[]]]; (split; [|split]); cbn.
  - intros f addr lock E. injection E as <-.
    unfold intel_set_block_lock. safe_go.
  - intros addr. unfold intel_erase_block. safe_go.
  - intros. unfold intel_program_block. safe_go.
    apply intel_program_words_safe; simpl; lia.
  - discriminate.
  - intros addr. unfold amd_erase_block. safe_go.
  - intros. unfold amd_program_block. safe_go.
    apply amd_program_words_safe; simpl; lia.
Qed.

Lemma write_each_safe (flash_base : Z) (c : flash_chip) (buf : list Z)
    (slow : bool) (l : list (Z * Z)) :
  In c (supported_chips flash_base) ->
  Forall (fun b => (Z.to_nat (snd b / 2)
                    <= length (words_at buf (fst b)))%nat) l ->
  safe (write_each c buf slow l).
Proof.
  intros Hc. destruct (supported_chips_safe Hc) as (Hl & He & Hp).
  induction 1 as [|[a s] l Hb _ IH]; cbn [write_each fst snd] in *;
    [safe_go|].
  unfold write_block, lock_block.
  destruct (set_block_lock c) as [f|].
  - pose proof (fun a l => Hl f a l eq_refl) as Hf. safe_go.
  - safe_go.
Qed.

Lemma flash_identify_safe (flash_base : Z) : safe (flash_identify flash_base).
Proof. unfold flash_identify. safe_go. Qed.

(** X11.  [main] stays inside its buffers: on a board whose responses keep
    step with the requests, whatever the command and the file, no [memcpy]
    of the run reads or writes outside the packet or the buffer it is
    given, and no block is programmed from beyond the end of the image.
    The run ends with an exit status or is still polling. *)
Theorem main_stays_in_buffers (cx861xx : bool) (argv1 : string)
    (h : host) (d : usb) :
  in_step (trace (main cx861xx argv1 h d)) = true ->
  out (main cx861xx argv1 h d) <> Stop Undefined.
Proof.
  intros Hstep.
  assert (H : safe (main cx861xx argv1 h)).
  { unfold main.
    repeat first
      [ eapply safe_bind_post;
        [apply flash_identify_safe|apply flash_identify_found|intros ? ?]
      | safe_step ]; auto.
    - apply cx_write_mem_safe. simpl. lia.
    - assert (Hc : In f (supported_chips (if cx861xx then 67108864 else 4194304)))
        by auto.
      intros d' due. rewrite write_blocks_each. revert d' due.
      apply (write_each_safe _ _ Hc).
      prop_hyps.
      match goal with
      | H : _ <= Z.of_nat (length (firstn _ _)) |- _ =>
        rewrite length_firstn in H
      end.
      eapply Forall_impl; [|apply (layout_in_chip Hc)].
      intros [ba bs] (Ha & Hs & Has). cbn [fst snd] in *.
      apply words_at_length with (limit := chip_size f); try lia.
      rewrite length_firstn. lia.
    - apply cx_read_mem_safe. unfold u32. apply Z.mod_small.
      destruct cx861xx; lia.
    - unfold usage. safe_go. }
  apply (H d 0). unfold in_step in Hstep.
  destruct (track 0 (trace (main cx861xx argv1 h d))); congruence.
Qed.

(** ** The slow mode *)

Lemma passed_no_reads (t : list event) : reads t = [] -> Forall passed (ops t).
Proof.
  induction t as [|[p r|r p|a v|f a|f a|b] t IH]; simpl; intros H;
    try discriminate; auto.
  destruct (cmd p =? FW_WRITE_MEM); [|discriminate].
  constructor; [exact I|auto].
Qed.

Lemma passed_prints (l : list string) :
  Forall passed (ops (map (fun f => Stdout f []) l)).
Proof. rewrite ops_prints. constructor. Qed.

Lemma intel_program_poll_ops (flash_base : Z) (n : nat) :
  forall d,
    let r := intel_program_poll flash_base n d in
    match out r with
    | Ret status =>
      Z.testbit status 7 = true /\
      exists pre, ops (trace r) = pre ++ [Rd 0 status] /\ Forall passed pre
    | Stop _ => Forall passed (ops (trace r))
    end.
Proof.
  induction n as [|n IH]; intros d; cbv zeta; simpl; [constructor|].
  rewrite bind_run.
  destruct (cx_flash_read_views flash_base 0 d) as (_ & Ho).
  destruct (cx_flash_read flash_base 0 d) as [t1 d1 [status|why]];
    cbn [out trace final] in *.
  2:{ rewrite Ho. constructor. }
  unfold INTEL_ST_READY. rewrite flag_bit by lia.
  destruct (Z.testbit status 7) eqn:E7.
  - cbn [after ret trace out final]. split; [assumption|].
    exists []. rewrite app_nil_r, Ho. split; [reflexivity|constructor].
  - specialize (IH d1). cbv zeta in IH.
    destruct (intel_program_poll flash_base n d1) as [t2 d2 [s2|why]];
      cbn [after trace out final] in *; rewrite ops_app, Ho.
    + destruct IH as (H7 & pre & -> & Hpre). split; [assumption|].
      exists (Rd 0 status :: pre). split; [reflexivity|].
      constructor; [|assumption]. unfold passed. congruence.
    + constructor; [|assumption]. unfold passed. congruence.
Qed.

Lemma intel_program_words_slow (flash_base addr : Z) (data : list Z)
    (n : nat) :
  forall i d,
    let r := intel_program_words flash_base n (Z.of_nat i) addr data true d in
    match out r with
    | Ret false =>
      exists pre status,
        ops (trace r)
        = pre ++ [Rd 0 status; Wr (write16 flash_base 0 INTEL_CMD_READ)] /\
        Forall passed pre /\
        Z.testbit status 7 = true /\
        Z.land status INTEL_ST_ERROR_MASK <> 0
    | _ => Forall passed (ops (trace r))
    end.
Proof.
  induction n as [|n IH]; intros i d; cbv zeta; simpl; [constructor|].
  rewrite Nat2Z.id. destruct (nth_error data i) as [w|] eqn:En;
    [|constructor].
  replace (Z.of_nat i + 1) with (Z.of_nat (S i)) by lia.
  destruct (w =? 65535); [apply IH|].
  rewrite bind_when_printf.
  match goal with
  | |- context [bind (if Z.of_nat i =? 0 then _ else _) ?k d] =>
    destruct (intel_word_run flash_base addr i w k d)
      as (tw & dw & -> & _ & Hwr)
  end.
  apply passed_no_reads in Hwr. rewrite after_after, bind_run.
  pose proof (intel_program_poll_ops flash_base fuel dw) as Hp.
  cbv zeta in Hp.
  destruct (intel_program_poll flash_base fuel dw) as [tp dp [status|why]];
    cbn [out trace final] in *.
  2:{ views. rewrite ?ops_dot. cbn [app]. apply Forall_app. now split. }
  destruct Hp as (H7 & pre & Hpre & Hpp).
  unfold flag. destruct (Z.eqb_spec (Z.land status INTEL_ST_ERROR_MASK) 0)
    as [Eok|Ebad]; cbn [negb].
  - specialize (IH (S i) dp). cbv zeta in IH.
    assert (Hhead : Forall passed (ops tw ++ ops tp)).
    { apply Forall_app. split; [assumption|]. rewrite Hpre.
      apply Forall_app. split; [assumption|]. repeat constructor.
      unfold passed. auto. }
    destruct (intel_program_words flash_base n (Z.of_nat (S i)) addr data
                true dp) as [tr dr [[|]|why]];
      cbn [after trace out final] in *; views; rewrite ?ops_dot; cbn [app].
    + rewrite app_assoc. apply Forall_app. now split.
    + destruct IH as (pre' & s' & -> & Hp' & Hs').
      exists ((ops tw ++ ops tp) ++ pre'), s'.
      split; [now rewrite <- !app_assoc|].
      split; [apply Forall_app; now split|assumption].
    + rewrite app_assoc. apply Forall_app. now split.
  - rewrite bind_printf; cbv beta.
    rewrite bind_run, intel_decode_status_run. cbn [out trace final].
    wr_step. cbn [after ret trace out final]. views.
    rewrite ?ops_dot, ?ops_prints, Hpre. cbn [app].
    exists (ops tw ++ pre), status.
    split; [now rewrite <- !app_assoc|].
    split; [apply Forall_app; now split|now split].
Qed.

(** X12.  In slow mode [intel_program_block] gives up at the first failure and
    only there.  When it returns false, the last register read of the
    block found the status ready with a bit of the mask 0x5a set, the
    read-array command follows it and nothing else, and every status
    before was not ready or had no bit of the mask set.  When it returns
    true, every status read of the block was not ready or had no bit of
    the mask set. *)
Theorem intel_slow_mode_stops_at_error (flash_base addr : Z)
    (data : list Z) (size : Z) (d : usb) :
  let r := intel_program_block flash_base addr data size true d in
  match out r with
  | Ret false =>
    exists pre status,
      ops (trace r)
      = pre ++ [Rd 0 status; Wr (write16 flash_base 0 INTEL_CMD_READ)] /\
      Forall passed pre /\
      Z.testbit status 7 = true /\
      Z.land status INTEL_ST_ERROR_MASK <> 0
  | _ => Forall passed (ops (trace r))
  end.
Proof.
  cbv zeta. unfold intel_program_block.
  rewrite bind_printf; cbv beta. do 2 wr_step. rewrite bind_run.
  match goal with |- context [intel_program_words _ ?n _ _ _ _ ?d2] =>
    pose proof (intel_program_words_slow flash_base addr data n 0%nat d2) as H
  end.
  cbv zeta in H. change (Z.of_nat 0) with 0 in H.
  destruct (intel_program_words flash_base (Z.to_nat (size / 2)) 0 addr
              data true _) as [tl dl [[|]|why]]; cbn [out trace final] in *.
  - wr_step. rewrite bind_printf; cbv beta. cbn [after ret trace out final].
    views. repeat constructor. apply Forall_app. split; [assumption|].
    repeat constructor.
  - cbn [after ret trace out final]. views.
    destruct H as (pre & status & -> & Hp & Hs).
    eexists (_ :: _ :: pre), status. rewrite app_nil_r.
    split; [reflexivity|]. split; [repeat constructor; assumption|assumption].
  - views. repeat constructor. assumption.
Qed.

Lemma amd_program_poll_ops (flash_base addr w : Z) (n : nat) :
  forall d,
    let r := amd_program_poll flash_base n addr w d in
    match out r with
    | Ret true => In (Rd addr w) (ops (trace r))
    | Ret false =>
      exists pre status,
        ops (trace r)
        = pre ++ [ Rd addr status;
                   Wr (write16 flash_base 0 AMD_CMD_BYPASS_RESET1);
                   Wr (write16 flash_base 0 AMD_CMD_BYPASS_RESET2);
                   Wr (write16 flash_base 0 AMD_CMD_RESET) ] /\
        status <> w /\ Z.testbit status 5 = true
    | Stop _ => True
    end.
Proof.
  induction n as [|n IH]; intros d; cbv zeta; simpl; [exact I|].
  rewrite bind_run.
  destruct (cx_flash_read_views flash_base addr d) as (_ & Ho).
  destruct (cx_flash_read flash_base addr d) as [t1 d1 [status|why]];
    cbn [out trace final] in *; [|exact I].
  unfold AMD_ST_TIMEOUT. rewrite flag_bit by lia.
  destruct (Z.eqb_spec status w) as [->|Ene]; cbn [negb andb].
  - cbn [after ret trace out final]. rewrite app_nil_r, Ho. now left.
  - destruct (Z.testbit status 5) eqn:E5.
    + rewrite bind_printf; cbv beta. do 3 wr_step.
      cbn [after ret trace out final]. views. rewrite Ho.
      exists [], status. now repeat split.
    + specialize (IH d1). cbv zeta in IH.
      destruct (amd_program_poll flash_base n addr w d1)
        as [t2 d2 [[|]|why]]; cbn [after trace out final] in *;
        rewrite ?ops_app, ?Ho; [|  |exact I].
      * now right.
      * destruct IH as (pre & s & -> & Hs). exists (Rd addr status :: pre), s.
        now split.
Qed.

Lemma amd_program_words_slow (flash_base addr : Z) (data : list Z)
    (n : nat) :
  forall i d,
    let r := amd_program_words flash_base n (Z.of_nat i) addr data true d in
    match out r with
    | Ret true =>
      forall j, (i <= j < i + n)%nat -> to_program data j = true ->
                In (Rd (u32 (addr + Z.of_nat j * 2)) (nth j data 0))
                  (ops (trace r))
    | Ret false =>
      exists pre j status,
        (i <= j < i + n)%nat /\ to_program data j = true /\
        ops (trace r)
        = pre ++ [ Rd (u32 (addr + Z.of_nat j * 2)) status;
                   Wr (write16 flash_base 0 AMD_CMD_BYPASS_RESET1);
                   Wr (write16 flash_base 0 AMD_CMD_BYPASS_RESET2);
                   Wr (write16 flash_base 0 AMD_CMD_RESET) ] /\
        status <> nth j data 0 /\ Z.testbit status 5 = true
    | Stop _ => True
    end.
Proof.
  induction n as [|n IH]; intros i d; cbv zeta; simpl.
  { intros j Hj. lia. }
  rewrite Nat2Z.id. destruct (nth_error data i) as [w|] eqn:En; [|exact I].
  replace (Z.of_nat i + 1) with (Z.of_nat (S i)) by lia.
  assert (Hi : to_program data i = negb (w =? 65535))
    by (unfold to_program; now rewrite En).
  destruct (w =? 65535) eqn:Ew.
  { specialize (IH (S i) d). cbv zeta in IH.
    destruct (out (amd_program_words flash_base n (Z.of_nat (S i)) addr data
                     true d)) as [[|]|why]; [| |exact I].
    - intros j Hj Hp. apply IH; [|assumption].
      destruct (Nat.eq_dec j i) as [->|]; [|lia].
      rewrite Hi in Hp. discriminate.
    - destruct IH as (pre & j & s & Hj & Hrest).
      exists pre, j, s. split; [lia|assumption]. }
  rewrite bind_when_printf.
  match goal with
  | |- context [bind (if Z.of_nat i =? 0 then _ else _) ?k d] =>
    destruct (amd_word_run flash_base addr i w k d)
      as (tw & dw & -> & _ & _)
  end.
  rewrite after_after, bind_run.
  pose proof (amd_program_poll_ops flash_base (u32 (addr + Z.of_nat i * 2))
                w fuel dw) as Hp.
  cbv zeta in Hp.
  destruct (amd_program_poll flash_base fuel (u32 (addr + Z.of_nat i * 2)) w dw)
    as [tp dp [[|]|why]]; cbn [out trace final] in *; [| |exact I].
  - specialize (IH (S i) dp). cbv zeta in IH.
    destruct (amd_program_words flash_base n (Z.of_nat (S i)) addr data
                true dp) as [tr dr [[|]|why]];
      cbn [after trace out final] in *; [| |exact I].
    + intros j Hj Hpj. rewrite !ops_app, !in_app_iff.
      destruct (Nat.eq_dec j i) as [->|Hne].
      * rewrite (nth_error_nth_0 _ _ En). tauto.
      * assert (Hin : In (Rd (u32 (addr + Z.of_nat j * 2)) (nth j data 0))
                        (ops tr)) by (apply IH; [lia|assumption]).
        tauto.
    + rewrite !ops_app. destruct IH as (pre & j & s & Hj & Hpj & -> & Hs).
      eexists _, j, s. split; [lia|]. split; [assumption|].
      split; [|assumption]. rewrite !app_assoc. reflexivity.
  - cbn [after ret trace out final]. rewrite app_nil_r, !ops_app.
    destruct Hp as (pre & s & -> & Hne & H5).
    eexists _, i, s. split; [lia|]. split; [now rewrite Hi|].
    rewrite (nth_error_nth_0 _ _ En).
    split; [|now split]. rewrite !app_assoc. reflexivity.
Qed.

(** X13.  In slow mode [amd_program_block] reports a block programmed only
    after it has read every word back: when it returns true, each word of
    the block that is not 0xFFFF was read at its address with the value of
    the data.  When it returns false, the last register read was at a word
    that was being programmed and returned a value that is not the data
    and has bit 5 set, and the two unlock-bypass resets and the reset
    command are all that follows. *)
Theorem amd_slow_mode_reads_back (flash_base addr : Z) (data : list Z)
    (size : Z) (d : usb) :
  let r := amd_program_block flash_base addr data size true d in
  match out r with
  | Ret true =>
    forall j, (j < Z.to_nat (size / 2))%nat -> to_program data j = true ->
              In (Rd (u32 (addr + Z.of_nat j * 2)) (nth j data 0))
                (ops (trace r))
  | Ret false =>
    exists pre j status,
      (j < Z.to_nat (size / 2))%nat /\ to_program data j = true /\
      ops (trace r)
      = pre ++ [ Rd (u32 (addr + Z.of_nat j * 2)) status;
                 Wr (write16 flash_base 0 AMD_CMD_BYPASS_RESET1);
                 Wr (write16 flash_base 0 AMD_CMD_BYPASS_RESET2);
                 Wr (write16 flash_base 0 AMD_CMD_RESET) ] /\
      status <> nth j data 0 /\ Z.testbit status 5 = true
  | Stop _ => True
  end.
Proof.
  cbv zeta. unfold amd_program_block, cx_flash_cmd.
  rewrite bind_printf; cbv beta. do 3 wr_step. rewrite bind_run.
  match goal with |- context [amd_program_words _ ?n _ _ _ _ ?d2] =>
    pose proof (amd_program_words_slow flash_base addr data n 0%nat d2) as H
  end.
  cbv zeta in H. change (Z.of_nat 0) with 0 in H.
  destruct (amd_program_words flash_base (Z.to_nat (size / 2)) 0 addr
              data true _) as [tl dl [[|]|why]]; cbn [out trace final] in *;
    [| |exact I].
  - do 2 wr_step. rewrite bind_printf; cbv beta.
    cbn [after ret trace out final]. intros j Hj Hpj.
    assert (Hin : In (Rd (u32 (addr + Z.of_nat j * 2)) (nth j data 0))
                    (ops tl)) by (apply H; [lia|assumption]).
    rewrite !ops_app, !in_app_iff. tauto.
  - cbn [after ret trace out final].
    destruct H as (pre & j & s & Hj & Hpj & Ho & Hs).
    eexists _, j, s. split; [lia|]. split; [assumption|].
    split; [|assumption]. views. rewrite Ho, ?app_nil_r.
    rewrite !app_comm_cons. reflexivity.
Qed.

(** ** The file of a read *)















(** ** Version 1.0 and version 1.1 *)

Lemma flash_decode_status_eq (status : Z) (d : usb) :
  flash_decode_status status d = intel_decode_status status d.
Proof. reflexivity. Qed.

Lemma flash_erase_poll_eq (flash_base : Z) (n : nat) :
  forall i d,
    flash_erase_poll flash_base n i d = intel_erase_poll flash_base n i d.
Proof.
  induction n as [|n IH]; intros i d;
    cbn [flash_erase_poll intel_erase_poll]; [reflexivity|].
  apply bind_ext. intros status d1. apply bind_ext. intros _ d2.
  change (flag status FLASH_ST_READY) with (flag status INTEL_ST_READY).
  destruct (flag status INTEL_ST_READY); [reflexivity|apply IH].
Qed.

Lemma flash_erase_block_eq (flash_base addr : Z) (d : usb) :
  flash_erase_block flash_base addr d = intel_erase_block flash_base addr d.
Proof.
  unfold flash_erase_block, intel_erase_block.
  do 5 (apply bind_ext; intros ? ?).
  rewrite !bind_run, flash_erase_poll_eq. reflexivity.
Qed.

Lemma flash_program_poll_eq (flash_base : Z) (n : nat) :
  forall d, flash_program_poll flash_base n d = intel_program_poll flash_base n d.
Proof.
  induction n as [|n IH]; intros d;
    cbn [flash_program_poll intel_program_poll]; [reflexivity|].
  apply bind_ext. intros status d1.
  change (flag status FLASH_ST_READY) with (flag status INTEL_ST_READY).
  destruct (flag status INTEL_ST_READY); [reflexivity|apply IH].
Qed.

Lemma flash_program_words_eq (flash_base addr : Z) (data : list Z)
    (slow : bool) (n : nat) :
  forall i d,
    flash_program_words flash_base n i addr data slow d
    = intel_program_words flash_base n i addr data slow d.
Proof.
  induction n as [|n IH]; intros i d;
    cbn [flash_program_words intel_program_words]; [reflexivity|].
  destruct (nth_error data (Z.to_nat i)) as [w|]; [|reflexivity].
  destruct (w =? 65535); [apply IH|].
  apply bind_ext. intros _ d1.
  change (flash_optimized_program_word flash_base)
    with (intel_optimized_program_word flash_base).
  change FLASH_CMD_PROGRAM with INTEL_CMD_PROGRAM.
  apply bind_ext. intros _ d2.
  destruct slow; [|apply IH].
  rewrite !bind_run, flash_program_poll_eq.
  destruct (intel_program_poll flash_base fuel d2) as [t3 d3 [status|why]];
    cbn [out final trace]; [|reflexivity].
  change (flag status FLASH_ST_ERROR_MASK)
    with (flag status INTEL_ST_ERROR_MASK).
  destruct (flag status INTEL_ST_ERROR_MASK); [reflexivity|now rewrite IH].
Qed.

Lemma flash_program_block_eq (flash_base addr : Z) (data : list Z)
    (size : Z) (slow : bool) (d : usb) :
  flash_program_block flash_base addr data size slow d
  = intel_program_block flash_base addr data size slow d.
Proof.
  unfold flash_program_block, intel_program_block.
  do 3 (apply bind_ext; intros ? ?).
  rewrite !bind_run, flash_program_words_eq. reflexivity.
Qed.

Lemma v10_write_block_eq (flash_base : Z) (buf : list Z) (slow : bool)
    (addr size : Z) (d : usb) :
  v10_write_block flash_base buf slow addr size d
  = write_block (intel_28f320c3b flash_base) buf slow addr size d.
Proof.
  unfold v10_write_block, write_block, lock_block.
  cbn [set_block_lock erase_block program_block intel_28f320c3b].
  apply bind_ext. intros _ d1.
  rewrite !bind_run, flash_erase_block_eq.
  destruct (intel_erase_block flash_base addr d1) as [t2 d2 [e|why]];
    cbn [out final trace]; [|reflexivity].
  rewrite flash_program_block_eq. reflexivity.
Qed.

Lemma v10_write_run_eq (flash_base : Z) (buf : list Z) (slow : bool)
    (size : Z) (j : nat) :
  forall addr d,
    v10_write_run j flash_base buf slow addr size d
    = write_run j (intel_28f320c3b flash_base) buf slow addr size d.
Proof.
  induction j as [|j IH]; intros addr d; cbn [v10_write_run write_run];
    [reflexivity|].
  rewrite !bind_run, v10_write_block_eq.
  destruct (write_block (intel_28f320c3b flash_base) buf slow addr size d)
    as [t1 d1 [[]|why]]; cbn [out final trace]; [|reflexivity].
  now rewrite IH.
Qed.

Lemma v10_write_blocks_eq (flash_base : Z) (buf : list Z) (slow : bool)
    (bl : list block_desc) :
  forall addr d,
    v10_write_blocks bl flash_base buf slow addr d
    = write_blocks bl (intel_28f320c3b flash_base) buf slow addr d.
Proof.
  induction bl as [|b bl IH]; intros addr d;
    cbn [v10_write_blocks write_blocks]; [reflexivity|].
  destruct (count b >? 0); [|reflexivity].
  rewrite !bind_run, v10_write_run_eq.
  destruct (write_run (Z.to_nat (count b)) (intel_28f320c3b flash_base) buf
              slow addr (size b) d) as [t1 d1 [addr'|why]];
    cbn [out final trace]; [|reflexivity].
  now rewrite IH.
Qed.

(** X16.  Version 1.1 kept the write pass of version 1.0 for the Intel part.
    flash_decode_status, flash_erase_block, flash_optimized_program_word,
    flash_program_block and flash_set_block_lock of version 1.0 are, on
    every board and for all arguments, the same computations as
    [intel_decode_status], [intel_erase_block],
    [intel_optimized_program_word], [intel_program_block] and
    [intel_set_block_lock] of version 1.1; and the two loops of [main] of
    version 1.0 over its block table, calling the former, are the same
    computation as the loops of version 1.1 calling through the descriptor
    of the Intel part, whose size and block table are FLASH_SIZE and
    flash_blocks of version 1.0. *)
Theorem v10_write_pass_kept (flash_base : Z) (buf : list Z) (slow : bool)
    (d : usb) :
  (forall status d',
     flash_decode_status status d' = intel_decode_status status d') /\
  (forall addr d',
     flash_erase_block flash_base addr d'
     = intel_erase_block flash_base addr d') /\
  (forall addr w d',
     flash_optimized_program_word flash_base addr w d'
     = intel_optimized_program_word flash_base addr w d') /\
  (forall addr data size slow' d',
     flash_program_block flash_base addr data size slow' d'
     = intel_program_block flash_base addr data size slow' d') /\
  (forall addr lock d',
     flash_set_block_lock flash_base addr lock d'
     = intel_set_block_lock flash_base addr lock d') /\
  v10_write_blocks flash_blocks flash_base buf slow 0 d
  = write_blocks (blocks (intel_28f320c3b flash_base))
      (intel_28f320c3b flash_base) buf slow 0 d /\
  flash_blocks = blocks (intel_28f320c3b flash_base) /\
  FLASH_SIZE = chip_size (intel_28f320c3b flash_base).
Proof.
  split; [intros; apply flash_decode_status_eq|].
  split; [intros; apply flash_erase_block_eq|].
  split; [reflexivity|].
  split; [intros; apply flash_program_block_eq|].
  split; [reflexivity|].
  split; [|split; reflexivity].
  apply v10_write_blocks_eq.
Qed.

Lemma v10_flash_identify_spec (flash_base : Z) (d : usb) :
  let r := v10_flash_identify flash_base d in
  match out r with
  | Ret known =>
    exists m v,
      ops (trace r)
      = [ Wr (write16 flash_base 0 FLASH_CMD_ID);
          Rd 0 m; Rd 2 v;
          Wr (write16 flash_base 0 INTEL_CMD_READ) ] /\
      known = (m =? 0x0089) && (v =? 0x88c5)
  | Stop _ =>
    ops (trace r) = [ Wr (write16 flash_base 0 FLASH_CMD_ID) ] \/
    exists m,
      ops (trace r) = [ Wr (write16 flash_base 0 FLASH_CMD_ID); Rd 0 m ]
  end.
Proof.
  cbv zeta. unfold v10_flash_identify. wr_step. rewrite bind_run.
  match goal with |- context [cx_flash_read _ 0 ?d3] =>
    destruct (cx_flash_read_views flash_base 0 d3) as (_ & Ho);
    destruct (cx_flash_read flash_base 0 d3) as [t1 d1 [m|why]]
  end; cbn [out trace final] in *.
  2:{ left. views. now rewrite Ho. }
  rewrite bind_run.
  destruct (cx_flash_read_views flash_base 2 d1) as (_ & Ho2).
  destruct (cx_flash_read flash_base 2 d1) as [t2 d2 [v|why]];
    cbn [out trace final] in *.
  2:{ right. exists m. views. now rewrite Ho, Ho2. }
  wr_step. rewrite bind_printf; cbv beta.
  destruct ((m =? 137) && (v =? 35013)) eqn:E;
    rewrite bind_printf; cbv beta; cbn [after ret trace out final];
    exists m, v; views; rewrite Ho, Ho2, E; now split.
Qed.

(** X17.  Version 1.0 at its gates.  It allocates its buffer before it talks
    to the board: without a device that is found and claimed, both
    arguments and the memory, it makes no transfer at all.  It goes on only
    for the Intel part: when the two register reads that follow the
    read-identifier command return anything but 0x0089 and 0x88c5, the run
    ends with exit status 6 and the read-array command is the last it
    sends; when they return these IDs, the exit status is not 6. *)
Theorem v10_main_gates (pr : probe) (argc : Z) (argv1 : string) (h : host)
    (d : usb) :
  let r := v10_main pr argc argv1 h d in
  let flash_base := if cx861xx_dev pr then 0x04000000 else 0x0400000 in
  (ready pr argc && malloc_ok h = false ->
   Forall (fun e => transfer e = false) (trace r)) /\
  (forall m v rest,
     ops (trace r)
     = v10_startup (cx861xx_dev pr) ++ [Rd 0 m; Rd 2 v] ++ rest ->
     if (m =? 0x0089) && (v =? 0x88c5)
     then out r <> Ret 6
     else out r = Ret 6 /\
          rest = [ Wr (write16 flash_base 0 INTEL_CMD_READ) ]).
Proof.
  cbv zeta. split.
  - intros Hr.
    assert (H : sat (fun e => transfer e = false) any
                  (v10_main pr argc argv1 h)).
    { unfold v10_main, claim_error, usage. unfold ready in Hr.
      repeat (sat_step; try reflexivity).
      all: try match goal with
               | |- @sat ?A _ ?R _ => is_evar R; unify R (@any A)
               end.
      all: exfalso; prop_hyps;
        repeat match goal with
               | H : _ = true |- _ => rewrite H in Hr; clear H
               end;
        cbn [andb] in Hr; rewrite ?andb_true_r in Hr;
        apply Z.leb_gt in Hr; lia. }
    apply (H d).
  - intros m v rest. unfold v10_main.
    rewrite !bind_printf; cbv beta.
    destruct (cx861xx_dev pr || cx82xxx_dev pr) eqn:Edev; cbn [negb].
    2:{ cbn. unfold v10_startup.
        destruct (cx861xx_dev pr); simpl; intros Hops; inversion Hops. }
    rewrite bind_printf; cbv beta.
    destruct (Z.eqb_spec (claim pr) 0) as [Ecl|Ecl]; cbn [negb].
    2:{ intros Hops. exfalso. revert Hops.
        assert (H : sat no_write any (bind (claim_error (claim pr))
                                        (fun _ => ret 2)))
          by (unfold claim_error; sat_go).
        destruct (H d) as [Hq _]. apply no_write_writes in Hq.
        cbn [after trace]. rewrite !ops_app. cbn [ops app].
        intros Hops. apply (f_equal wr_of) in Hops.
        unfold writes in Hq. rewrite Hq in Hops. unfold v10_startup in Hops.
        destruct (cx861xx_dev pr); simpl in Hops; discriminate. }
    destruct (argc <? 3).
    { cbn. unfold v10_startup.
      destruct (cx861xx_dev pr); simpl; intros Hops; inversion Hops. }
    destruct (negb (malloc_ok h)).
    { cbn. unfold v10_startup.
      destruct (cx861xx_dev pr); simpl; intros Hops; inversion Hops. }
    set (fb := if cx861xx_dev pr then 67108864 else 4194304) in *.
    match goal with |- context [bind (when (cx861xx_dev pr) ?w) ?k d] =>
      destruct (flash_enable_run (cx861xx_dev pr) k d)
        as (t0 & d0 & -> & Ht0 & Hs0)
    end.
    wr_step. rewrite bind_run.
    match goal with |- context [v10_flash_identify fb ?dx] =>
      pose proof (v10_flash_identify_spec fb dx) as Hid; cbv zeta in Hid;
      destruct (v10_flash_identify fb dx) as [ti di [known|why]]
    end; cbn [out trace final] in *.
    2:{ intros Hops. exfalso. revert Hops. views. rewrite Ht0.
        unfold v10_startup. fold fb. rewrite <- !app_assoc.
        destruct Hid as [Hid|(m' & Hid)]; rewrite Hid;
          destruct (cx861xx_dev pr); simpl; intros Hops; inversion Hops. }
    destruct Hid as (m' & v' & Hti & ->).
    rewrite !after_after.
    match goal with |- context [after _ (?k di)] =>
      remember (k di) as rk eqn:Erk
    end.
    intros Hops.
    assert (Hmv : m' = m /\ v' = v /\ rest = [Wr (write16 fb 0 INTEL_CMD_READ)] ++ ops (trace rk)).
    { revert Hops. cbn [after trace]. rewrite !ops_app, Ht0, Hti.
      unfold v10_startup. fold fb.
      rewrite ops_wr_log by reflexivity. generalize (ops (trace rk)).
      destruct (cx861xx_dev pr); simpl; intros l Hops; inversion Hops; auto. }
    destruct Hmv as (-> & -> & Hrest). clear Hops. subst rk.
    destruct ((m =? 137) && (v =? 35013)) eqn:E; cbn [negb] in *.
    + match goal with |- context [after _ (?k di)] =>
        assert (Hk : sat (fun _ => True) (fun c => c <> 6) k)
      end.
      { repeat first [sat_step | apply sat_top]; discriminate. }
      destruct (Hk di) as [_ Ho]. cbn [after out].
      match goal with |- context [out (?k di)] =>
        destruct (out (k di)) as [c|why]; [|discriminate]
      end.
      intros Hc. injection Hc as ->. now apply (Ho 6).
    + cbn [after ret trace out final] in *. split; [reflexivity|].
      now rewrite Hrest.
Qed.

(** ** The progress dots of a read *)

Lemma chunks_nonpos (count : Z) : count <= 0 -> chunks count = 0%nat.
Proof.
  intros H. unfold chunks, DATA_SIZE.
  assert ((count + (56 - 1)) / 56 <= 0); [|lia].
  apply Z.lt_succ_r. apply Z.div_lt_upper_bound; lia.
Qed.

Lemma cx_read_mem_loop_dots (n : nat) :
  forall addr count buf access d due0 due',
    u32 addr = addr ->
    let r := cx_read_mem_loop n addr count buf access d in
    track due0 (trace r) = Some due' ->
    forall b, out r = Ret (0, b) ->
              stdout (trace r)
              = repeat "."%string (dots_due (chunks count) count).
Proof.
  induction n as [|n IH]; intros addr count buf access d due0 due' Ha;
    cbv zeta; simpl.
  - destruct (Z.gtb_spec count 0) as [Hc|Hc]; simpl; intros _ b Hb;
      [discriminate|].
    now rewrite chunks_nonpos by lia.
  - destruct (Z.gtb_spec count 0) as [Hc|Hc]; simpl.
    2:{ intros _ b _. now rewrite chunks_nonpos by lia. }
    rewrite byte_count_min.
    rewrite bind_run, usb_send_run. cbn [out trace final].
    match goal with |- context [fst (bulk_out ?p d)] =>
      destruct (bulk_out p d) as [r d']; cbn [fst snd]
    end.
    assert (Hbc : 0 <= Z.min DATA_SIZE count <= DATA_SIZE)
      by (unfold DATA_SIZE; lia).
    destruct (Z.ltb_spec r 0) as [Hr|Hr].
    + cbn [after bind eprintf emit ret trace out final app].
      intros _ b Hb. injection Hb as -> _. lia.
    + cbn [after trace out final app track cmd byte_count].
      destruct (Z.ltb_spec r 0); [lia|].
      change (FW_READ_MEM =? FW_READ_MEM) with true. cbn [orb negb].
      rewrite bind_run.
      match goal with |- context [cx_read_mem_recv ?f ?a ?b ?c ?e d'] =>
        destruct (cx_read_mem_recv_views f a b c e d') as (_ & Hs & _);
        pose proof (@cx_read_mem_recv_in_step f a b c e d') as Hi;
        destruct (cx_read_mem_recv f a b c e d')
          as [tr dr [[[[[c'|] a1] c1] b1]|why]]
      end; cbn [out trace final] in *.
      * cbn [after ret trace out app]. rewrite app_nil_r. intros Ht b Hb.
        specialize (Hi due' Hbc ltac:(lia) Ha Ht).
        injection Hb as -> _. lia.
      * rewrite bind_when_printf, after_after. cbn [after trace out].
        rewrite !track_app.
        destruct (track (Z.min DATA_SIZE count) tr) as [d1|] eqn:Et;
          [|discriminate].
        specialize (Hi d1 Hbc ltac:(lia) Ha eq_refl).
        destruct Hi as (-> & ->).
        replace (track d1 (if (count - Z.min DATA_SIZE count >=? 1024)
                              && ((count - Z.min DATA_SIZE count) mod 1024 =? 0)
                           then [Stdout "." []] else []))
          with (Some d1) by (now destruct (_ && _)).
        intros Ht b Hb.
        rewrite (chunks_step Hc). cbn [dots_due stdout].
        destruct (Z.gtb_spec count 0); [|lia].
        rewrite !stdout_app, Hs, repeat_app. cbn [app].
        rewrite (IH (u32 (addr + Z.min DATA_SIZE count))
                   (count - Z.min DATA_SIZE count) b1 access dr d1 due'
                   (u32_idem _) Ht b Hb).
        now destruct (_ && _).
      * intros _ b Hb. discriminate.
Qed.

(** X18.  The progress dots of a read.  When the responses keep step and the
    read comes to its end, [cx_read_mem] has printed one dot after each
    request that left a positive multiple of 1024 bytes to read, and
    nothing else.  The requests take 56 bytes each, so that is one dot for
    every 7 KiB: 585 dots for the 4 MiB of the Intel part and 292 for the
    2 MiB of the MXIC part. *)
Theorem cx_read_mem_progress_dots (addr count access : Z) (d : usb) :
  let r := cx_read_mem (u32 addr) count access d in
  (forall b, in_step (trace r) = true -> out r = Ret (0, b) ->
             stdout (trace r)
             = repeat "."%string (dots_due (chunks count) count)) /\
  dots_due (chunks (4 * 1024 * 1024)) (4 * 1024 * 1024) = 585%nat /\
  dots_due (chunks (2 * 1024 * 1024)) (2 * 1024 * 1024) = 292%nat /\
  dots_due (chunks 7168) 7168 = 0%nat /\
  dots_due (chunks 8192) 8192 = 1%nat.
Proof.
  cbv zeta. split.
  - unfold cx_read_mem, in_step. intros b Hstep Hout.
    destruct (track 0 (trace (cx_read_mem_loop fuel (u32 addr) count []
                                access d))) as [due'|] eqn:Et;
      [|discriminate].
    exact (cx_read_mem_loop_dots fuel count [] access d 0 (u32_idem _)
             Et Hout).
  - repeat split; vm_compute; reflexivity.
Qed.

(** ** The bytes of the image on the wire *)

Lemma words_of_bytes_nth (j : nat) :
  forall l lo hi,
    nth_error l (2 * j) = Some lo -> nth_error l (2 * j + 1) = Some hi ->
    nth_error (words_of_bytes l) j = Some (u16_of_bytes lo hi).
Proof.
  induction j as [|j IH]; intros l lo hi H0 H1.
  - destruct l as [|x [|y l]]; cbn in *; try discriminate.
    now injection H0 as ->; injection H1 as ->.
  - replace (2 * S j)%nat with (S (S (2 * j))) in H0 by lia.
    replace (2 * S j + 1)%nat with (S (S (2 * j + 1))) in H1 by lia.
    destruct l as [|x [|y l]]; cbn [nth_error words_of_bytes] in *;
      try discriminate.
    now apply IH.
Qed.

Lemma byte_high_bits (x n : Z) :
  0 <= x < 256 -> 8 <= n -> Z.testbit x n = false.
Proof.
  intros Hx Hn. rewrite <- (Z.mod_small x (2 ^ 8)) by (change (2 ^ 8) with 256; lia).
  apply Z.mod_pow2_bits_high. lia.
Qed.

Lemma bytes_of_u16_of_bytes (lo hi : Z) :
  0 <= lo < 256 -> 0 <= hi < 256 ->
  bytes_of_u16 (u16_of_bytes lo hi) = [lo; hi].
Proof.
  intros Hlo Hhi. unfold bytes_of_u16, u16_of_bytes.
  rewrite (@u8_small lo), (@u8_small hi) by assumption.
  unfold u8, u16. change 256 with (2 ^ 8). change 65536 with (2 ^ 16).
  f_equal; [|f_equal]; apply Z.bits_inj'; intros n Hn.
  - destruct (Z.lt_ge_cases n 8) as [H8|H8].
    + rewrite Z.mod_pow2_bits_low, Z.lor_spec, Z.shiftl_spec by lia.
      rewrite (Z.testbit_neg_r _ (n - 8)) by lia. apply orb_false_r.
    + rewrite Z.mod_pow2_bits_high by lia.
      symmetry. now apply byte_high_bits.
  - destruct (Z.lt_ge_cases n 8) as [H8|H8].
    + rewrite Z.mod_pow2_bits_low, Z.shiftr_spec by lia.
      rewrite Z.mod_pow2_bits_low, Z.lor_spec, Z.shiftl_spec by lia.
      rewrite (@byte_high_bits lo (n + 8)) by lia.
      replace (n + 8 - 8) with n by lia. reflexivity.
    + rewrite Z.mod_pow2_bits_high by lia.
      symmetry. now apply byte_high_bits.
Qed.

(** X19.  The bytes of the image reach the board as they are.  The word that
    [main] hands to [program_block] for index [j] of the block at [addr]
    is made of the bytes [addr + 2 j] and [addr + 2 j + 1] of the image,
    low byte first; the packet that programs it carries these two bytes
    unchanged after the two bytes of the program command; and the word is
    left out exactly when both bytes are 0xFF. *)
Theorem image_bytes_on_the_wire (flash_base pcmd a : Z) (buf : list Z)
    (addr : Z) (j : nat) (lo hi : Z) :
  nth_error buf (Z.to_nat addr + 2 * j) = Some lo ->
  nth_error buf (Z.to_nat addr + 2 * j + 1) = Some hi ->
  0 <= lo < 256 -> 0 <= hi < 256 ->
  nth_error (words_at buf addr) j = Some (u16_of_bytes lo hi) /\
  carried (write16 flash_base a (u16_of_bytes lo hi)) = [lo; hi] /\
  carried (write32 flash_base a pcmd (u16_of_bytes lo hi))
  = bytes_of_u16 pcmd ++ [lo; hi] /\
  (to_program (words_at buf addr) j = false <-> lo = 255 /\ hi = 255).
Proof.
  intros H0 H1 Hlo Hhi.
  assert (Hw : nth_error (words_at buf addr) j = Some (u16_of_bytes lo hi)).
  { unfold words_at.
    apply words_of_bytes_nth; rewrite nth_error_skipn, ?Nat.add_assoc;
      assumption. }
  split; [exact Hw|].
  unfold carried, write16, write32, payload. cbn [byte_count data].
  rewrite bytes_of_u16_of_bytes by assumption.
  split; [reflexivity|]. split; [reflexivity|].
  unfold to_program. rewrite Hw. rewrite negb_false_iff, Z.eqb_eq.
  split.
  - intros E. apply (f_equal bytes_of_u16) in E.
    rewrite bytes_of_u16_of_bytes in E by assumption.
    now injection E as -> ->.
  - intros [-> ->]. reflexivity.
Qed.

End Board.

(** * The code on scripted boards *)

(** C1.  The write pass on the Intel chip, first two blocks, on a board
    whose status register reads 0xa2 (ready, erase error, block locked)
    after the erase command of block 0: [intel_erase_block] returns false
    there, and the loop of [main] goes on to program block 0, to lock it,
    and to unlock, erase, program and lock block 1. *)
Lemma write_goes_on_after_failed_erase :
  let fb := 0x400000 in
  let board := mkScript [] [answer16 0xa2; answer16 0x80] in
  let flash := intel_28f320c3b script_out script_in 0 1 fb in
  let erase0 :=
    intel_erase_block script_out script_in 0 1 fb 0
      (final (lock_block flash 0 false board)) in
  let r := write_run 2 flash two_blocks_image false 0 8192 board in
  let block addr status w :=
    [ Wr (write16 fb addr INTEL_CMD_LOCKMODE);
      Wr (write16 fb addr INTEL_CMD_UNLOCK);
      Wr (write16 fb 0 INTEL_CMD_CLEARSTATUS);
      Wr (write16 fb 0 INTEL_CMD_READSTATUS);
      Wr (write16 fb addr INTEL_CMD_ERASE);
      Wr (write16 fb addr INTEL_CMD_ERASECONFIRM);
      Rd 0 status;
      Wr (write16 fb 0 INTEL_CMD_READ);
      Wr (write16 fb 0 INTEL_CMD_CLEARSTATUS);
      Wr (write16 fb 0 INTEL_CMD_READSTATUS);
      Wr (write16 fb addr INTEL_CMD_PROGRAM);
      Wr (write16 fb addr w);
      Wr (write16 fb 0 INTEL_CMD_READ);
      Wr (write16 fb addr INTEL_CMD_LOCKMODE);
      Wr (write16 fb addr INTEL_CMD_LOCK) ] in
  out erase0 = Ret false /\
  out r = Ret 16384 /\
  ops (trace r) = block 0 0xa2 0x1234 ++ block 8192 0x80 0x5678.
Proof. vm_compute. repeat split; reflexivity. Qed.

(** C6.  The error mask 0x5a does not hold the erase error bit.  On a
    board whose status register reads 0xa0 (ready, erase error) after the
    erase command [intel_erase_block] returns true and decodes nothing;
    on one that reads 0xc0 (ready, erase suspended, no error bit) it
    returns false. *)
Lemma intel_erase_block_misses_erase_error :
  let erase status :=
    intel_erase_block script_out script_in 0 1 0x400000 0
      (mkScript [] [answer16 status]) in
  Z.land INTEL_ST_ERROR_MASK INTEL_ST_ERASEERROR = 0 /\
  Z.land INTEL_ST_ERROR_MASK INTEL_ST_ERASESUSPEND <> 0 /\
  out (erase 0xa0) = Ret true /\
  stdout (trace (erase 0xa0))
  = ["Erasing block     0x%06x: "; "."; "\n"]%string /\
  out (erase 0xc0) = Ret false /\
  stdout (trace (erase 0xc0))
  = ["Erasing block     0x%06x: "; "."; "Error!\n"; "Status decode: ";
     "READY "; "ERASE_SUSPEND "; "\n"]%string.
Proof. vm_compute. repeat split; try reflexivity. discriminate. Qed.

(** C2, as stated, fails.  On a board where every transfer times out,
    [intel_set_block_lock] has the result it has on any other board and
    sends its second command after the first one failed; and with 0x0080
    in the uninitialised local of [cx_flash_read], [intel_erase_block]
    returns true although all six transfers of the call failed.  None of
    the failures reached the caller. *)
Lemma flash_layer_drops_transport_errors :
  let dead := mkScript (repeat LIBUSB_ERROR_TIMEOUT 6) [] in
  let lock := intel_set_block_lock script_out 0x400000 0 true dead in
  let erase := intel_erase_block script_out script_in 0x80 1 0x400000 0 dead in
  out lock = Ret tt /\
  map failed (filter transfer (trace lock))
  = repeat (Some LIBUSB_ERROR_TIMEOUT) 2 /\
  out erase = Ret true /\
  map failed (filter transfer (trace erase))
  = repeat (Some LIBUSB_ERROR_TIMEOUT) 6.
Proof. vm_compute. repeat split; reflexivity. Qed.

(** C5 at a transfer of 100 bytes: two chunks, 56 and 44 bytes. *)
Lemma cx_mem_chunking_witness :
  let board :=
    mkScript [] [answer 30 (repeat 1 30); answer 26 (repeat 2 26);
                 answer 44 (repeat 3 44)] in
  let w := cx_write_mem script_out 0x400000 100 (repeat 0xab 100) MA_BYTE
             board in
  let r := cx_read_mem script_out script_in 56 0x400000 100 MA_BYTE board in
  (0 <= 0x400000 < 4294967296 /\ 0 <= 100) /\
  in_step (trace r) = true /\
  map span (sent (trace w)) = [(0x400000, 56); (0x400038, 44)] /\
  map span (sent (trace r)) = [(0x400000, 56); (0x400038, 44)] /\
  out w = Ret 0.
Proof.
  cbv zeta.
  destruct (@cx_mem_chunking script script_out script_in 56 0x400000 100
              (repeat 0xab 100) MA_BYTE
              (mkScript [] [answer 30 (repeat 1 30); answer 26 (repeat 2 26);
                            answer 44 (repeat 3 44)]))
    as (_ & _ & _ & _ & W3 & W4 & _ & R); [lia|lia|].
  split; [lia|]. split; [reflexivity|].
  destruct (R eq_refl) as (_ & R3 & _).
  split; [exact (W3 eq_refl)|].
  split; [exact (R3 _ eq_refl)|].
  apply W4; [reflexivity|].
  vm_compute. repeat constructor.
Defined.

(** C7 at the MXIC chip. *)
Lemma supported_chips_sizes_witness :
  let chip := mxic_mx29lv160b script_out script_in 0 0 0x400000 in
  In chip (supported_chips script_out script_in 0 0 0x400000) /\
  blocks_total (blocks chip) = 2 * 1024 * 1024.
Proof.
  cbv zeta. split; [right; left; reflexivity|].
  apply (@supported_chips_sizes script script_out script_in 0 0%nat 0x400000).
  right; left; reflexivity.
Defined.

(** C8 on a board that answers the IDs of the Intel part, and on a board
    that answers 0x1234 and 0x5678. *)
Lemma identify_selects_or_fails_witness :
  let known := mkScript [] [answer16 0x0089; answer16 0x88c5] in
  let unknown := mkScript [] [answer16 0x1234; answer16 0x5678] in
  let r := main script_out script_in 0 2 false "write"
             (mkHost true true [] true) unknown in
  (exists c,
     out (flash_identify script_out script_in 0 2 0x400000 known) = Ret (Some c)
     /\ chip_size c = 4 * 1024 * 1024
     /\ blocks c = [mkBlocks 8 8192; mkBlocks 63 65536; mkBlocks 0 0]) /\
  out r = Ret 6 /\
  ops (trace r)
  = startup false ++ [Rd 0 0x1234; Rd 2 0x5678]
    ++ [ Wr (write16 0x400000 0 INTEL_CMD_READ);
         Wr (write16 0x400000 0 AMD_CMD_RESET) ].
Proof.
  cbv zeta.
  destruct (@identify_selects_or_fails script script_out script_in 0 2%nat
              false "write" (mkHost true true [] true)
              (mkScript [] [answer16 0x1234; answer16 0x5678]))
    as (Hsel & Hfail).
  split.
  - destruct (Hsel (mkScript [] [answer16 0x0089; answer16 0x88c5]) _ eq_refl)
      as (c & Hc & Hsize & Hblocks).
    + vm_compute. tauto.
    + vm_compute. tauto.
    + exists c. split; [|split; assumption].
      rewrite <- Hc. reflexivity.
  - destruct (Hfail 0x1234 0x5678
                [ Wr (write16 0x400000 0 INTEL_CMD_READ);
                  Wr (write16 0x400000 0 AMD_CMD_RESET) ]) as (Hout & _ & _).
    + reflexivity.
    + intros c [<-|[<-|[]]] [H _]; discriminate H.
    + split; [exact Hout|reflexivity].
Defined.

(** C10 on a board where every transfer times out. *)
Lemma program_block_fast_never_fails_witness :
  let board := mkScript (repeat LIBUSB_ERROR_TIMEOUT 8) [] in
  let data := [0x1234; 0xffff; 0x5678] in
  (Z.to_nat (6 / 2) <= length data)%nat /\
  reads (trace (driver_program_block script_out script_in 0 0 AMD 0x400000
                  0x4000 data 6 false board)) = [] /\
  out (driver_program_block script_out script_in 0 0 AMD 0x400000 0x4000
         data 6 false board) = Ret true.
Proof.
  cbv zeta.
  destruct (@program_block_fast_never_fails script script_out script_in 0
              0%nat AMD 0x400000 0x4000 [0x1234; 0xffff; 0x5678] 6
              (mkScript (repeat LIBUSB_ERROR_TIMEOUT 8) []))
    as (H1 & H2 & _).
  - simpl. lia.
  - split; [simpl; lia|]. split; assumption.
Defined.

(** C2 (amended) on a board where the read request times out: the code of
    [cx_read_mem] is the code of the transfer, and [cx_flash_read] returns
    what its local held. *)
Lemma transport_error_stops_at_memory_layer_witness :
  let board := mkScript [LIBUSB_ERROR_TIMEOUT] [] in
  out (cx_read_mem script_out script_in 2 (u32 (0x400000 + 0)) 2 MA_WORD board)
  = Ret (LIBUSB_ERROR_TIMEOUT, []) /\
  out (cx_flash_read script_out script_in 0x1234 2 0x400000 0 board)
  = Ret 0x1234 /\
  out (cx_flash_write script_out 0x400000 0 INTEL_CMD_READ board) = Ret tt.
Proof.
  cbv zeta.
  destruct (@transport_error_stops_at_memory_layer script script_out script_in
              0x1234 2%nat 0x400000 0 0 [] MA_WORD 0 INTEL_CMD_READ
              (mkScript [LIBUSB_ERROR_TIMEOUT] []))
    as (_ & _ & Hw & Hr).
  split; [reflexivity|]. split; [|exact Hw].
  rewrite (Hr LIBUSB_ERROR_TIMEOUT [] eq_refl). reflexivity.
Defined.

(** C3 at a block of three words, the second of them 0xFFFF. *)
Lemma program_block_skips_ffff_witness :
  let fb := 0x400000 in
  let r := driver_program_block script_out script_in 0 2 Intel fb 0x2000
             [0x1234; 0xffff; 0x5678] 6 true
             (mkScript [] [answer16 0x80; answer16 0x80]) in
  out r = Ret true /\
  writes (trace r)
  = [ write16 fb 0 INTEL_CMD_CLEARSTATUS;
      write16 fb 0 INTEL_CMD_READSTATUS;
      write16 fb 0x2000 INTEL_CMD_PROGRAM;
      write16 fb 0x2000 0x1234;
      write32 fb 0x2002 INTEL_CMD_PROGRAM 0x5678;
      write16 fb 0 INTEL_CMD_READ ].
Proof.
  cbv zeta. split; [reflexivity|].
  destruct (@program_block_skips_ffff script script_out script_in 0 2%nat
              Intel 0x400000 0x2000 [0x1234; 0xffff; 0x5678] 6 true
              (mkScript [] [answer16 0x80; answer16 0x80]))
    as (k & _ & Hw & _ & _ & Hk & _).
  rewrite Hw, (Hk eq_refl). reflexivity.
Defined.

(** A block of the AMD driver without slow mode, on a board that sends
    nothing: the word at index 0 goes out as two writes of two bytes at the
    block address, the word 0xFFFF at index 1 is left out, and the words
    at indices 2 and 3 go out as one write of four bytes each, two bytes
    below the word. *)
Lemma program_block_order_and_merging_witness :
  let fb := 0x400000 in
  let r := driver_program_block script_out script_in 0 0 AMD fb 0x4000
             [0x1234; 0xffff; 0x5678; 0x9abc] 8 false (mkScript [] []) in
  out r = Ret true /\
  writes (trace r)
  = [ write16 fb 0xaaa 0xaa;
      write16 fb 0x554 0x55;
      write16 fb 0xaaa AMD_CMD_UNLOCK_BYPASS;
      mkPacket FW_WRITE_MEM 2 MA_WORD 0 0x404000
        (payload (bytes_of_u16 AMD_CMD_PROGRAM) 2);
      mkPacket FW_WRITE_MEM 2 MA_WORD 0 0x404000
        (payload (bytes_of_u16 0x1234) 2);
      mkPacket FW_WRITE_MEM 4 MA_WORD 0 0x404002
        (payload (bytes_of_u16 AMD_CMD_PROGRAM ++ bytes_of_u16 0x5678) 4);
      mkPacket FW_WRITE_MEM 4 MA_WORD 0 0x404004
        (payload (bytes_of_u16 AMD_CMD_PROGRAM ++ bytes_of_u16 0x9abc) 4);
      write16 fb 0 AMD_CMD_BYPASS_RESET1;
      write16 fb 0 AMD_CMD_BYPASS_RESET2 ].
Proof.
  cbv zeta.
  destruct (@program_block_order_and_merging script script_out script_in 0
              0%nat AMD 0x400000 0x4000 [0x1234; 0xffff; 0x5678; 0x9abc] 8
              false (mkScript [] []))
    as (k & idx & Hidx & _ & _ & _ & Hfast & _ & _ & Hw).
  destruct (Hfast eq_refl) as (Ho & Hk); [simpl; lia|].
  split; [exact Ho|].
  rewrite Hw, Ho, Hidx, Hk. reflexivity.
Defined.

(** [amd_erase_block] on a board that answers 0x0000, then 0x0020 (bit 5
    set, bit 7 clear), then 0x0080: the second value ends the polling, the
    reset command follows it and the third response is never asked for. *)
Example amd_erase_block_timeout :
  let fb := 0x400000 in
  let board := mkScript [] [answer16 0x00; answer16 0x20; answer16 0x80] in
  let r := amd_erase_block script_out script_in 0 2 fb 0x4000 board in
  out r = Ret false /\
  responses (final r) = [answer16 0x80] /\
  ops (trace r)
  = [ Wr (write16 fb 0xaaa 0xaa);
      Wr (write16 fb 0x554 0x55);
      Wr (write16 fb 0xaaa AMD_CMD_ERASE_PREPARE);
      Wr (write16 fb 0xaaa 0xaa);
      Wr (write16 fb 0x554 0x55);
      Wr (write16 fb 0x4000 AMD_CMD_ERASE_SECTOR);
      Rd 0x4000 0x00;
      Rd 0x4000 0x20;
      Wr (write16 fb 0 AMD_CMD_RESET) ].
Proof. vm_compute. repeat split; reflexivity. Qed.

(** The same call on a board that answers 0x0000 and then 0x0080. *)
Example amd_erase_block_done :
  let fb := 0x400000 in
  let board := mkScript [] [answer16 0x00; answer16 0x80] in
  let r := amd_erase_block script_out script_in 0 2 fb 0x4000 board in
  out r = Ret true /\
  wr_of (skipn 6 (ops (trace r))) = [] /\
  skipn 6 (ops (trace r)) = [Rd 0x4000 0x00; Rd 0x4000 0x80].
Proof. vm_compute. repeat split; reflexivity. Qed.

(** The round trip of a word on a board that answers the register read
    with the word 0x1234. *)
Lemma flash_word_round_trip_witness :
  let board := mkScript [] [answer16 0x1234] in
  out (cx_flash_read script_out script_in 0 1 0x400000 0 board)
  = Ret (u16 0x1234) /\
  In (Got16 0 (u16 0x1234))
    (trace (cx_flash_read script_out script_in 0 1 0x400000 0 board)).
Proof.
  cbv zeta.
  apply (@flash_word_round_trip script script_out script_in 0 1%nat
           0x400000 0 0x1234 (mkScript [] [answer16 0x1234]) 0
           (snd (answer16 0x1234)) (mkScript [] [])).
  - lia.
  - simpl. lia.
  - reflexivity.
  - lia.
  - reflexivity.
  - reflexivity.
Defined.

(** The walk over the blocks of the Intel part: 71 blocks from 0 to
    4 MiB. *)
Lemma write_pass_walks_blocks_witness :
  let c := intel_28f320c3b script_out script_in 0 0 0x400000 in
  let board := mkScript [] [] in
  In c (supported_chips script_out script_in 0 0 0x400000) /\
  write_blocks (blocks c) c [] false 0 board
  = write_each c [] false (place 0 (block_sizes (blocks c))) board /\
  contiguous (place 0 (block_sizes (blocks c))) 0 (4 * 1024 * 1024) /\
  Z.of_nat (length (place 0 (block_sizes (blocks c)))) = 71.
Proof.
  cbv zeta.
  assert (Hc : In (intel_28f320c3b script_out script_in 0 0 0x400000)
                 (supported_chips script_out script_in 0 0 0x400000))
    by (left; reflexivity).
  split; [exact Hc|].
  exact (@write_pass_walks_blocks script script_out script_in 0 0%nat
           0x400000 _ [] false (mkScript [] []) Hc).
Defined.

(** A read on a board that answers the IDs of the Intel part and then
    nothing: the responses keep step and the run ends with an exit
    status. *)
Lemma main_stays_in_buffers_witness :
  let board := mkScript [] [answer16 0x0089; answer16 0x88c5] in
  let r := main script_out script_in 0 2 false "read"
             (mkHost true true [] true) board in
  in_step (trace r) = true /\ out r <> Stop Undefined.
Proof.
  cbv zeta.
  assert (H : in_step
                (trace (main script_out script_in 0 2 false "read"
                          (mkHost true true [] true)
                          (mkScript [] [answer16 0x0089; answer16 0x88c5])))
              = true) by (vm_compute; reflexivity).
  split; [exact H|].
  exact (@main_stays_in_buffers script script_out script_in 0 2%nat false
           "read" (mkHost true true [] true)
           (mkScript [] [answer16 0x0089; answer16 0x88c5]) H).
Defined.


(** The first word of an image that starts with the bytes 0x34 and
    0x12. *)
Lemma image_bytes_on_the_wire_witness :
  let buf := [0x34; 0x12; 0xff; 0xff] in
  nth_error (words_at buf 0) 0 = Some (u16_of_bytes 0x34 0x12) /\
  carried (write16 0x400000 0 (u16_of_bytes 0x34 0x12)) = [0x34; 0x12] /\
  carried (write32 0x400000 0 INTEL_CMD_PROGRAM (u16_of_bytes 0x34 0x12))
  = bytes_of_u16 INTEL_CMD_PROGRAM ++ [0x34; 0x12] /\
  (to_program (words_at buf 0) 0 = false <-> 0x34 = 255 /\ 0x12 = 255).
Proof.
  cbv zeta.
  apply (@image_bytes_on_the_wire 0x400000 INTEL_CMD_PROGRAM 0
           [0x34; 0x12; 0xff; 0xff] 0 0%nat 0x34 0x12).
  - reflexivity.
  - reflexivity.
  - lia.
  - lia.
Defined.

(** A read of four bytes that the board answers in one response. *)
Lemma cx_read_mem_stores_responses_witness :
  let board := mkScript [] [answer 4 [1; 2; 3; 4]] in
  let r := cx_read_mem script_out script_in 2 0x400000 4 MA_BYTE board in
  out r = Ret (0, [1; 2; 3; 4]) /\
  [1; 2; 3; 4] = received (trace r) /\
  Z.of_nat (length [1; 2; 3; 4]) = 4.
Proof.
  cbv zeta.
  pose proof (@cx_read_mem_stores_responses script script_out script_in
                2%nat 0x400000 4 MA_BYTE
                (mkScript [] [answer 4 [1; 2; 3; 4]])) as H.
  cbv zeta in H.
  assert (E : out (cx_read_mem script_out script_in 2 0x400000 4 MA_BYTE
                     (mkScript [] [answer 4 [1; 2; 3; 4]]))
              = Ret (0, [1; 2; 3; 4])) by (vm_compute; reflexivity).
  rewrite E in H. destruct H as (Hb & _ & Hl).
  split; [exact E|]. split; [exact Hb|].
  apply Hl; [reflexivity|lia|]. vm_compute. repeat constructor.
Defined.

(** A read run on a board that answers the IDs of the Intel part and
    then nothing: the memory writes are those of the identification. *)
Lemma main_writes_flash_only_on_request_witness :
  let board := mkScript [] [answer16 0x0089; answer16 0x88c5] in
  let r := main_start script_out script_in 0 2 (mkProbe false true 1 2 0) 3
             "read" (mkHost true true [] true) board in
  out r = Ret 0 /\ writes (trace r) = identification false.
Proof.
  cbv zeta.
  destruct (@main_writes_flash_only_on_request script script_out script_in
              0 2%nat (mkProbe false true 1 2 0) 3 "read"
              (mkHost true true [] true)
              (mkScript [] [answer16 0x0089; answer16 0x88c5]))
    as (_ & H).
  destruct (H eq_refl) as (_ & Hw).
  assert (E : out (main_start script_out script_in 0 2
                     (mkProbe false true 1 2 0) 3 "read"
                     (mkHost true true [] true)
                     (mkScript [] [answer16 0x0089; answer16 0x88c5]))
              = Ret 0) by (vm_compute; reflexivity).
  split; [exact E|]. exact (Hw 0 E eq_refl).
Defined.

(** The slow mode of the Intel driver on a board whose status register
    reads 0x90: ready, with the program error bit. *)
Lemma intel_slow_mode_stops_at_error_witness :
  let board := mkScript [] [answer16 0x90] in
  let r := intel_program_block script_out script_in 0 2 0x400000 0
             [0x1234] 2 true board in
  out r = Ret false /\
  exists pre status,
    ops (trace r)
    = pre ++ [Rd 0 status; Wr (write16 0x400000 0 INTEL_CMD_READ)] /\
    Forall passed pre /\
    Z.testbit status 7 = true /\
    Z.land status INTEL_ST_ERROR_MASK <> 0.
Proof.
  cbv zeta.
  pose proof (@intel_slow_mode_stops_at_error script script_out script_in
                0 2%nat 0x400000 0 [0x1234] 2
                (mkScript [] [answer16 0x90])) as H.
  cbv zeta in H.
  assert (E : out (intel_program_block script_out script_in 0 2 0x400000 0
                     [0x1234] 2 true (mkScript [] [answer16 0x90]))
              = Ret false) by (vm_compute; reflexivity).
  rewrite E in H. split; [exact E|exact H].
Defined.

(** The slow mode of the AMD driver on a board where the word reads back
    as 0x0020: not the data, with bit 5 set. *)
Lemma amd_slow_mode_reads_back_witness :
  let board := mkScript [] [answer16 0x0020] in
  let r := amd_program_block script_out script_in 0 2 0x400000 0
             [0x1234] 2 true board in
  out r = Ret false /\
  exists pre j status,
    (j < Z.to_nat (2 / 2))%nat /\ to_program [0x1234] j = true /\
    ops (trace r)
    = pre ++ [ Rd (u32 (0 + Z.of_nat j * 2)) status;
               Wr (write16 0x400000 0 AMD_CMD_BYPASS_RESET1);
               Wr (write16 0x400000 0 AMD_CMD_BYPASS_RESET2);
               Wr (write16 0x400000 0 AMD_CMD_RESET) ] /\
    status <> nth j [0x1234] 0 /\ Z.testbit status 5 = true.
Proof.
  cbv zeta.
  pose proof (@amd_slow_mode_reads_back script script_out script_in
                0 2%nat 0x400000 0 [0x1234] 2
                (mkScript [] [answer16 0x0020])) as H.
  cbv zeta in H.
  assert (E : out (amd_program_block script_out script_in 0 2 0x400000 0
                     [0x1234] 2 true (mkScript [] [answer16 0x0020]))
              = Ret false) by (vm_compute; reflexivity).
  rewrite E in H. split; [exact E|exact H].
Defined.

(** Version 1.0 on a board that answers the IDs 0x00c2 and 0x2249 of the
    MXIC part. *)
Lemma v10_main_gates_witness :
  let board := mkScript [] [answer16 0x00c2; answer16 0x2249] in
  let r := v10_main script_out script_in 0 2 (mkProbe false true 1 2 0) 3
             "write" (mkHost true true [] true) board in
  ops (trace r)
  = v10_startup false ++ [Rd 0 0x00c2; Rd 2 0x2249]
    ++ [Wr (write16 0x400000 0 INTEL_CMD_READ)] /\
  out r = Ret 6.
Proof.
  cbv zeta.
  destruct (@v10_main_gates script script_out script_in 0 2%nat
              (mkProbe false true 1 2 0) 3 "write"
              (mkHost true true [] true)
              (mkScript [] [answer16 0x00c2; answer16 0x2249]))
    as (_ & H).
  assert (E : ops (trace (v10_main script_out script_in 0 2
                            (mkProbe false true 1 2 0) 3 "write"
                            (mkHost true true [] true)
                            (mkScript [] [answer16 0x00c2; answer16 0x2249])))
              = v10_startup false ++ [Rd 0 0x00c2; Rd 2 0x2249]
                ++ [Wr (write16 0x400000 0 INTEL_CMD_READ)])
    by (vm_compute; reflexivity).
  split; [exact E|].
  exact (proj1 (H 0x00c2 0x2249 _ E)).
Defined.

